(** * KuCoin coin-margined futures rebalancing bot: model and properties

    A shallow embedding of [trading_bot.py]: the signed request client
    ([KuCoinFuturesClient]), the order executor ([OrderExecutor]) with its GTC
    monitoring loop, and the pure rebalance calculator
    ([PortfolioCalculator.calculate_metrics]).

    Conventions.
    - Python [float] is an abstract number type [F] with the operations the
      source uses (class [Number]); its instance is IEEE binary64 (Rocq's
      primitive floats, which is what CPython computes with).  Every
      definition is generic in [F]; concrete runs and the numerical
      statements are about binary64, whose finite numbers are read as
      rationals by [value].
    - The exchange is a function from the history of requests and the current
      request to a reply; all statements quantify over it.
    - Mutable process state (clock, requests issued, CSV ledger, error log,
      uuid draws) is one record threaded through a state-and-exception monad. *)

From Stdlib Require Import ZArith QArith Qabs Qfield Qpower List String Bool.
From Stdlib Require Import Lia Lqa.
From Stdlib Require Import Floats.
Import ListNotations.

Local Open Scope string_scope.
Local Open Scope Z_scope.

(* ------------------------------------------------------------------ *)
(** ** Numbers *)

(** The operations on Python numbers that the source relies on.
    [lit] is an integer literal read as a float ([0], [1], [100]);
    [float_of_int] is [float(n)] for a run-time [int] (it raises
    [OverflowError] when [n] is too large: [None]);
    [to_int] is [int(x)], truncation toward zero (it raises on nan and on
    infinities: [None]);
    [cmp_int n x] compares a Python [int] with a float, which Python does
    exactly ([None] when [x] is nan, where every comparison is false). *)
Class Number (F : Type) : Type := {
  lit : Z -> F;
  float_of_int : Z -> option F;
  add : F -> F -> F;
  sub : F -> F -> F;
  mul : F -> F -> F;
  div : F -> F -> F;
  absF : F -> F;
  ltb : F -> F -> bool;
  eqb : F -> F -> bool;
  to_int : F -> option Z;
  cmp_int : Z -> F -> option comparison
}.

Declare Scope num_scope.
Delimit Scope num_scope with num.
Infix "+" := add : num_scope.
Infix "-" := sub : num_scope.
Infix "*" := mul : num_scope.
Infix "/" := div : num_scope.
Infix "<?" := ltb : num_scope.
Infix "=?" := eqb : num_scope.

(** [x > y] on floats is [y < x]. *)
Definition gtb {F} `{Number F} (x y : F) : bool := ltb y x.
Infix ">?" := gtb : num_scope.

(** Truth value of a float in a condition ([if limit_price:]): nonzero. *)
Definition truthy {F} `{Number F} (x : F) : bool := negb (eqb x (lit 0)).

(** The one order fact the properties below need: a number equal to zero is
    not strictly positive. *)
Class NumberLaws (F : Type) `{Number F} : Prop := {
  zero_not_positive : forall x : F, eqb x (lit 0) = true -> ltb (lit 0) x = false
}.

(** *** IEEE binary64 *)
Module Binary64.

Definition of_Z (z : Z) : spec_float := binary_normalize prec emax z 0 false.

Definition lit (z : Z) : float := SF2Prim (of_Z z).

Definition float_of_int (z : Z) : option float :=
  match of_Z z with
  | S754_infinity _ => None
  | sf => Some (SF2Prim sf)
  end.

(** Magnitude of [m * 2^e] rounded down to an integer. *)
Definition magnitude (m : positive) (e : Z) : Z :=
  if 0 <=? e then Z.shiftl (Zpos m) e else Z.shiftr (Zpos m) (- e).

Definition to_int (x : float) : option Z :=
  match Prim2SF x with
  | S754_zero _ => Some 0
  | S754_finite s m e => Some (if s then - magnitude m e else magnitude m e)
  | S754_infinity _ | S754_nan => None
  end.

(** Exact comparison of the integer [n] with the float [x]. *)
Definition cmp_int (n : Z) (x : float) : option comparison :=
  match Prim2SF x with
  | S754_nan => None
  | S754_zero _ => Some (n ?= 0)
  | S754_infinity s => Some (if s then Gt else Lt)
  | S754_finite s m e =>
      let v := if s then Zneg m else Zpos m in
      if 0 <=? e then Some (n ?= Z.shiftl v e)
      else Some (Z.shiftl n (- e) ?= v)
  end.

#[global] Instance number : Number float := {
  lit := lit;
  float_of_int := float_of_int;
  add := PrimFloat.add;
  sub := PrimFloat.sub;
  mul := PrimFloat.mul;
  div := PrimFloat.div;
  absF := PrimFloat.abs;
  ltb := PrimFloat.ltb;
  eqb := PrimFloat.eqb;
  to_int := to_int;
  cmp_int := cmp_int
}.

End Binary64.


(* ------------------------------------------------------------------ *)
(** ** JSON fields read with [float(d.get(key, default))] *)

(** What [float(...)] sees in a JSON object under a key: nothing (the default
    is used), a number, or a value [float] raises on (null, a non-numeric
    string, a nested object). *)
Inductive jfloat (F : Type) : Type :=
| Absent
| Num (x : F)
| Junk.
Arguments Absent {F}.
Arguments Num {F} x.
Arguments Junk {F}.

(** [float(d.get(key, default))]: [None] when [float] raises. *)
Definition get_float {F} (field : jfloat F) (default : F) : option F :=
  match field with
  | Absent => Some default
  | Num x => Some x
  | Junk => None
  end.

(* ------------------------------------------------------------------ *)
(** ** PortfolioCalculator *)

Module PortfolioCalculator.
Section Calc.
Context {F : Type} `{Number F}.
Local Open Scope num_scope.

(** The futures account object ([accountEquity] is the only field read). *)
Record Account := { accountEquity : jfloat F }.

(** An element of the positions list, with the fields that are read. *)
Record Position := {
  symbol : string;
  currentQty : jfloat F;
  isInverse : bool;
  isOpen : bool;
  markPrice : jfloat F;
  avgEntryPrice : jfloat F;
  unrealisedPnl : jfloat F
}.

Record PositionDetail := {
  pd_symbol : string;
  pd_qty : F;
  pd_usd_value : F;
  pd_mark_price : F;
  pd_avg_entry_price : F;
  pd_unrealised_pnl : F
}.

Record Metrics := {
  cold_storage_btc : F;
  cold_storage_usd : F;
  futures_btc : F;
  futures_btc_usd : F;
  total_btc : F;
  total_portfolio_usd : F;
  btc_price : F;
  gross_btc_exposure_usd : F;
  net_btc_exposure_usd : F;
  usd_exposure : F;
  current_short_usd : F;
  current_btc_allocation : F;
  current_usd_allocation : F;
  target_btc_allocation : F;
  target_usd_allocation : F;
  allocation_deviation : F;
  target_btc_usd : F;
  target_usd_exposure : F;
  required_usd_adjustment : F;
  short_position_adjustment : F;
  contracts_to_adjust : Z;
  needs_rebalancing : bool;
  rebalance_threshold : F;
  positions : list PositionDetail;
  position_count : nat
}.

(** The loop over [positions]: accumulates [total_short_usd] and
    [position_details]; [None] when one of the [float(...)] calls raises. *)
Fixpoint scan_positions (price : F) (ps : list Position)
         (total_short_usd : F) (details : list PositionDetail)
  : option (F * list PositionDetail) :=
  match ps with
  | [] => Some (total_short_usd, details)
  | pos :: rest =>
      match get_float (currentQty pos) (lit 0),
            get_float (markPrice pos) price with
      | Some current_qty, Some mark_price =>
          if isInverse pos && (current_qty <? lit 0) then
            let short_usd_value := absF current_qty in
            match get_float (avgEntryPrice pos) (lit 0),
                  get_float (unrealisedPnl pos) (lit 0) with
            | Some avg, Some pnl =>
                scan_positions price rest
                  (total_short_usd + short_usd_value)
                  (details ++ [ {| pd_symbol := symbol pos;
                                   pd_qty := current_qty;
                                   pd_usd_value := short_usd_value;
                                   pd_mark_price := mark_price;
                                   pd_avg_entry_price := avg;
                                   pd_unrealised_pnl := pnl |} ])
            | _, _ => None
            end
          else scan_positions price rest total_short_usd details
      | _, _ => None
      end
  end.

(** [calculate_metrics]; [None] when the Python function raises
    ([float] of a bad field, [int] of nan or infinity). *)
Definition calculate_metrics (cold_storage_btc : F) (futures_account : Account)
           (positions : list Position) (btc_price target_allocation
            rebalance_threshold : F) : option Metrics :=
  match get_float (accountEquity futures_account) (lit 0) with
  | None => None
  | Some futures_btc =>
  match scan_positions btc_price positions (lit 0) [] with
  | None => None
  | Some (total_short_usd, position_details) =>
    let total_btc := cold_storage_btc + futures_btc in
    let cold_storage_usd := cold_storage_btc * btc_price in
    let futures_btc_usd := futures_btc * btc_price in
    let total_portfolio_usd := total_btc * btc_price in
    let gross_btc_exposure_usd := cold_storage_usd + futures_btc_usd in
    let net_btc_exposure_usd := gross_btc_exposure_usd - total_short_usd in
    let usd_exposure := total_short_usd in
    let '(current_btc_allocation, current_usd_allocation) :=
      if total_portfolio_usd >? lit 0 then
        ((net_btc_exposure_usd / total_portfolio_usd) * lit 100,
         (usd_exposure / total_portfolio_usd) * lit 100)
      else (lit 0, lit 0) in
    let target_btc_usd := total_portfolio_usd * (target_allocation / lit 100) in
    let target_usd_exposure :=
      total_portfolio_usd * ((lit 100 - target_allocation) / lit 100) in
    let allocation_deviation := current_btc_allocation - target_allocation in
    let required_usd_adjustment :=
      (allocation_deviation / lit 100) * total_portfolio_usd in
    let current_short_position_usd := total_short_usd in
    let target_short_position_usd := target_usd_exposure in
    let short_position_adjustment :=
      target_short_position_usd - current_short_position_usd in
    match to_int (absF short_position_adjustment) with
    | None => None
    | Some contracts_to_adjust =>
      let needs_rebalancing := absF allocation_deviation >? rebalance_threshold in
      Some {| cold_storage_btc := cold_storage_btc;
              cold_storage_usd := cold_storage_usd;
              futures_btc := futures_btc;
              futures_btc_usd := futures_btc_usd;
              total_btc := total_btc;
              total_portfolio_usd := total_portfolio_usd;
              btc_price := btc_price;
              gross_btc_exposure_usd := gross_btc_exposure_usd;
              net_btc_exposure_usd := net_btc_exposure_usd;
              usd_exposure := usd_exposure;
              current_short_usd := total_short_usd;
              current_btc_allocation := current_btc_allocation;
              current_usd_allocation := current_usd_allocation;
              target_btc_allocation := target_allocation;
              target_usd_allocation := lit 100 - target_allocation;
              allocation_deviation := allocation_deviation;
              target_btc_usd := target_btc_usd;
              target_usd_exposure := target_usd_exposure;
              required_usd_adjustment := required_usd_adjustment;
              short_position_adjustment := short_position_adjustment;
              contracts_to_adjust := contracts_to_adjust;
              needs_rebalancing := needs_rebalancing;
              rebalance_threshold := rebalance_threshold;
              positions := position_details;
              position_count := List.length position_details |}
    end
  end
  end.

End Calc.
Arguments Account F : clear implicits.
Arguments Position F : clear implicits.
Arguments PositionDetail F : clear implicits.
Arguments Metrics F : clear implicits.
End PortfolioCalculator.

(* ------------------------------------------------------------------ *)
(** ** Requests, replies and process state *)

Inductive Side := Buy | Sell.

Inductive Method := GET | POST | DELETE.

Module Wire.
Section Wire.
Context {F : Type}.

(** The JSON object posted to [/api/v1/orders].  [clientOid] is the index of
    the [uuid.uuid4()] draw it came from (draws are pairwise distinct);
    [price] is sent as [str(round(limit_price, 1))]. *)
Record OrderData := {
  clientOid : nat;
  side : Side;
  symbol : string;
  type : string;
  leverage : Z;
  size : Z;
  reduceOnly : bool;
  marginMode : string;
  price : option F;
  timeInForce : option string
}.

Inductive Body :=
| NoBody
| OrderBody (order_data : OrderData)
| PositionModeBody (symbol : string) (positionMode : Z).

Record Request := {
  method : Method;
  endpoint_path : string;
  body : Body
}.

(** [data] of a ticker reply. *)
Record Ticker := {
  bestBidPrice : jfloat F;
  bestAskPrice : jfloat F;
  last : jfloat F;        (* key 'price' *)
  ts : Z
}.

(** [data] of an order-detail reply. *)
Record OrderDetails := {
  status : string;
  dealSize : jfloat F;
  od_size : jfloat F      (* key 'size' *)
}.

(** The ['data'] member of a reply, by the shape the endpoint gives it.
    [NoData] is a reply without the member or with the empty object, which
    every caller reads alike; [PositionsData] is a JSON list; the other
    constructors are objects with at least one key.  A caller that expects an
    object reads an object of another shape as one without the expected keys,
    and raises on a list ([.get] on a list); a caller that expects a list
    raises on an object (it iterates over the keys, which are strings). *)
Inductive Payload :=
| NoData
| TickerData (t : Ticker)
| AccountData (a : PortfolioCalculator.Account F)
| PositionsData (ps : list (PortfolioCalculator.Position F))
| PositionModeData (positionMode : Z)
| OrderAck (orderId : string)
| OrderDetailsData (d : OrderDetails).

(** A decoded JSON reply: [code], optional [msg], [data]. *)
Record Json := {
  code : string;
  msg : option string;
  data : Payload
}.

(** What a request comes back with: the transport fails
    ([requests.exceptions.RequestException]), or an HTTP response arrives
    whose body may fail to decode ([None]). *)
Inductive Reply :=
| NetworkError (reason : string)
| Response (status_code : Z) (json : option Json).

End Wire.
Arguments OrderData F : clear implicits.
Arguments Body F : clear implicits.
Arguments Request F : clear implicits.
Arguments Ticker F : clear implicits.
Arguments OrderDetails F : clear implicits.
Arguments Payload F : clear implicits.
Arguments Json F : clear implicits.
Arguments Reply F : clear implicits.
End Wire.

(** Exceptions that the modelled code can raise and catch. *)
Inductive Exn :=
| RequestException (reason : string)   (* transport failure *)
| HTTPError (status_code : Z)          (* [raise_for_status] *)
| JSONDecodeError                      (* [response.json()] *)
| ConversionError.                     (* a value of the wrong kind: the
                                          ValueError, TypeError or
                                          OverflowError of [float(v)] and
                                          [int(x)], the AttributeError of
                                          [.get] on a list or a string *)

(** An error text: a literal or upstream message, or [str(e)]. *)
Inductive ErrorText :=
| Text (s : string)
| StrOf (e : Exn).

Inductive Action := OPEN_SHORT | CLOSE_SHORT.

Inductive Status := FILLED | PARTIAL | CANCELLED | TIMEOUT.

Module TradeLog.
Section TradeLog.
Context {F : Type}.

(** The [error] column of a ledger row. *)
Inductive Detail :=
| NoDetail
| GtcNoFill                       (* 'GTC timeout - no fill' *)
| FilledOf (filled total : F)     (* f'Filled {filled_size}/{total_size}' *)
| GtcNoStatus.                    (* 'GTC timeout - could not get order status' *)

(** One CSV row (the timestamp and the always blank [filled_price] left out). *)
Record Row := {
  action : Action;
  symbol : string;
  contracts : Z;
  limit_price : option F;
  order_id : string;
  slippage : option F;
  status : Status;
  error : Detail
}.
End TradeLog.
Arguments Detail F : clear implicits.
Arguments Row F : clear implicits.
End TradeLog.

(** A line of the error log that carries data: the report written when every
    endpoint variant failed. *)
Inductive LogEvent :=
| AllMethodsFailed (what : string) (last_error : option ErrorText).

(** Process state. *)
Record World (F : Type) := {
  clock : Z;                              (* [time.time()], in seconds *)
  requests : list (Wire.Request F);       (* HTTP requests issued, oldest first *)
  ledger : list (TradeLog.Row F);         (* rows appended to the CSV file *)
  log : list LogEvent;
  uuid_draws : nat                        (* number of [uuid.uuid4()] calls so far *)
}.
Arguments clock {F} w.
Arguments requests {F} w.
Arguments ledger {F} w.
Arguments log {F} w.
Arguments uuid_draws {F} w.

(** The exchange: given the requests seen so far and a new request, the
    seconds the call takes and what comes back. *)
Definition Exchange (F : Type) : Type :=
  list (Wire.Request F) -> Wire.Request F -> nat * Wire.Reply F.

(* ------------------------------------------------------------------ *)
(** ** State and exceptions *)

Inductive Outcome (A : Type) : Type :=
| Ret (a : A)          (* normal return *)
| Raise (e : Exn)      (* an exception propagates *)
| Diverge.             (* the recursion budget of the model ran out *)
Arguments Ret {A} a.
Arguments Raise {A} e.
Arguments Diverge {A}.

Definition M (F A : Type) : Type := World F -> Outcome A * World F.

Section Monad.
Context {F : Type}.

Definition ret {A} (a : A) : M F A := fun w => (Ret a, w).

Definition bind {A B} (m : M F A) (k : A -> M F B) : M F B :=
  fun w =>
    match m w with
    | (Ret a, w') => k a w'
    | (Raise e, w') => (Raise e, w')
    | (Diverge, w') => (Diverge, w')
    end.

Definition raise {A} (e : Exn) : M F A := fun w => (Raise e, w).

Definition diverge {A} : M F A := fun w => (Diverge, w).

(** [try: body  except Exception as e: handler e]. *)
Definition try_except {A} (body : M F A) (handler : Exn -> M F A) : M F A :=
  fun w =>
    match body w with
    | (Raise e, w') => handler e w'
    | r => r
    end.

(** A Python expression that may raise, as an option. *)
Definition eval {A} (e : Exn) (v : option A) : M F A :=
  match v with
  | Some a => ret a
  | None => raise e
  end.

Definition time : M F Z := fun w => (Ret (clock w), w).

Definition sleep (seconds : Z) : M F unit := fun w =>
  (Ret tt, {| clock := clock w + seconds; requests := requests w;
              ledger := ledger w; log := log w; uuid_draws := uuid_draws w |}).

Definition drawn (w : World F) : World F :=
  {| clock := clock w; requests := requests w; ledger := ledger w;
     log := log w; uuid_draws := S (uuid_draws w) |}.

Definition uuid4 : M F nat := fun w => (Ret (uuid_draws w), drawn w).

Definition add_log (w : World F) (ev : LogEvent) : World F :=
  {| clock := clock w; requests := requests w; ledger := ledger w;
     log := log w ++ [ev]; uuid_draws := uuid_draws w |}.

Definition logger_error (ev : LogEvent) : M F unit := fun w =>
  (Ret tt, add_log w ev).

Definition add_row (w : World F) (row : TradeLog.Row F) : World F :=
  {| clock := clock w; requests := requests w;
     ledger := ledger w ++ [row]; log := log w;
     uuid_draws := uuid_draws w |}.

Definition append_row (row : TradeLog.Row F) : M F unit := fun w =>
  (Ret tt, add_row w row).

(** A computation that lets no exception out, and one that always comes
    back. *)
Definition no_raise {A} (m : M F A) : Prop :=
  forall w e, fst (m w) <> Raise e.

Definition no_diverge {A} (m : M F A) : Prop :=
  forall w, fst (m w) <> Diverge.

End Monad.

Declare Scope monad_scope.
Delimit Scope monad_scope with monad.
Notation "x <- m ;; k" := (bind m (fun x => k))
  (at level 61, m at next level, right associativity) : monad_scope.
Notation "m ;; k" := (bind m (fun _ => k))
  (at level 61, right associativity) : monad_scope.

(* ------------------------------------------------------------------ *)
(** ** KuCoinFuturesClient *)

(** The authentication headers ([_get_headers]: HMAC-SHA256 signature over
    timestamp, method, path and body) do not influence control flow and are
    not part of a [Request]. *)
Module KuCoinFuturesClient.
Section Client.
Context {F : Type} `{Number F}.
Variable exchange : Exchange F.
Import PortfolioCalculator Wire.
Local Open Scope monad_scope.
Local Open Scope num_scope.

(** The world once request [r] has been answered: the request is on
    record and the time the call took has passed. *)
Definition after (w : World F) (r : Request F) : World F :=
  {| clock := (clock w + Z.of_nat (fst (exchange (requests w) r)))%Z;
     requests := requests w ++ [r];
     ledger := ledger w; log := log w;
     uuid_draws := uuid_draws w |}.

(** [self.session.get/post/delete(url, ...)]; a transport failure raises. *)
Definition send (m : Method) (path : string) (b : Body F)
  : M F (Z * option (Json F)) :=
  fun w =>
    let r := {| method := m; endpoint_path := path; body := b |} in
    match snd (exchange (requests w) r) with
    | NetworkError reason => (Raise (RequestException reason), after w r)
    | Response status_code json => (Ret (status_code, json), after w r)
    end.

(** [response.raise_for_status()]. *)
Definition raise_for_status (status_code : Z) : M F unit :=
  if ((400 <=? status_code) && (status_code <? 600))%Z
  then raise (HTTPError status_code) else ret tt.

(** [response.json()]. *)
Definition json (body : option (Json F)) : M F (Json F) :=
  eval JSONDecodeError body.

(** [data.get('msg', 'Unknown error')]. *)
Definition msg_or_unknown (data : Json F) : string :=
  match msg data with
  | Some m => m
  | None => "Unknown error"
  end.

(** *** get_best_bid_ask *)

Record Quote := {
  best_bid : F;
  best_ask : F;
  last_price : F;
  timestamp : Z
}.

(** [data.get('data', {})] of a ticker reply.  On a list the first field
    read raises, which is what reading a [Junk] field does. *)
Definition as_ticker (p : Payload F) : Ticker F :=
  match p with
  | TickerData t => t
  | PositionsData _ =>
      {| bestBidPrice := Junk; bestAskPrice := Junk; last := Junk; ts := 0 |}
  | _ => {| bestBidPrice := Absent; bestAskPrice := Absent;
            last := Absent; ts := 0 |}
  end.

(** Lines 379-395: bid and ask with the last-price fallback; [None] when a
    [float(...)] raises. *)
Definition read_quote (ticker_data : Ticker F) : option Quote :=
  match get_float (bestBidPrice ticker_data) (lit 0),
        get_float (bestAskPrice ticker_data) (lit 0),
        get_float (last ticker_data) (lit 0) with
  | Some best_bid, Some best_ask, Some last_price =>
      let '(best_bid, best_ask) :=
        if (best_bid =? lit 0) || (best_ask =? lit 0) then
          if last_price >? lit 0 then
            (if best_bid >? lit 0 then best_bid else last_price,
             if best_ask >? lit 0 then best_ask else last_price)
          else (best_bid, best_ask)
        else (best_bid, best_ask) in
      Some {| best_bid := best_bid; best_ask := best_ask;
              last_price := last_price; timestamp := ts ticker_data |}
  | _, _, _ => None
  end.

(** Returns the quote, or [None] for the empty dict of the error paths. *)
Definition get_best_bid_ask (symbol : string) : M F (option Quote) :=
  try_except
    (r <- send GET ("/api/v1/ticker?symbol=" ++ symbol) NoBody ;;
     raise_for_status (fst r) ;;
     data <- json (snd r) ;;
     if (code data =? "200000")%string then
       q <- eval ConversionError (read_quote (as_ticker (Wire.data data))) ;;
       ret (Some q)
     else ret None)
    (fun _ => ret None).

(** *** get_ticker_price *)

(** The last trade price, or [0.0] on every error path. *)
Definition get_ticker_price (symbol : string) : M F F :=
  try_except
    (r <- send GET ("/api/v1/ticker?symbol=" ++ symbol) NoBody ;;
     raise_for_status (fst r) ;;
     data <- json (snd r) ;;
     if (code data =? "200000")%string then
       eval ConversionError
            (get_float (last (as_ticker (Wire.data data))) (lit 0))
     else ret (lit 0))
    (fun _ => ret (lit 0)).

(** *** get_futures_account and get_positions *)

(** The body of the [for attempt_name, endpoint_path in attempts] loop, which
    the two functions share word for word but for what they return of a
    success reply ([extract], [None] when that raises): the fetched value, or
    the new [last_error]. *)
Definition attempt {A} (extract : Payload F -> option A)
           (attempt_name endpoint_path : string) : M F (A + ErrorText) :=
  try_except
    (r <- send GET endpoint_path NoBody ;;
     if (fst r =? 400)%Z then
       ret (inr (Text ("400 Bad Request with " ++ attempt_name)))
     else
       raise_for_status (fst r) ;;
       data <- json (snd r) ;;
       if (code data =? "200000")%string then
         result <- eval ConversionError (extract (Wire.data data)) ;;
         ret (inl result)
       else ret (inr (Text (msg_or_unknown data))))
    (fun e => ret (inr (StrOf e))).

(** The loop itself, and the report after it when every attempt failed. *)
Fixpoint try_attempts {A} (extract : Payload F -> option A) (what : string)
         (failure : A) (attempts : list (string * string))
         (last_error : option ErrorText) : M F A :=
  match attempts with
  | [] =>
      logger_error (AllMethodsFailed what last_error) ;;
      ret failure
  | (attempt_name, endpoint_path) :: rest =>
      r <- attempt extract attempt_name endpoint_path ;;
      match r with
      | inl result => ret result
      | inr e => try_attempts extract what failure rest (Some e)
      end
  end.

(** [return data.get('data', {})]: the member as it is.  A list has no
    [accountEquity] to read: [.get] on it raises, as reading [Junk] does. *)
Definition as_account (p : Payload F) : Account F :=
  match p with
  | AccountData a => a
  | PositionsData _ => {| accountEquity := Junk |}
  | _ => {| accountEquity := Absent |}
  end.

(** [[pos for pos in data.get('data', []) if pos.get('isOpen', False)]]:
    [None] on an object with keys, where [pos] is a key and [pos.get]
    raises. *)
Definition open_positions (p : Payload F) : option (list (Position F)) :=
  match p with
  | PositionsData ps => Some (filter (@isOpen F) ps)
  | NoData => Some []
  | _ => None
  end.

Definition account_attempts (currency : string) : list (string * string) :=
  [ ("without parameters", "/api/v1/account-overview");
    ("with currency=" ++ currency,
     "/api/v1/account-overview?currency=" ++ currency) ].

Definition positions_attempts (currency : string) : list (string * string) :=
  [ ("without parameters", "/api/v1/positions");
    ("with currency=" ++ currency,
     "/api/v1/positions?currency=" ++ currency) ].

(** The empty dict [{}] is the account without fields. *)
Definition get_futures_account (currency : string) : M F (Account F) :=
  try_attempts (fun p => Some (as_account p)) "ACCOUNT"
               {| accountEquity := Absent |} (account_attempts currency) None.

Definition get_positions (currency : string) : M F (list (Position F)) :=
  try_attempts open_positions "POSITIONS" []
               (positions_attempts currency) None.

(** *** Position mode *)

Definition as_position_mode (p : Payload F) : Z :=
  match p with
  | PositionModeData m => m
  | _ => -1
  end.

(** ['ONE_WAY'], ['HEDGE_MODE'], or [''] on any error. *)
Definition get_position_mode (symbol : string) : M F string :=
  try_except
    (r <- send GET ("/api/v2/position/getPositionMode?symbol=" ++ symbol) NoBody ;;
     raise_for_status (fst r) ;;
     data <- json (snd r) ;;
     if (code data =? "200000")%string then
       let position_mode_int := as_position_mode (Wire.data data) in
       if (position_mode_int =? 0)%Z then ret "ONE_WAY"
       else if (position_mode_int =? 1)%Z then ret "HEDGE_MODE"
       else ret ""
     else ret "")
    (fun _ => ret "").

Definition set_position_mode (symbol position_mode : string) : M F bool :=
  match (if (position_mode =? "ONE_WAY")%string then Some 0%Z
         else if (position_mode =? "HEDGE_MODE")%string then Some 1%Z
         else None) with
  | None => ret false
  | Some position_mode_int =>
      try_except
        (r <- send POST "/api/v2/position/changePositionMode"
                   (PositionModeBody symbol position_mode_int) ;;
         raise_for_status (fst r) ;;
         data <- json (snd r) ;;
         ret (code data =? "200000")%string)
        (fun _ => ret false)
  end.

(** *** Orders *)

(** [data.get('data', {})] of an order-detail reply; [None] is a value that
    the monitor's [if order_details:] takes as false, [{}] or [[]].  A list
    with elements passes that test and the first field read of it raises,
    which is what reading a [Junk] field does. *)
Definition as_order_details (p : Payload F) : option (OrderDetails F) :=
  match p with
  | NoData => None
  | OrderDetailsData d => Some d
  | PositionsData [] => None
  | PositionsData (_ :: _) =>
      Some {| status := ""; dealSize := Junk; od_size := Junk |}
  | _ => Some {| status := ""; dealSize := Absent; od_size := Absent |}
  end.

Definition get_order_details (order_id : string)
  : M F (option (OrderDetails F)) :=
  try_except
    (r <- send GET ("/api/v1/orders/" ++ order_id) NoBody ;;
     raise_for_status (fst r) ;;
     data <- json (snd r) ;;
     if (code data =? "200000")%string
     then ret (as_order_details (Wire.data data))
     else ret None)
    (fun _ => ret None).

Definition cancel_order (order_id : string) : M F bool :=
  try_except
    (r <- send DELETE ("/api/v1/orders/" ++ order_id) NoBody ;;
     raise_for_status (fst r) ;;
     data <- json (snd r) ;;
     ret (code data =? "200000")%string)
    (fun _ => ret false).

End Client.
Arguments Quote F : clear implicits.
End KuCoinFuturesClient.

(* ------------------------------------------------------------------ *)
(** ** TradeLogger *)

Module TradeLogger.
Section Logger.
Context {F : Type} `{Number F}.
Import TradeLog.

(** [log_trade]: nothing when logging is disabled, else one row appended.
    A limit price that is [None] or zero prints as the empty string. *)
Definition log_trade (enabled : bool) (action : Action) (symbol : string)
           (contracts : Z) (limit_price : option F) (order_id : string)
           (slippage : option F) (status : Status) (error : Detail F)
  : M F unit :=
  if negb enabled then ret tt
  else
    append_row
      {| TradeLog.action := action;
         TradeLog.symbol := symbol;
         TradeLog.contracts := contracts;
         TradeLog.limit_price :=
           match limit_price with
           | Some p => if truthy p then Some p else None
           | None => None
           end;
         TradeLog.order_id := order_id;
         TradeLog.slippage := slippage;
         TradeLog.status := status;
         TradeLog.error := error |}.

End Logger.
End TradeLogger.

(* ------------------------------------------------------------------ *)
(** ** OrderExecutor *)

Module OrderExecutor.

(** The attributes set by [__init__] (strings already case-normalised). *)
Record Config (F : Type) := {
  dry_run : bool;
  max_order_usd : F;
  min_order_usd : F;
  margin_mode : string;
  position_mode : string;
  auto_set_position_mode : bool;
  order_type : string;
  time_in_force : string;
  slippage_pct : F;
  gtc_timeout_seconds : Z;
  trade_logging_enabled : bool
}.
Arguments dry_run {F} c.
Arguments max_order_usd {F} c.
Arguments min_order_usd {F} c.
Arguments margin_mode {F} c.
Arguments position_mode {F} c.
Arguments auto_set_position_mode {F} c.
Arguments order_type {F} c.
Arguments time_in_force {F} c.
Arguments slippage_pct {F} c.
Arguments gtc_timeout_seconds {F} c.
Arguments trade_logging_enabled {F} c.

(** The identifier reported for an order: the exchange's, or
    ['DRY_RUN_' + client_oid[:8]]. *)
Inductive OrderId :=
| ExchangeId (orderId : string)
| DryRunId (client_oid : nat).

(** The dictionaries [place_order] and [monitor_gtc_order] return, one
    constructor per [return] shape. *)
Inductive Result (F : Type) :=
| Failure (error : ErrorText)
    (* {'success': False, 'error': ...} *)
| DryRunOrder (client_oid : nat) (order_type : string)
    (* {'success': True, 'dry_run': True, 'order_id': 'DRY_RUN_...', ...} *)
| Placed (order_id : string) (client_oid : nat) (order_type : string)
         (time_in_force : option string)
    (* {'success': True, 'order_id': ..., 'client_oid': ..., ...} *)
| GtcFilled (order_id : string) (filled_size : F)
    (* {'success': True, 'order_id': ..., 'filled_size': ...} *)
| GtcPartial (order_id : string) (filled_size : F).
    (* {'success': True, 'order_id': ..., 'partially_filled': True, ...} *)
Arguments Failure {F} error.
Arguments DryRunOrder {F} client_oid order_type.
Arguments Placed {F} order_id client_oid order_type time_in_force.
Arguments GtcFilled {F} order_id filled_size.
Arguments GtcPartial {F} order_id filled_size.

(** [result['success']], [result.get('order_id')], [result.get('error')],
    [result.get('partially_filled', False)]. *)
Definition success {F} (r : Result F) : bool :=
  match r with
  | Failure _ => false
  | _ => true
  end.

Definition order_id {F} (r : Result F) : option OrderId :=
  match r with
  | Failure _ => None
  | DryRunOrder client_oid _ => Some (DryRunId client_oid)
  | Placed order_id _ _ _ => Some (ExchangeId order_id)
  | GtcFilled order_id _ => Some (ExchangeId order_id)
  | GtcPartial order_id _ => Some (ExchangeId order_id)
  end.

Definition error {F} (r : Result F) : option ErrorText :=
  match r with
  | Failure e => Some e
  | _ => None
  end.

Definition partially_filled {F} (r : Result F) : bool :=
  match r with
  | GtcPartial _ _ => true
  | _ => false
  end.

Section Executor.
Context {F : Type} `{Number F}.
Variable exchange : Exchange F.
Variable self : Config F.
Import Wire KuCoinFuturesClient.
Local Open Scope monad_scope.
Local Open Scope num_scope.

Definition verify_position_mode (symbol : string) : M F bool :=
  current_mode <- get_position_mode exchange symbol ;;
  if (current_mode =? "")%string then ret false
  else if (current_mode =? position_mode self)%string then ret true
  else if auto_set_position_mode self
       then set_position_mode exchange symbol (position_mode self)
       else ret false.

Definition calculate_limit_price (symbol : string) (side : Side) : M F F :=
  ticker_data <- get_best_bid_ask exchange symbol ;;
  match ticker_data with
  | None => ret (lit 0)
  | Some q =>
      if (best_bid q =? lit 0) || (best_ask q =? lit 0) then ret (lit 0)
      else
        match side with
        | Buy => ret (best_ask q * (lit 1 + slippage_pct self / lit 100))
        | Sell => ret (best_bid q * (lit 1 - slippage_pct self / lit 100))
        end
  end.

(** [self.trade_logger.log_trade(...)] guarded by
    [if action and limit_price:]. *)
Definition trade_info (action : option Action) (limit_price : option F)
  : option (Action * F) :=
  match action, limit_price with
  | Some a, Some p => if truthy p then Some (a, p) else None
  | _, _ => None
  end.

Definition log_trade (action : Action) (symbol : string) (contracts : Z)
           (limit_price : option F) (order_id : string)
           (slippage : option F) (status : Status)
           (error : TradeLog.Detail F) : M F unit :=
  TradeLogger.log_trade (trade_logging_enabled self) action symbol contracts
                        limit_price order_id slippage status error.

(** [float(order_details.get('dealSize', 0))] and
    [float(order_details.get('size', contracts))]; [None] when [float]
    raises. *)
Definition filled_size_of (d : OrderDetails F) : option F :=
  get_float (dealSize d) (lit 0).

Definition total_size_of (d : OrderDetails F) (contracts : Z) : option F :=
  match od_size d with
  | Absent => float_of_int contracts
  | Num x => Some x
  | Junk => None
  end.

(** *** monitor_gtc_order *)

(** The method [self.place_order], as [monitor_gtc_order] calls it back. *)
Definition PlaceOrder : Type :=
  string -> Side -> Z -> Z -> bool -> M F (Result F).

(** Lines 891-965, the body of [if elapsed >= self.gtc_timeout_seconds:]. *)
Definition on_timeout (place_order : PlaceOrder) (order_id symbol : string)
           (side : Side) (contracts leverage : Z) (reduce_only : bool)
           (action : option Action) (limit_price : option F)
  : M F (Result F) :=
  order_details <- get_order_details exchange order_id ;;
  returned <-
    match order_details with
    | Some d =>
        filled_size <- eval ConversionError (filled_size_of d) ;;
        total_size <- eval ConversionError (total_size_of d contracts) ;;
        if filled_size <? total_size then
          cancel_success <- cancel_order exchange order_id ;;
          unfilled <- eval ConversionError (to_int (total_size - filled_size)) ;;
          match (if filled_size =? lit 0
                 then trade_info action limit_price else None) with
          | Some (a, p) =>
              log_trade a symbol (Z.abs contracts) (Some p) order_id
                        (Some (slippage_pct self)) CANCELLED TradeLog.GtcNoFill
          | None => ret tt
          end ;;
          if (0 <? unfilled)%Z then
            r <- place_order symbol side unfilled leverage reduce_only ;;
            ret (Some r)
          else
            match trade_info action limit_price with
            | Some (a, p) =>
                filled_contracts <- eval ConversionError (to_int filled_size) ;;
                log_trade a symbol filled_contracts (Some p) order_id
                          (Some (slippage_pct self)) PARTIAL
                          (TradeLog.FilledOf filled_size total_size)
            | None => ret tt
            end ;;
            ret (Some (GtcPartial order_id filled_size))
        else ret None
    | None => ret None
    end ;;
  match returned with
  | Some r => ret r
  | None =>
      match trade_info action limit_price with
      | Some (a, p) =>
          log_trade a symbol (Z.abs contracts) (Some p) order_id
                    (Some (slippage_pct self)) TIMEOUT TradeLog.GtcNoStatus
      | None => ret tt
      end ;;
      ret (Failure (Text "GTC order timeout"))
  end.

(** Lines 967-995, the status check of one pass; [None] when the pass falls
    through to [time.sleep]. *)
Definition check_status (order_id symbol : string) (contracts : Z)
           (action : option Action) (limit_price : option F)
  : M F (option (Result F)) :=
  order_details <- get_order_details exchange order_id ;;
  match order_details with
  | Some d =>
      filled_size <- eval ConversionError (filled_size_of d) ;;
      total_size <- eval ConversionError (total_size_of d contracts) ;;
      if (status d =? "done")%string then
        match trade_info action limit_price with
        | Some (a, p) =>
            log_trade a symbol (Z.abs contracts) (Some p) order_id
                      (Some (slippage_pct self)) FILLED TradeLog.NoDetail
        | None => ret tt
        end ;;
        ret (Some (GtcFilled order_id filled_size))
      else ret None
  | None => ret None
  end.

Definition check_interval : Z := 5.

(** The [while True:] loop.  [passes] bounds the number of passes; the
    budget [monitor_gtc_order] gives it is never used up
    ([monitor_loop_budget] below). *)
Fixpoint monitor_loop (place_order : PlaceOrder) (passes : nat)
         (start_time : Z) (order_id symbol : string) (side : Side)
         (contracts leverage : Z) (reduce_only : bool)
         (action : option Action) (limit_price : option F)
  : M F (Result F) :=
  match passes with
  | O => diverge
  | S passes' =>
      now <- time ;;
      let elapsed := (now - start_time)%Z in
      if (gtc_timeout_seconds self <=? elapsed)%Z then
        on_timeout place_order order_id symbol side contracts leverage
                   reduce_only action limit_price
      else
        r <- check_status order_id symbol contracts action limit_price ;;
        match r with
        | Some result => ret result
        | None =>
            sleep check_interval ;;
            monitor_loop place_order passes' start_time order_id symbol side
                         contracts leverage reduce_only action limit_price
        end
  end.

Definition passes_budget : nat := S (Z.to_nat (gtc_timeout_seconds self)).

Definition monitor_gtc_order (place_order : PlaceOrder)
           (order_id symbol : string) (side : Side) (contracts leverage : Z)
           (reduce_only : bool) (action : option Action)
           (limit_price : option F) : M F (Result F) :=
  start_time <- time ;;
  monitor_loop place_order passes_budget start_time order_id symbol side
               contracts leverage reduce_only action limit_price.

(** The world in which the remainder is resubmitted: the order detail has been
    read, the cancel has been sent, and the CANCELLED row has been written if
    nothing was filled and the trade is known. *)
Definition before_resubmission (order_id symbol : string) (contracts : Z)
           (action : option Action) (limit_price : option F) (filled : F)
           (w : World F) : World F :=
  let w1 := after exchange w ({| method := GET;
                     endpoint_path := "/api/v1/orders/" ++ order_id;
                     body := NoBody |}) in
  let w2 := after exchange w1
                  {| method := DELETE;
                     endpoint_path := "/api/v1/orders/" ++ order_id;
                     body := NoBody |} in
  match (if (filled =? lit 0)%num then trade_info action limit_price
         else None) with
  | Some (a, p) =>
      if trade_logging_enabled self then
        add_row w2 {| TradeLog.action := a;
                      TradeLog.symbol := symbol;
                      TradeLog.contracts := Z.abs contracts;
                      TradeLog.limit_price := Some p;
                      TradeLog.order_id := order_id;
                      TradeLog.slippage := Some (slippage_pct self);
                      TradeLog.status := CANCELLED;
                      TradeLog.error := TradeLog.GtcNoFill |}
      else w2
  | None => w2
  end.

(** *** place_order *)

(** [data.get('data', {}).get('orderId', '')]; [None] when [.get] raises
    (on a list). *)
Definition as_order_id (p : Payload F) : option string :=
  match p with
  | OrderAck orderId => Some orderId
  | PositionsData _ => None
  | _ => Some ""
  end.

(** ["OPEN SHORT" if side.lower() == 'sell' and not reduce_only
     else "CLOSE SHORT"], with the blank replaced as the ledger has it. *)
Definition action_of (side : Side) (reduce_only : bool) : Action :=
  match side with
  | Sell => if negb reduce_only then OPEN_SHORT else CLOSE_SHORT
  | Buy => CLOSE_SHORT
  end.

Definition is_gt (c : option comparison) : bool :=
  match c with Some Gt => true | _ => false end.

Definition is_lt (c : option comparison) : bool :=
  match c with Some Lt => true | _ => false end.

(** [fuel] bounds the depth of the resubmission recursion
    [place_order -> monitor_gtc_order -> place_order], which the source
    leaves unbounded; the first order needs none. *)
Fixpoint place_order (fuel : nat) (symbol : string) (side : Side)
         (contracts leverage : Z) (reduce_only : bool) : M F (Result F) :=
  let order_usd := Z.abs contracts in
  if is_gt (cmp_int order_usd (max_order_usd self)) then
    ret (Failure (Text "Order size exceeds maximum"))
  else if is_lt (cmp_int order_usd (min_order_usd self)) then
    ret (Failure (Text "Order size below minimum"))
  else
    mode_ok <- (if negb (dry_run self)
                then verify_position_mode symbol else ret true) ;;
    if negb mode_ok then ret (Failure (Text "Position mode mismatch"))
    else
      client_oid <- uuid4 ;;
      let order_type := order_type self in
      let time_in_force :=
        if (order_type =? "limit")%string && (slippage_pct self <? lit 0)
        then "GTC" else time_in_force self in
      limit_price <-
        (if (order_type =? "limit")%string
         then p <- calculate_limit_price symbol side ;; ret (Some p)
         else ret None) ;;
      let order_type :=
        match limit_price with
        | Some p => if p =? lit 0 then "market" else order_type
        | None => order_type
        end in
      let priced :=
        (order_type =? "limit")%string &&
        match limit_price with Some p => truthy p | None => false end in
      let order_data :=
        {| clientOid := client_oid;
           Wire.side := side;
           Wire.symbol := symbol;
           type := order_type;
           leverage := leverage;
           size := Z.abs contracts;
           reduceOnly := reduce_only;
           marginMode := margin_mode self;
           price := if priced then limit_price else None;
           timeInForce := if priced then Some time_in_force else None |} in
      if dry_run self then ret (DryRunOrder client_oid order_type)
      else
        try_except
          (r <- send exchange POST "/api/v1/orders" (OrderBody order_data) ;;
           raise_for_status (fst r) ;;
           data <- json (snd r) ;;
           if (code data =? "200000")%string then
             order_id <- eval ConversionError (as_order_id (Wire.data data)) ;;
             let action := action_of side reduce_only in
             if (order_type =? "limit")%string && (time_in_force =? "GTC")%string
             then
               monitor_gtc_order
                 (match fuel with
                  | O => fun _ _ _ _ _ => diverge
                  | S fuel' => place_order fuel'
                  end)
                 order_id symbol side contracts leverage reduce_only
                 (Some action) limit_price
             else
               log_trade action symbol (Z.abs contracts)
                         (if (order_type =? "limit")%string
                          then limit_price else None)
                         order_id
                         (if (order_type =? "limit")%string
                          then Some (slippage_pct self) else None)
                         FILLED TradeLog.NoDetail ;;
               ret (Placed order_id client_oid order_type
                           (if (order_type =? "limit")%string
                            then Some time_in_force else None))
           else ret (Failure (Text (msg_or_unknown data))))
          (fun e => ret (Failure (StrOf e))).

(** [open_short] and [close_short]. *)
Definition open_short (fuel : nat) (symbol : string) (contracts leverage : Z)
  : M F (Result F) :=
  place_order fuel symbol Sell contracts leverage false.

Definition close_short (fuel : nat) (symbol : string) (contracts : Z)
  : M F (Result F) :=
  place_order fuel symbol Buy contracts 1 true.

(** *** execute_rebalance *)

(** The dictionary [execute_rebalance] returns: the no-action success, or the
    order result with the keys ['action'], ['contracts'] and ['usd_value']
    added to it. *)
Inductive Rebalance : Type :=
| NoAction
| Rebalanced (result : Result F) (action : Action) (contracts : Z)
             (usd_value : F).

Definition execute_rebalance (fuel : nat) (metrics : PortfolioCalculator.Metrics F)
           (symbol : string) (leverage : Z) : M F Rebalance :=
  if negb (PortfolioCalculator.needs_rebalancing metrics) then ret NoAction
  else
    let contracts := PortfolioCalculator.contracts_to_adjust metrics in
    let usd_value :=
      absF (PortfolioCalculator.short_position_adjustment metrics) in
    if PortfolioCalculator.allocation_deviation metrics >? lit 0 then
      result <- open_short fuel symbol contracts leverage ;;
      ret (Rebalanced result OPEN_SHORT contracts usd_value)
    else
      result <- close_short fuel symbol contracts ;;
      ret (Rebalanced result CLOSE_SHORT contracts usd_value).

End Executor.
Arguments Rebalance F : clear implicits.
End OrderExecutor.

(* ------------------------------------------------------------------ *)
(** ** TradingBot *)

Module TradingBot.

(** The attributes of the bot that [execute_rebalance] reads.  [__init__]
    hands [max_order_usd], [min_order_usd] and the other order settings to the
    executor unchanged, so they are read from [executor]. *)
Record Bot (F : Type) := {
  auto_rebalance : bool;
  futures_symbol : string;
  leverage : Z;
  executor : OrderExecutor.Config F
}.
Arguments auto_rebalance {F} b.
Arguments futures_symbol {F} b.
Arguments leverage {F} b.
Arguments executor {F} b.

Section Bot.
Context {F : Type} `{Number F}.
Variable exchange : Exchange F.
Variable self : Bot F.
Local Open Scope monad_scope.
Local Open Scope num_scope.

(** [TradingBot.execute_rebalance]: [True] when an order was executed. *)
Definition execute_rebalance (fuel : nat)
           (metrics : PortfolioCalculator.Metrics F) : M F bool :=
  if negb (PortfolioCalculator.needs_rebalancing metrics) then ret false
  else if negb (auto_rebalance self) then ret false
  else
    let contracts := PortfolioCalculator.contracts_to_adjust metrics in
    let adjustment_usd :=
      absF (PortfolioCalculator.short_position_adjustment metrics) in
    if adjustment_usd >? OrderExecutor.max_order_usd (executor self)
    then ret false
    else if adjustment_usd <? OrderExecutor.min_order_usd (executor self)
    then ret false
    else
      result <-
        (if PortfolioCalculator.allocation_deviation metrics >? lit 0
         then OrderExecutor.open_short exchange (executor self) fuel
                                       (futures_symbol self) contracts
                                       (leverage self)
         else OrderExecutor.close_short exchange (executor self) fuel
                                        (futures_symbol self) contracts) ;;
      ret (OrderExecutor.success result).

End Bot.
End TradingBot.

(* ------------------------------------------------------------------ *)
(** ** LogLevelFilter *)

Module LogLevelFilter.

(** [needle in haystack] for strings. *)
Fixpoint contains (needle haystack : string) : bool :=
  String.prefix needle haystack
  || match haystack with
     | EmptyString => false
     | String _ rest => contains needle rest
     end.

(** [self.level_hierarchy]. *)
Definition level_hierarchy : list (string * list string) :=
  [ ("ERROR", ["ERROR"; "CRITICAL"]);
    ("WARNING", ["ERROR"; "CRITICAL"; "WARNING"]);
    ("TRADE", ["ERROR"; "CRITICAL"; "WARNING"; "TRADE"; "STARTUP"; "SHUTDOWN"]);
    ("INFO", ["ERROR"; "CRITICAL"; "WARNING"; "INFO"; "TRADE"; "STARTUP";
              "SHUTDOWN"; "DEBUG"]) ].

(** [self.level_hierarchy.get(self.log_level, [])]. *)
Fixpoint lookup (log_level : string) (table : list (string * list string))
  : list string :=
  match table with
  | [] => []
  | (k, v) :: rest => if (k =? log_level)%string then v else lookup log_level rest
  end.

(** [name in self.level_hierarchy.get(self.log_level, [])]. *)
Definition allows (log_level name : string) : bool :=
  existsb (String.eqb name) (lookup log_level level_hierarchy).

(** [logging.ERROR]. *)
Definition ERROR : Z := 40.

(** [filter(record)], for a record with level number [levelno] and message
    [msg], under the (upper-cased) configured [log_level]. *)
Definition filter (log_level : string) (levelno : Z) (msg : string) : bool :=
  if (ERROR <=? levelno)%Z then true
  else if contains "[ERROR]" msg then allows log_level "ERROR"
  else if contains "[WARNING]" msg then allows log_level "WARNING"
  else if contains "[TRADE]" msg || contains "[GTC] Order fully filled" msg
  then allows log_level "TRADE"
  else if contains "[OK] Bot started" msg || contains "[OK] Bot stopped" msg
          || contains "[OK] Time sync" msg
          || contains "[OK] Trading Bot initialized" msg
  then allows log_level "STARTUP"
  else if contains "[OK] Successfully fetched" msg
          || contains "[GTC] Status:" msg || contains "Position mode" msg
          || contains "Limit price calculation" msg
          || contains "Best Bid" msg || contains "Best Ask" msg
  then allows log_level "INFO"
  else (log_level =? "INFO")%string.

End LogLevelFilter.


(* ------------------------------------------------------------------ *)
(** ** Binary64 numbers as rationals *)

Section Reals.
Local Open Scope Q_scope.

(** The exponent of the last place of a binary64 number of magnitude
    [2^e]. *)
Definition fexp64 (e : Z) : Z := Z.max (e - 53) (-1074).

Definition pow2 (e : Z) : Q := 2 ^ e.

(** [m * 2^e]. *)
Definition scaled (m e : Z) : Q := inject_Z m * pow2 e.

(** [x] lies in the cell of [m] at exponent [e]. *)
Definition Bracket (m e : Z) (x : Q) : Prop :=
  scaled m e <= x /\ x < scaled (m + 1) e.

Definition eps0 : Q := pow2 (-52).
Definition eta0 : Q := pow2 (-1074).

(** The magnitude of a result of sign [sx]: zero, or finite. *)
Definition magnitude_of (sx : bool) (r : spec_float) (R : Q) : Prop :=
  (r = S754_zero sx /\ R == 0)
  \/ (exists m e, r = S754_finite sx m e /\ R == scaled (Zpos m) e).

Definition signed (s : bool) (q : Q) : Q := if s then - q else q.

(** The rational number that a floating-point number stands for; [None] for
    nan and the infinities. *)
Definition value_of (x : spec_float) : option Q :=
  match x with
  | S754_zero _ => Some 0
  | S754_finite s m e => Some (signed s (scaled (Zpos m) e))
  | S754_infinity _ | S754_nan => None
  end.

Definition value (x : float) : option Q := value_of (Prim2SF x).

(** [v] is [x] up to the relative error [2^-50] and the absolute error
    [2^-1072]. *)
Definition near (x v : Q) : Prop :=
  Qabs (v - x) <= pow2 (-50) * Qabs x + pow2 (-1072).

(** One part in [10^15]: a bound on the relative rounding error. *)
Definition roundoff : Q := 1 # 1000000000000000.

(** The absolute error of a result in the subnormal range. *)
Definition underflow : Q := pow2 (-1072).

End Reals.

(* ------------------------------------------------------------------ *)
(** ** What a run leaves on record *)

Module Observations.
Section Observations.
Context {F : Type} `{Number F}.
Import Wire OrderExecutor.

(** The orders submitted so far, oldest first: the bodies of the requests to
    [/api/v1/orders]. *)
Definition orders (w : World F) : list (OrderData F) :=
  flat_map (fun r => match body r with
                     | OrderBody order_data => [order_data]
                     | _ => []
                     end)
           (requests w).

(** An order carries the terms of the [place_order] call it came from. *)
Definition order_terms (self : Config F) (symbol : string) (side : Side)
           (leverage : Z) (reduce_only : bool) (o : OrderData F) : Prop :=
  Wire.symbol o = symbol /\ Wire.side o = side /\ Wire.leverage o = leverage
  /\ reduceOnly o = reduce_only /\ marginMode o = margin_mode self.

(** Its size passes the executor's size check. *)
Definition order_sized (self : Config F) (o : OrderData F) : Prop :=
  is_gt (cmp_int (size o) (max_order_usd self)) = false
  /\ is_lt (cmp_int (size o) (min_order_usd self)) = false.

(** A limit order carries a price, formed from a limit price that is not
    zero, and a time in force, which is GTC when the configured slippage is
    negative; any other order carries neither. *)
Definition order_priced (self : Config F) (o : OrderData F) : Prop :=
  ((type o =? "limit")%string = true
   /\ (exists p, price o = Some p /\ truthy p = true)
   /\ timeInForce o
      = Some (if ltb (slippage_pct self) (lit 0) then "GTC"
              else time_in_force self))
  \/ ((type o =? "limit")%string = false
      /\ price o = None /\ timeInForce o = None).

(** A ledger row names the symbol and the action of the call. *)
Definition row_of_call (symbol : string) (side : Side) (reduce_only : bool)
           (row : TradeLog.Row F) : Prop :=
  TradeLog.symbol row = symbol
  /\ TradeLog.action row = action_of side reduce_only.

(** What happened between two worlds of one [place_order] call: orders were
    appended, each with the call's terms, a size within the limits, the
    pricing fields of its type and an identifier drawn in between, no
    identifier twice; rows were appended to the ledger, each naming the call,
    and none when trade logging is disabled. *)
Record Run (self : Config F) (symbol : string) (side : Side) (leverage : Z)
       (reduce_only : bool) (w w' : World F) : Prop := {
  run_orders :
    exists os,
      orders w' = (orders w ++ os)%list
      /\ Forall (fun o => order_terms self symbol side leverage reduce_only o
                          /\ order_sized self o
                          /\ order_priced self o
                          /\ (uuid_draws w <= clientOid o < uuid_draws w')%nat)
                os
      /\ NoDup (map clientOid os);
  run_ledger :
    exists rows,
      ledger w' = (ledger w ++ rows)%list
      /\ Forall (row_of_call symbol side reduce_only) rows
      /\ (trade_logging_enabled self = false -> rows = []);
  run_uuid : (uuid_draws w <= uuid_draws w')%nat
}.

(** A computation every run of which is of this kind. *)
Definition keeps (self : Config F) (symbol : string) (side : Side)
           (leverage : Z) (reduce_only : bool) {A} (m : M F A) : Prop :=
  forall w, Run self symbol side leverage reduce_only w (snd (m w)).

(** A position counts toward the short exposure when it is inverse and its
    quantity is negative. *)
Definition counted (pos : PortfolioCalculator.Position F) : bool :=
  PortfolioCalculator.isInverse pos
  && match get_float (PortfolioCalculator.currentQty pos) (lit 0) with
     | Some current_qty => ltb current_qty (lit 0)
     | None => false
     end.

End Observations.
End Observations.
(* ------------------------------------------------------------------ *)
(** ** The endpoint fallback, following the specification's words *)

(** "Each tries an ordered sequence of endpoint-path variants (parameterless
    form first, then a legacy currency-qualified form).  An HTTP 400 or a
    non-success API code is treated as try next variant, not as fatal; only
    exhausting all variants is a failure, reported with the last encountered
    error message preserved verbatim."  The relations below say what a reply
    to one variant means and what a run over two variants must look like;
    [get_futures_account] and [get_positions] are compared with them. *)
Module FallbackSpec.
Section FallbackSpec.
Context {F : Type}.
Import Wire.

Definition get (path : string) : Request F :=
  {| method := GET; endpoint_path := path; body := NoBody |}.

(** The reply answers the variant: no HTTP error status, a body that decodes,
    the success code.  What it carries is its ['data'] member. *)
Inductive Answers : Reply F -> Payload F -> Prop :=
| answers (status_code : Z) (j : Json F) :
    ((400 <=? status_code) && (status_code <? 600)) = false ->
    code j = "200000" ->
    Answers (Response status_code (Some j)) (data j).

(** The reply sends the caller to the next variant, with the error text that
    is remembered as the last error: the upstream message as it came for a
    non-success code, a fixed text naming the variant for HTTP 400, the text
    of the exception otherwise. *)
Inductive TriesNext (attempt_name : string) : Reply F -> ErrorText -> Prop :=
| next_bad_request (json : option (Json F)) :
    TriesNext attempt_name (Response 400 json)
              (Text ("400 Bad Request with " ++ attempt_name))
| next_error_code (status_code : Z) (j : Json F) (m : string) :
    ((400 <=? status_code) && (status_code <? 600)) = false ->
    code j <> "200000" ->
    msg j = Some m ->
    TriesNext attempt_name (Response status_code (Some j)) (Text m)
| next_error_code_without_message (status_code : Z) (j : Json F) :
    ((400 <=? status_code) && (status_code <? 600)) = false ->
    code j <> "200000" ->
    msg j = None ->
    TriesNext attempt_name (Response status_code (Some j))
              (Text "Unknown error")
| next_http_error (status_code : Z) (json : option (Json F)) :
    ((400 <=? status_code) && (status_code <? 600)) = true ->
    status_code <> 400 ->
    TriesNext attempt_name (Response status_code json)
              (StrOf (HTTPError status_code))
| next_undecodable (status_code : Z) :
    ((400 <=? status_code) && (status_code <? 600)) = false ->
    TriesNext attempt_name (Response status_code None) (StrOf JSONDecodeError)
| next_transport_failure (reason : string) :
    TriesNext attempt_name (NetworkError reason)
              (StrOf (RequestException reason)).

Section Variants.
Variable exchange : Exchange F.
Context {A : Type}.

(** What the operation makes of the data of a reply that answers; [None]
    when the data has a shape it cannot read. *)
Variable extract : Payload F -> option A.

Definition Fetched (reply : Reply F) (a : A) : Prop :=
  exists p, Answers reply p /\ extract p = Some a.

Definition Failed (attempt_name : string) (reply : Reply F) (e : ErrorText)
  : Prop :=
  TriesNext attempt_name reply e
  \/ exists p, Answers reply p /\ extract p = None
               /\ e = StrOf ConversionError.


End Variants.
End FallbackSpec.
End FallbackSpec.

(* ------------------------------------------------------------------ *)
(** ** Concrete inputs (binary64) *)

Module Scenario.
Import PortfolioCalculator Wire KuCoinFuturesClient OrderExecutor.

Definition start : World float :=
  {| clock := 0; requests := []; ledger := []; log := []; uuid_draws := 0 |}.

(** A reply with the success code, and one with an error code, each after
    one second. *)
Definition accepted (p : Payload float) : nat * Reply float :=
  (1%nat, Response 200 (Some {| code := "200000"; msg := None; data := p |})).

Definition refused (m : string) : nat * Reply float :=
  (1%nat, Response 200 (Some {| code := "400100"; msg := Some m;
                                 data := NoData |})).

(** A live executor: limit orders priced half a percent on the passive side
    (so they rest as GTC), monitored for ten seconds. *)
Definition live : Config float :=
  {| dry_run := false;
     max_order_usd := 10000%float;
     min_order_usd := 100%float;
     margin_mode := "ISOLATED";
     position_mode := "ONE_WAY";
     auto_set_position_mode := false;
     order_type := "limit";
     time_in_force := "IOC";
     slippage_pct := (-0.5)%float;
     gtc_timeout_seconds := 10;
     trade_logging_enabled := true |}.


Definition simulated : Config float :=
  {| dry_run := true;
     max_order_usd := 10000%float;
     min_order_usd := 100%float;
     margin_mode := "ISOLATED";
     position_mode := "ONE_WAY";
     auto_set_position_mode := false;
     order_type := "limit";
     time_in_force := "IOC";
     slippage_pct := 0.5%float;
     gtc_timeout_seconds := 10;
     trade_logging_enabled := true |}.

Definition book : Ticker float :=
  {| bestBidPrice := Num 50000%float; bestAskPrice := Num 50010%float;
     last := Num 50005%float; ts := 0 |}.

Definition is_submission (r : Request float) : bool :=
  match body r with
  | OrderBody _ => true
  | _ => false
  end.

(** An exchange in one-way mode on which the first order (identifier "A",
    1000 contracts) rests with [filled] contracts dealt for as long as it is
    watched, and the order after it (identifier "B") is done at once.
    Cancelling works or times out, as [cancel_ok] says. *)
Definition resting_order (filled : float) (cancel_ok : bool) : Exchange float :=
  fun history r =>
    match method r with
    | POST =>
        accepted (OrderAck (if existsb is_submission history then "B" else "A"))
    | DELETE =>
        if cancel_ok then accepted NoData
        else (1%nat, NetworkError "Read timed out")
    | GET =>
        if (endpoint_path r
            =? "/api/v2/position/getPositionMode?symbol=XBTUSDM")%string
        then accepted (PositionModeData 0)
        else if (endpoint_path r =? "/api/v1/ticker?symbol=XBTUSDM")%string
        then accepted (TickerData book)
        else if (endpoint_path r =? "/api/v1/orders/A")%string
        then accepted (OrderDetailsData
                         {| status := "open"; dealSize := Num filled;
                            od_size := Num 1000%float |})
        else if (endpoint_path r =? "/api/v1/orders/B")%string
        then accepted (OrderDetailsData
                         {| status := "done";
                            dealSize := Num (1000 - filled)%float;
                            od_size := Num (1000 - filled)%float |})
        else (1%nat, Response 404 None)
    end.

(** An exchange whose ticker has no bid: bid 0, ask 50000, last 48000. *)
Definition one_sided_book : Exchange float :=
  fun _ _ =>
    accepted (TickerData {| bestBidPrice := Num 0%float;
                            bestAskPrice := Num 50000%float;
                            last := Num 48000%float; ts := 0 |}).

(** An exchange that answers the parameterless account path with HTTP 400 and
    the currency-qualified one with an error code and message. *)
Definition no_account : Exchange float :=
  fun _ r =>
    if (endpoint_path r =? "/api/v1/account-overview")%string
    then (1%nat, Response 400 None)
    else refused "Invalid currency".

(** What a run left behind, in short: ledger rows as status, contracts and
    order identifier; requests as method, path and, for a submission, the
    uuid draw and size. *)
Definition rows (w : World float) : list (Status * Z * string) :=
  map (fun r => (TradeLog.status r, TradeLog.contracts r, TradeLog.order_id r))
      (ledger w).

Definition wire (w : World float)
  : list (Method * string * option (nat * Z)) :=
  map (fun r => (method r, endpoint_path r,
                 match body r with
                 | OrderBody o => Some (clientOid o, size o)
                 | _ => None
                 end))
      (requests w).

(** One inverse short position of [q] contracts. *)
Definition short (q : float) : Position float :=
  {| PortfolioCalculator.symbol := "XBTUSDM"; currentQty := Num (- q)%float;
     isInverse := true; isOpen := true; markPrice := Absent;
     avgEntryPrice := Absent; unrealisedPnl := Absent |}.

(** [|x - y| <= 1e-9], the tolerance of the allocation identity. *)
Definition within_tolerance (x y : float) : bool :=
  PrimFloat.leb (PrimFloat.abs (x - y)) (1 / 1000000000)%float.

End Scenario.
(* ------------------------------------------------------------------ *)
(** ** Further concrete inputs *)

Module Cases.
Import PortfolioCalculator Wire KuCoinFuturesClient OrderExecutor Scenario.

(** The live executor of [Scenario], configured for hedge mode. *)
Definition hedged : Config float :=
  {| dry_run := false;
     max_order_usd := 10000%float;
     min_order_usd := 100%float;
     margin_mode := "ISOLATED";
     position_mode := "HEDGE_MODE";
     auto_set_position_mode := false;
     order_type := "limit";
     time_in_force := "IOC";
     slippage_pct := (-0.5)%float;
     gtc_timeout_seconds := 10;
     trade_logging_enabled := true |}.

(** An exchange in one-way mode whose ticker endpoint answers 404; it accepts
    every order as "A". *)
Definition no_quote : Exchange float :=
  fun _ r =>
    match method r with
    | POST => accepted (OrderAck "A")
    | DELETE => accepted NoData
    | GET =>
        if (endpoint_path r
            =? "/api/v2/position/getPositionMode?symbol=XBTUSDM")%string
        then accepted (PositionModeData 0)
        else (1%nat, Response 404 None)
    end.

(** A long inverse position of [q] contracts. *)
Definition long (q : float) : Position float :=
  {| PortfolioCalculator.symbol := "XBTUSDM"; currentQty := Num q;
     isInverse := true; isOpen := true; markPrice := Absent;
     avgEntryPrice := Absent; unrealisedPnl := Absent |}.



(** A callback that refuses every resubmission. *)
Definition refuse_all : PlaceOrder (F := float) :=
  fun _ _ _ _ _ => ret (Failure (Text "Order size below minimum")).

End Cases.
(* ================================================================== *)
(** * Properties *)

Import PortfolioCalculator Wire KuCoinFuturesClient OrderExecutor.

(** ** Number instances satisfy the order law *)

Lemma binary64_zero_not_positive (x : float) :
  PrimFloat.eqb x (Binary64.lit 0) = true ->
  PrimFloat.ltb (Binary64.lit 0) x = false.
Proof.
  rewrite FloatAxioms.eqb_spec, FloatAxioms.ltb_spec.
  change (Prim2SF (Binary64.lit 0)) with (S754_zero false).
  destruct (Prim2SF x) as [s | s | | s m e]; cbn; try reflexivity;
    destruct s; intro Hx; try discriminate Hx; reflexivity.
Qed.

#[global] Instance binary64_laws : NumberLaws float.
Proof. constructor. exact binary64_zero_not_positive. Qed.


(** ** PortfolioCalculator.calculate_metrics *)

Section CalculatorProperties.
Context {F : Type} `{NumberLaws F}.
Local Open Scope num_scope.

(** The allocations and the decision that [calculate_metrics] returns, as
    functions of the portfolio totals. *)
Lemma calculate_metrics_allocations
      (cold : F) (account : Account F) (ps : list (Position F))
      (price target threshold : F) (m : Metrics F) :
  calculate_metrics cold account ps price target threshold = Some m ->
  (current_btc_allocation m, current_usd_allocation m) =
    (if total_portfolio_usd m >? lit 0
     then ((net_btc_exposure_usd m / total_portfolio_usd m) * lit 100,
           (usd_exposure m / total_portfolio_usd m) * lit 100)
     else (lit 0, lit 0))
  /\ allocation_deviation m = current_btc_allocation m - target
  /\ needs_rebalancing m = (absF (allocation_deviation m) >? threshold)
  /\ net_btc_exposure_usd m = gross_btc_exposure_usd m - usd_exposure m
  /\ gross_btc_exposure_usd m = cold * price + futures_btc m * price
  /\ total_portfolio_usd m = (cold + futures_btc m) * price.
Proof.
  unfold calculate_metrics.
  destruct (get_float (accountEquity account) (lit 0)) as [fut|]; [|discriminate].
  destruct (scan_positions price ps (lit 0) []) as [[short details]|]; [|discriminate].
  destruct (((cold + fut) * price) >? lit 0) eqn:Hpos;
    match goal with
    | |- context [to_int ?x] => destruct (to_int x) as [c|]; [|discriminate]
    end;
    intro Hm; injection Hm as <-; cbn; rewrite Hpos; repeat split.
Qed.

(** C3 (as amended).  When the total portfolio value is zero, both current
    allocations are 0, the deviation is [0 - target_allocation], and
    [needs_rebalancing] is true exactly when [|0 - target_allocation|]
    exceeds the threshold: it is not forced to false. *)
Theorem zero_portfolio_allocations
        (cold : F) (account : Account F) (ps : list (Position F))
        (price target threshold : F) (m : Metrics F) :
  calculate_metrics cold account ps price target threshold = Some m ->
  (total_portfolio_usd m =? lit 0) = true ->
  current_btc_allocation m = lit 0
  /\ current_usd_allocation m = lit 0
  /\ allocation_deviation m = lit 0 - target
  /\ needs_rebalancing m = (absF (lit 0 - target) >? threshold).
Proof.
  intros Hm Hzero.
  destruct (calculate_metrics_allocations _ _ _ _ _ _ _ Hm)
    as (Halloc & Hdev & Hneeds & _).
  unfold gtb in Halloc. rewrite (zero_not_positive _ Hzero) in Halloc.
  injection Halloc as Hb Hu.
  rewrite Hneeds, Hdev, Hb. auto.
Qed.

End CalculatorProperties.

(** ** The request client *)

Section ClientProperties.
Context {F : Type} `{NumberLaws F}.
Variable exchange : Exchange F.
Local Open Scope monad_scope.

(** Unfolds the monadic plumbing of a single-request operation and splits on
    the reply. *)
Ltac one_request :=
  unfold try_except, bind, send, raise_for_status, json, eval, ret, raise;
  intros;
  repeat match goal with
         | |- context [match snd (exchange ?h ?r) with _ => _ end] =>
             destruct (snd (exchange h r)) as [? | ? [?|]]; cbn
         | |- context [if ?b then _ else _] => destruct b; cbn
         | |- context [match ?o with Some _ => _ | None => _ end] =>
             destruct o; cbn
         end;
  eexists; reflexivity.

Lemma get_best_bid_ask_returns (symbol : string) (w : World F) :
  exists q, get_best_bid_ask exchange symbol w
            = (Ret q, after exchange w
                 (FallbackSpec.get ("/api/v1/ticker?symbol=" ++ symbol))).
Proof. unfold get_best_bid_ask, FallbackSpec.get. one_request. Qed.

Lemma get_position_mode_returns (symbol : string) (w : World F) :
  exists mode, get_position_mode exchange symbol w
            = (Ret mode, after exchange w
                 (FallbackSpec.get
                    ("/api/v2/position/getPositionMode?symbol=" ++ symbol))).
Proof. unfold get_position_mode, FallbackSpec.get. one_request. Qed.

Lemma get_order_details_returns (order_id : string) (w : World F) :
  exists d, get_order_details exchange order_id w
            = (Ret d, after exchange w
                 (FallbackSpec.get ("/api/v1/orders/" ++ order_id))).
Proof. unfold get_order_details, FallbackSpec.get. one_request. Qed.

Lemma cancel_order_returns (order_id : string) (w : World F) :
  exists b, cancel_order exchange order_id w
            = (Ret b, after exchange w
                 {| method := DELETE;
                    endpoint_path := "/api/v1/orders/" ++ order_id;
                    body := NoBody |}).
Proof. unfold cancel_order. one_request. Qed.

(** C4 (as amended).  When the ticker is read successfully, one of bid and
    ask is zero and the last price is positive, each side that is not
    strictly positive becomes the last price and a side that is positive is
    kept; both equal the last price when both were zero. *)
Theorem quote_fallback_replaces_only_missing_sides
        (symbol : string) (w : World F) (status_code : Z) (j : Json F)
        (t : Ticker F) (bid ask last_trade : F) :
  let r := FallbackSpec.get ("/api/v1/ticker?symbol=" ++ symbol) in
  snd (exchange (requests w) r) = Response status_code (Some j) ->
  ((400 <=? status_code) && (status_code <? 600))%Z = false ->
  code j = "200000" ->
  data j = TickerData t ->
  get_float (bestBidPrice t) (lit 0) = Some bid ->
  get_float (bestAskPrice t) (lit 0) = Some ask ->
  get_float (last t) (lit 0) = Some last_trade ->
  ((bid =? lit 0) || (ask =? lit 0))%num = true ->
  (last_trade >? lit 0)%num = true ->
  exists q,
    get_best_bid_ask exchange symbol w = (Ret (Some q), after exchange w r)
    /\ best_bid q = (if (bid >? lit 0)%num then bid else last_trade)
    /\ best_ask q = (if (ask >? lit 0)%num then ask else last_trade)
    /\ last_price q = last_trade
    /\ ((bid =? lit 0)%num = true -> (ask =? lit 0)%num = true ->
        best_bid q = last_trade /\ best_ask q = last_trade).
Proof.
  intros r Hreply Hstatus Hcode Hdata Hbid Hask Hlast Hzero Hpos.
  subst r. unfold FallbackSpec.get in *.
  unfold get_best_bid_ask, try_except, bind, send, raise_for_status, json,
    eval, ret, raise.
  rewrite Hreply. cbn. rewrite Hstatus. cbn.
  rewrite Hcode, Hdata. cbn. unfold read_quote.
  rewrite Hbid, Hask, Hlast, Hzero, Hpos.
  eexists. split; [reflexivity|]. cbn.
  split; [reflexivity|]. split; [reflexivity|]. split; [reflexivity|].
  intros Hb Ha. unfold gtb.
  rewrite (zero_not_positive _ Hb), (zero_not_positive _ Ha). auto.
Qed.

(** *** Endpoint fallback *)

Section Attempts.
Context {A : Type}.
Variable extract : Payload F -> option A.

Lemma passing_status_is_not_400 (status_code : Z) :
  ((400 <=? status_code) && (status_code <? 600))%Z = false ->
  (status_code =? 400)%Z = false.
Proof.
  intros Hpass. destruct (Z.eqb_spec status_code 400) as [-> | Hne];
    [discriminate Hpass | reflexivity].
Qed.

Lemma attempt_fetched (attempt_name endpoint_path : string) (w : World F)
      (a : A) :
  FallbackSpec.Fetched extract
    (snd (exchange (requests w) (FallbackSpec.get endpoint_path))) a ->
  attempt exchange extract attempt_name endpoint_path w
  = (Ret (inl a), after exchange w (FallbackSpec.get endpoint_path)).
Proof.
  intros (p & Hanswers & Hextract).
  unfold attempt, FallbackSpec.get in *.
  unfold try_except, bind, send, raise_for_status, json, eval, ret, raise.
  inversion Hanswers as [status_code j Hpass Hcode Hreply Hp]. subst p.
  cbn. rewrite (passing_status_is_not_400 _ Hpass), Hpass. cbn.
  rewrite Hcode, Hextract. reflexivity.
Qed.

Lemma attempt_failed (attempt_name endpoint_path : string) (w : World F)
      (e : ErrorText) :
  FallbackSpec.Failed extract attempt_name
    (snd (exchange (requests w) (FallbackSpec.get endpoint_path))) e ->
  attempt exchange extract attempt_name endpoint_path w
  = (Ret (inr e), after exchange w (FallbackSpec.get endpoint_path)).
Proof.
  intros Hfailed.
  unfold attempt, FallbackSpec.get in *.
  unfold try_except, bind, send, raise_for_status, json, eval, ret, raise.
  destruct Hfailed as [Hnext | (p & Hanswers & Hextract & ->)].
  - inversion Hnext
      as [ json Hreply
         | status_code j m Hpass Hcode Hmsg Hreply
         | status_code j Hpass Hcode Hmsg Hreply
         | status_code json Herror Hne Hreply
         | status_code Hpass Hreply
         | reason Hreply ]; cbn.
    + reflexivity.
    + rewrite (passing_status_is_not_400 _ Hpass), Hpass. cbn.
      apply String.eqb_neq in Hcode. rewrite Hcode.
      unfold msg_or_unknown. rewrite Hmsg. reflexivity.
    + rewrite (passing_status_is_not_400 _ Hpass), Hpass. cbn.
      apply String.eqb_neq in Hcode. rewrite Hcode.
      unfold msg_or_unknown. rewrite Hmsg. reflexivity.
    + apply Z.eqb_neq in Hne. rewrite Hne, Herror. reflexivity.
    + rewrite (passing_status_is_not_400 _ Hpass), Hpass. reflexivity.
    + reflexivity.
  - inversion Hanswers as [status_code j Hpass Hcode Hreply Hp]. subst p.
    cbn. rewrite (passing_status_is_not_400 _ Hpass), Hpass. cbn.
    rewrite Hcode, Hextract. reflexivity.
Qed.

(** Every reply either answers with something the operation can read or
    fails in one of the listed ways. *)
Lemma reply_fetched_or_failed (attempt_name : string) (reply : Reply F) :
  (exists a, FallbackSpec.Fetched extract reply a)
  \/ (exists e, FallbackSpec.Failed extract attempt_name reply e).
Proof.
  destruct reply as [reason | status_code json].
  { right. eexists. left. constructor. }
  destruct (Z.eqb_spec status_code 400) as [-> | Hne].
  { right. eexists. left. constructor. }
  destruct ((400 <=? status_code) && (status_code <? 600))%Z eqn:Hpass.
  { right. eexists. left. apply FallbackSpec.next_http_error; assumption. }
  destruct json as [j|].
  2: { right. eexists. left. apply FallbackSpec.next_undecodable. exact Hpass. }
  destruct (String.eqb_spec (code j) "200000") as [Hcode | Hcode].
  - destruct (extract (data j)) as [a|] eqn:Hextract.
    + left. exists a, (data j). split; [constructor; assumption | exact Hextract].
    + right. eexists. right. exists (data j).
      split; [constructor; assumption|]. split; [exact Hextract | reflexivity].
  - right. destruct (msg j) as [m|] eqn:Hmsg; eexists; left.
    + apply (FallbackSpec.next_error_code _ _ _ m); assumption.
    + apply FallbackSpec.next_error_code_without_message; assumption.
Qed.


End Attempts.


End ClientProperties.

(** ** The order executor *)

Section ExecutorProperties.
Context {F : Type} `{Number F}.
Variable exchange : Exchange F.
Variable self : Config F.
Local Open Scope monad_scope.

(** *** Stepping through [bind] *)

Lemma bind_step {A B} (m : M F A) (k : A -> M F B) (w w' : World F) (a : A) :
  m w = (Ret a, w') -> bind m k w = k a w'.
Proof. intros Hm. unfold bind. rewrite Hm. reflexivity. Qed.

Lemma bind_raise {A B} (m : M F A) (k : A -> M F B) (w w' : World F) (e : Exn) :
  m w = (Raise e, w') -> bind m k w = (Raise e, w').
Proof. intros Hm. unfold bind. rewrite Hm. reflexivity. Qed.

Lemma bind_diverge {A B} (m : M F A) (k : A -> M F B) (w w' : World F) :
  m w = (Diverge, w') -> bind m k w = (Diverge, w').
Proof. intros Hm. unfold bind. rewrite Hm. reflexivity. Qed.

(** *** Computations that let no exception out *)

Lemma no_raise_ret {A} (a : A) : no_raise (F := F) (ret a).
Proof. intros w e. discriminate. Qed.

Lemma no_raise_bind {A B} (m : M F A) (k : A -> M F B) :
  no_raise m -> (forall a, no_raise (k a)) -> no_raise (bind m k).
Proof.
  intros Hm Hk w e. unfold bind.
  destruct (m w) as [[a | e' | ] w'] eqn:Hmw.
  - apply Hk.
  - exfalso. apply (Hm w e'). rewrite Hmw. reflexivity.
  - discriminate.
Qed.

Lemma no_raise_try {A} (body : M F A) (handler : Exn -> M F A) :
  (forall e, no_raise (handler e)) -> no_raise (try_except body handler).
Proof.
  intros Hh w e. unfold try_except.
  destruct (body w) as [[a | e' | ] w']; try discriminate. apply Hh.
Qed.

Lemma no_raise_returns {A} (m : M F A) :
  (forall w, exists a w', m w = (Ret a, w')) -> no_raise m.
Proof. intros Hm w e. destruct (Hm w) as (a & w' & ->). discriminate. Qed.

(** *** Position mode and pricing never fail and only talk to the exchange *)

Lemma set_position_mode_returns (symbol mode : string) (w : World F) :
  exists b w', set_position_mode exchange symbol mode w = (Ret b, w')
               /\ ledger w' = ledger w.
Proof.
  unfold set_position_mode.
  destruct (if (mode =? "ONE_WAY")%string then Some 0
            else if (mode =? "HEDGE_MODE")%string then Some 1 else None)
    as [mode_int|].
  - unfold try_except, bind, send, raise_for_status, json, eval, ret, raise.
    destruct (snd (exchange _ _)) as [reason | status_code [j|]]; cbn;
      try destruct ((400 <=? status_code) && (status_code <? 600))%Z; cbn;
      do 2 eexists; split; reflexivity.
  - do 2 eexists; split; reflexivity.
Qed.

Lemma verify_position_mode_returns (symbol : string) (w : World F) :
  exists b w', verify_position_mode exchange self symbol w = (Ret b, w')
               /\ ledger w' = ledger w.
Proof.
  unfold verify_position_mode, bind at 1.
  destruct (get_position_mode_returns exchange symbol w) as (mode & ->).
  destruct (mode =? "")%string; [do 2 eexists; split; reflexivity|].
  destruct (mode =? position_mode self)%string;
    [do 2 eexists; split; reflexivity|].
  destruct (auto_set_position_mode self);
    [|do 2 eexists; split; reflexivity].
  destruct (set_position_mode_returns symbol (position_mode self)
              (after exchange w
                 (FallbackSpec.get
                    ("/api/v2/position/getPositionMode?symbol=" ++ symbol))))
    as (b & w' & -> & Hl).
  do 2 eexists; split; [reflexivity | exact Hl].
Qed.

Lemma calculate_limit_price_returns (symbol : string) (side : Side)
      (w : World F) :
  exists p, calculate_limit_price exchange self symbol side w
            = (Ret p, after exchange w
                        (FallbackSpec.get ("/api/v1/ticker?symbol=" ++ symbol))).
Proof.
  unfold calculate_limit_price, bind at 1.
  destruct (get_best_bid_ask_returns exchange symbol w) as ([q|] & ->);
    [|eexists; reflexivity].
  destruct ((best_bid q =? lit 0)%num || (best_ask q =? lit 0)%num);
    [eexists; reflexivity|].
  destruct side; eexists; reflexivity.
Qed.

(** *** The size gate *)

Lemma place_order_rejected
      (fuel : nat) (symbol : string) (side : Side) (contracts leverage : Z)
      (reduce_only : bool) (w : World F) :
  is_gt (cmp_int (Z.abs contracts) (max_order_usd self)) = true
  \/ is_lt (cmp_int (Z.abs contracts) (min_order_usd self)) = true ->
  exists e,
    place_order exchange self fuel symbol side contracts leverage reduce_only w
    = (Ret (Failure e), w).
Proof.
  intros Hsize.
  destruct (is_gt (cmp_int (Z.abs contracts) (max_order_usd self))) eqn:Hgt.
  - exists (Text "Order size exceeds maximum").
    destruct fuel; cbn [place_order]; rewrite Hgt; reflexivity.
  - exists (Text "Order size below minimum").
    assert (Hlt : is_lt (cmp_int (Z.abs contracts) (min_order_usd self)) = true).
    { destruct Hsize as [Hs | Hs]; [discriminate | exact Hs]. }
    destruct fuel; cbn [place_order]; rewrite Hgt, Hlt; reflexivity.
Qed.

(** C5.  An order whose contract count is above the configured maximum or
    below the configured minimum is answered with a failure value and the
    world is left exactly as it was: no request of any kind is sent. *)
Theorem size_gate_rejects_without_network
        (fuel : nat) (symbol : string) (side : Side) (contracts leverage : Z)
        (reduce_only : bool) (w : World F) :
  cmp_int (Z.abs contracts) (max_order_usd self) = Some Gt
  \/ cmp_int (Z.abs contracts) (min_order_usd self) = Some Lt ->
  exists e,
    place_order exchange self fuel symbol side contracts leverage reduce_only w
    = (Ret (Failure e), w).
Proof.
  intros [Hs | Hs]; apply place_order_rejected; rewrite Hs; cbn; auto.
Qed.

(** *** Dry run *)

Lemma place_order_dry_run
        (fuel : nat) (symbol : string) (side : Side) (contracts leverage : Z)
        (reduce_only : bool) (w : World F) :
  dry_run self = true ->
  is_gt (cmp_int (Z.abs contracts) (max_order_usd self)) = false ->
  is_lt (cmp_int (Z.abs contracts) (min_order_usd self)) = false ->
  exists r w',
    place_order exchange self fuel symbol side contracts leverage reduce_only w
    = (Ret r, w')
    /\ success r = true
    /\ partially_filled r = false
    /\ order_id r = Some (DryRunId (uuid_draws w))
    /\ ledger w' = ledger w
    /\ (requests w' = requests w
        \/ requests w'
           = (requests w
                ++ [FallbackSpec.get ("/api/v1/ticker?symbol=" ++ symbol)])%list).
Proof.
  intros Hdry Hgt Hlt.
  assert (Hpriced :
    exists limit_price w',
      (if (order_type self =? "limit")%string
       then bind (calculate_limit_price exchange self symbol side)
                 (fun p => ret (Some p))
       else ret None) (drawn w) = (Ret limit_price, w')
      /\ ledger w' = ledger w
      /\ (requests w' = requests w
          \/ requests w'
             = (requests w
                  ++ [FallbackSpec.get ("/api/v1/ticker?symbol=" ++ symbol)])%list)).
  { destruct (order_type self =? "limit")%string.
    - destruct (calculate_limit_price_returns symbol side (drawn w)) as (p & Hp).
      exists (Some p). eexists.
      split; [rewrite (bind_step _ _ _ _ _ Hp); reflexivity|].
      cbn. auto.
    - exists None, (drawn w). cbn. auto. }
  destruct Hpriced as (limit_price & w' & Hprice & Hledger & Hrequests).
  eexists. exists w'. split.
  - destruct fuel; cbn [place_order]; rewrite Hgt, Hlt, Hdry; cbn [negb];
      rewrite (bind_step _ _ w w true eq_refl); cbn [negb];
      rewrite (bind_step uuid4 _ w (drawn w) (uuid_draws w) eq_refl);
      rewrite (bind_step _ _ _ _ _ Hprice); reflexivity.
  - cbn. repeat split; [exact Hledger | exact Hrequests].
Qed.

(** C8.  In dry-run mode an order that passes the size gate returns a success
    with the synthetic identifier of a fresh uuid draw; position mode is
    neither read nor set and no order is submitted (the only request that can
    be sent is the ticker read that prices a limit order); the ledger is left
    as it was. *)
Theorem dry_run_short_circuits
        (fuel : nat) (symbol : string) (side : Side) (contracts leverage : Z)
        (reduce_only : bool) (w : World F) :
  dry_run self = true ->
  is_gt (cmp_int (Z.abs contracts) (max_order_usd self)) = false ->
  is_lt (cmp_int (Z.abs contracts) (min_order_usd self)) = false ->
  exists r w',
    place_order exchange self fuel symbol side contracts leverage reduce_only w
    = (Ret r, w')
    /\ success r = true
    /\ partially_filled r = false
    /\ order_id r = Some (DryRunId (uuid_draws w))
    /\ ledger w' = ledger w
    /\ (requests w' = requests w
        \/ requests w'
           = (requests w
                ++ [FallbackSpec.get ("/api/v1/ticker?symbol=" ++ symbol)])%list).
Proof. apply place_order_dry_run. Qed.

(** *** The GTC monitor at its timeout *)

Lemma bind_assoc {A B C} (m : M F A) (f : A -> M F B) (g : B -> M F C)
      (w : World F) :
  bind (bind m f) g w = bind m (fun x => bind (f x) g) w.
Proof. unfold bind. destruct (m w) as [[a | e | ] w']; reflexivity. Qed.

Lemma bind_ret_r {A} (m : M F A) (w : World F) : bind m ret w = m w.
Proof. unfold bind, ret. destruct (m w) as [[a | e | ] w']; reflexivity. Qed.

Lemma monitor_loop_at_timeout
      (place_order : PlaceOrder) (passes : nat) (start_time : Z)
      (order_id symbol : string) (side : Side) (contracts leverage : Z)
      (reduce_only : bool) (action : option Action) (limit_price : option F)
      (w : World F) :
  (gtc_timeout_seconds self <= clock w - start_time)%Z ->
  monitor_loop exchange self place_order (S passes) start_time order_id symbol
               side contracts leverage reduce_only action limit_price w
  = on_timeout exchange self place_order order_id symbol side contracts
               leverage reduce_only action limit_price w.
Proof.
  intros Hle. cbn [monitor_loop].
  rewrite (bind_step time _ w w (clock w) eq_refl).
  apply Z.leb_le in Hle. rewrite Hle. reflexivity.
Qed.

Lemma on_timeout_incomplete
      (place_order : PlaceOrder) (order_id symbol : string) (side : Side)
      (contracts leverage : Z) (reduce_only : bool) (action : option Action)
      (limit_price : option F) (w : World F) (d : OrderDetails F)
      (filled total : F) (u : Z) :
  fst (get_order_details exchange order_id w) = Ret (Some d) ->
  filled_size_of d = Some filled ->
  total_size_of d contracts = Some total ->
  (filled <? total)%num = true ->
  to_int (total - filled)%num = Some u ->
  (0 < u)%Z ->
  on_timeout exchange self place_order order_id symbol side contracts leverage
             reduce_only action limit_price w
  = place_order symbol side u leverage reduce_only
      (before_resubmission exchange self order_id symbol contracts action
                           limit_price filled w).
Proof.
  intros Hdetails Hfilled Htotal Hless Hunfilled Hpos.
  destruct (get_order_details_returns exchange order_id w) as (d' & Hd).
  rewrite Hd in Hdetails. cbn in Hdetails. injection Hdetails as ->.
  unfold on_timeout.
  rewrite (bind_step _ _ _ _ _ Hd).
  rewrite Hfilled, Htotal. cbn [eval].
  rewrite bind_assoc, (bind_step (ret filled) _ _ _ filled eq_refl).
  rewrite bind_assoc, (bind_step (ret total) _ _ _ total eq_refl).
  rewrite Hless.
  destruct (cancel_order_returns exchange order_id
              (after exchange w
                 (FallbackSpec.get ("/api/v1/orders/" ++ order_id))))
    as (cancel_success & Hcancel).
  rewrite bind_assoc, (bind_step _ _ _ _ _ Hcancel).
  rewrite Hunfilled. cbn [eval].
  rewrite bind_assoc, (bind_step (ret u) _ _ _ u eq_refl).
  apply Z.ltb_lt in Hpos. rewrite Hpos.
  rewrite bind_assoc.
  assert (Hlog :
    match (if (filled =? lit 0)%num then trade_info action limit_price
           else None) with
    | Some (a, p) =>
        log_trade self a symbol (Z.abs contracts) (Some p) order_id
                  (Some (slippage_pct self)) CANCELLED TradeLog.GtcNoFill
    | None => ret tt
    end
      (after exchange
         (after exchange w (FallbackSpec.get ("/api/v1/orders/" ++ order_id)))
         {| method := DELETE;
            endpoint_path := "/api/v1/orders/" ++ order_id;
            body := NoBody |})
    = (Ret tt,
       before_resubmission exchange self order_id symbol contracts action limit_price
                           filled w)).
  { unfold before_resubmission.
    destruct (if (filled =? lit 0)%num then trade_info action limit_price
              else None) as [[a p]|] eqn:Hinfo; [|reflexivity].
    unfold log_trade, TradeLogger.log_trade.
    assert (Htruthy : truthy p = true).
    { destruct (filled =? lit 0)%num; [|discriminate].
      unfold trade_info in Hinfo.
      destruct action; [|discriminate]. destruct limit_price; [|discriminate].
      destruct (truthy f) eqn:Ht; [|discriminate].
      injection Hinfo as _ <-. exact Ht. }
    rewrite Htruthy.
    destruct (trade_logging_enabled self); reflexivity. }
  rewrite (bind_step _ _ _ _ _ Hlog).
  rewrite bind_assoc. unfold bind, ret.
  destruct (place_order symbol side u leverage reduce_only _)
    as [[r | e | ] w']; reflexivity.
Qed.

(** C1 (as amended).  When the timeout has elapsed, the order detail is read
    with nothing filled of a size of at least one contract, the monitor sends
    the cancel, writes exactly one CANCELLED row for the order, and then
    resubmits the whole unfilled size through [place_order]: it does not stop
    after the cancellation. *)
Theorem timeout_without_fill_cancels_logs_and_resubmits
        (place_order : PlaceOrder) (passes : nat) (start_time : Z)
        (order_id symbol : string) (side : Side) (contracts leverage : Z)
        (reduce_only : bool) (a : Action) (p : F) (w : World F)
        (d : OrderDetails F) (filled total : F) (u : Z) :
  (gtc_timeout_seconds self <= clock w - start_time)%Z ->
  fst (get_order_details exchange order_id w) = Ret (Some d) ->
  filled_size_of d = Some filled ->
  (filled =? lit 0)%num = true ->
  total_size_of d contracts = Some total ->
  (filled <? total)%num = true ->
  to_int (total - filled)%num = Some u ->
  (0 < u)%Z ->
  truthy p = true ->
  trade_logging_enabled self = true ->
  exists w',
    monitor_loop exchange self place_order (S passes) start_time order_id
                 symbol side contracts leverage reduce_only (Some a) (Some p) w
    = place_order symbol side u leverage reduce_only w'
    /\ requests w'
       = (requests w
            ++ [ FallbackSpec.get ("/api/v1/orders/" ++ order_id);
                 {| method := DELETE;
                    endpoint_path := "/api/v1/orders/" ++ order_id;
                    body := NoBody |} ])%list
    /\ ledger w'
       = (ledger w
            ++ [ {| TradeLog.action := a;
                    TradeLog.symbol := symbol;
                    TradeLog.contracts := Z.abs contracts;
                    TradeLog.limit_price := Some p;
                    TradeLog.order_id := order_id;
                    TradeLog.slippage := Some (slippage_pct self);
                    TradeLog.status := CANCELLED;
                    TradeLog.error := TradeLog.GtcNoFill |} ])%list.
Proof.
  intros Hle Hdetails Hfilled Hzero Htotal Hless Hunfilled Hpos Htruthy Henabled.
  eexists. split.
  - rewrite (monitor_loop_at_timeout _ _ _ _ _ _ _ _ _ _ _ _ Hle).
    apply (on_timeout_incomplete _ _ _ _ _ _ _ _ _ _ _ _ _ _
             Hdetails Hfilled Htotal Hless Hunfilled Hpos).
  - unfold before_resubmission, trade_info.
    rewrite Hzero, Htruthy, Henabled. cbn.
    rewrite <- app_assoc. split; reflexivity.
Qed.

(** C10.  When the timeout has elapsed and the order is not completely filled,
    the remainder (if at least one contract) is resubmitted through
    [place_order] whatever [cancel_order] returned: the cancel request is sent
    and its result is not consulted. *)
Theorem resubmission_ignores_cancel_result
        (place_order : PlaceOrder) (passes : nat) (start_time : Z)
        (order_id symbol : string) (side : Side) (contracts leverage : Z)
        (reduce_only : bool) (action : option Action) (limit_price : option F)
        (w : World F) (d : OrderDetails F) (filled total : F) (u : Z)
        (cancel_success : bool) :
  (gtc_timeout_seconds self <= clock w - start_time)%Z ->
  fst (get_order_details exchange order_id w) = Ret (Some d) ->
  filled_size_of d = Some filled ->
  total_size_of d contracts = Some total ->
  (filled <? total)%num = true ->
  to_int (total - filled)%num = Some u ->
  (0 < u)%Z ->
  fst (cancel_order exchange order_id
         (after exchange w (FallbackSpec.get ("/api/v1/orders/" ++ order_id))))
  = Ret cancel_success ->
  exists w',
    monitor_loop exchange self place_order (S passes) start_time order_id
                 symbol side contracts leverage reduce_only action limit_price w
    = place_order symbol side u leverage reduce_only w'
    /\ requests w'
       = (requests w
            ++ [ FallbackSpec.get ("/api/v1/orders/" ++ order_id);
                 {| method := DELETE;
                    endpoint_path := "/api/v1/orders/" ++ order_id;
                    body := NoBody |} ])%list.
Proof.
  intros Hle Hdetails Hfilled Htotal Hless Hunfilled Hpos _.
  eexists. split.
  - rewrite (monitor_loop_at_timeout _ _ _ _ _ _ _ _ _ _ _ _ Hle).
    apply (on_timeout_incomplete _ _ _ _ _ _ _ _ _ _ _ _ _ _
             Hdetails Hfilled Htotal Hless Hunfilled Hpos).
  - unfold before_resubmission.
    destruct (if (filled =? lit 0)%num then trade_info action limit_price
              else None) as [[a p]|];
      [destruct (trade_logging_enabled self)|]; cbn;
      rewrite <- app_assoc; reflexivity.
Qed.

(** *** What an order attempt returns and writes *)

Lemma no_raise_uuid4 : no_raise (F := F) uuid4.
Proof. intros w e. discriminate. Qed.

Lemma no_raise_verify_position_mode (symbol : string) :
  no_raise (verify_position_mode exchange self symbol).
Proof.
  apply no_raise_returns. intros w.
  destruct (verify_position_mode_returns symbol w) as (b & w' & Hv & _).
  eauto.
Qed.

Lemma no_raise_calculate_limit_price (symbol : string) (side : Side) :
  no_raise (calculate_limit_price exchange self symbol side).
Proof.
  apply no_raise_returns. intros w.
  destruct (calculate_limit_price_returns symbol side w) as (p & Hp). eauto.
Qed.

Lemma place_order_no_raise
      (fuel : nat) (symbol : string) (side : Side) (contracts leverage : Z)
      (reduce_only : bool) :
  no_raise (place_order exchange self fuel symbol side contracts leverage
                        reduce_only).
Proof.
  destruct fuel; cbn [place_order];
    repeat first
           [ apply no_raise_ret
           | apply no_raise_uuid4
           | apply no_raise_verify_position_mode
           | apply no_raise_calculate_limit_price
           | apply no_raise_try; intros
           | apply no_raise_bind; [|intros]
           | match goal with
             | |- no_raise (if ?b then _ else _) => destruct b
             end ].
Qed.

(** *** The exits of the monitor *)

(** At the timeout, with the detail unreadable or nothing left to fill. *)
Lemma monitor_timeout_without_remainder
      (place_order : PlaceOrder) (passes : nat) (start_time : Z)
      (order_id symbol : string) (side : Side) (contracts leverage : Z)
      (reduce_only : bool) (action : option Action) (limit_price : option F)
      (w : World F) (details : option (OrderDetails F)) :
  (gtc_timeout_seconds self <= clock w - start_time)%Z ->
  fst (get_order_details exchange order_id w) = Ret details ->
  (details = None
   \/ exists d filled total,
       details = Some d /\ filled_size_of d = Some filled
       /\ total_size_of d contracts = Some total
       /\ ltb filled total = false) ->
  let w1 := after exchange w
                  (FallbackSpec.get ("/api/v1/orders/" ++ order_id)) in
  monitor_loop exchange self place_order (S passes) start_time order_id symbol
               side contracts leverage reduce_only action limit_price w
  = (Ret (Failure (Text "GTC order timeout")),
     match trade_info action limit_price with
     | Some (a, p) =>
         if trade_logging_enabled self then
           add_row w1 {| TradeLog.action := a;
                         TradeLog.symbol := symbol;
                         TradeLog.contracts := Z.abs contracts;
                         TradeLog.limit_price := Some p;
                         TradeLog.order_id := order_id;
                         TradeLog.slippage := Some (slippage_pct self);
                         TradeLog.status := TIMEOUT;
                         TradeLog.error := TradeLog.GtcNoStatus |}
         else w1
     | None => w1
     end).
Proof.
  intros Hdue Hdetails Hcase w1. subst w1.
  rewrite (monitor_loop_at_timeout _ _ _ _ _ _ _ _ _ _ _ _ Hdue).
  destruct (get_order_details_returns exchange order_id w) as (d' & Hd).
  rewrite Hd in Hdetails. cbn in Hdetails. injection Hdetails as ->.
  unfold on_timeout. rewrite (bind_step _ _ _ _ _ Hd).
  assert (Hnone :
    (match details with
     | Some d =>
         filled_size <- eval ConversionError (filled_size_of d) ;;
         total_size <- eval ConversionError (total_size_of d contracts) ;;
         (if ltb filled_size total_size
          then
            cancel_order exchange order_id ;;
            unfilled <- eval ConversionError
                             (to_int (sub total_size filled_size)) ;;
            match (if eqb filled_size (lit 0)
                   then trade_info action limit_price else None) with
            | Some (a, p) =>
                log_trade self a symbol (Z.abs contracts) (Some p) order_id
                          (Some (slippage_pct self)) CANCELLED
                          TradeLog.GtcNoFill
            | None => ret tt
            end ;;
            (if (0 <? unfilled)%Z
             then r <- place_order symbol side unfilled leverage reduce_only ;;
                  ret (Some r)
             else
               match trade_info action limit_price with
               | Some (a, p) =>
                   filled_contracts <- eval ConversionError
                                            (to_int filled_size) ;;
                   log_trade self a symbol filled_contracts (Some p) order_id
                             (Some (slippage_pct self)) PARTIAL
                             (TradeLog.FilledOf filled_size total_size)
               | None => ret tt
               end ;;
               ret (Some (GtcPartial order_id filled_size)))
          else ret None)
     | None => ret None
     end)
      (after exchange w (FallbackSpec.get ("/api/v1/orders/" ++ order_id)))
    = (Ret None,
       after exchange w (FallbackSpec.get ("/api/v1/orders/" ++ order_id)))).
  { destruct Hcase as [-> | (d & filled & total & -> & Hf & Ht & Hge)];
      [reflexivity|].
    rewrite Hf, Ht. cbn [eval].
    rewrite (bind_step (ret filled) _ _ _ filled eq_refl).
    rewrite (bind_step (ret total) _ _ _ total eq_refl).
    rewrite Hge. reflexivity. }
  rewrite (bind_step _ _ _ _ _ Hnone).
  destruct (trade_info action limit_price) as [[a p]|] eqn:Hinfo;
    [|reflexivity].
  assert (Htruthy : truthy p = true).
  { unfold trade_info in Hinfo.
    destruct action; [|discriminate]. destruct limit_price; [|discriminate].
    destruct (truthy f) eqn:Ht; [|discriminate].
    injection Hinfo as _ <-. exact Ht. }
  unfold bind, log_trade, TradeLogger.log_trade, append_row, ret.
  rewrite Htruthy.
  destruct (trade_logging_enabled self); reflexivity.
Qed.

(** Before the timeout, with the order found done. *)
Lemma monitor_done
      (place_order : PlaceOrder) (passes : nat) (start_time : Z)
      (order_id symbol : string) (side : Side) (contracts leverage : Z)
      (reduce_only : bool) (action : option Action) (limit_price : option F)
      (w : World F) (d : OrderDetails F) (filled total : F) :
  (clock w - start_time < gtc_timeout_seconds self)%Z ->
  fst (get_order_details exchange order_id w) = Ret (Some d) ->
  status d = "done" ->
  filled_size_of d = Some filled ->
  total_size_of d contracts = Some total ->
  let w1 := after exchange w
                  (FallbackSpec.get ("/api/v1/orders/" ++ order_id)) in
  monitor_loop exchange self place_order (S passes) start_time order_id symbol
               side contracts leverage reduce_only action limit_price w
  = (Ret (GtcFilled order_id filled),
     match trade_info action limit_price with
     | Some (a, p) =>
         if trade_logging_enabled self then
           add_row w1 {| TradeLog.action := a;
                         TradeLog.symbol := symbol;
                         TradeLog.contracts := Z.abs contracts;
                         TradeLog.limit_price := Some p;
                         TradeLog.order_id := order_id;
                         TradeLog.slippage := Some (slippage_pct self);
                         TradeLog.status := FILLED;
                         TradeLog.error := TradeLog.NoDetail |}
         else w1
     | None => w1
     end).
Proof.
  intros Hearly Hdetails Hdone Hf Ht w1. subst w1.
  cbn [monitor_loop].
  rewrite (bind_step time _ w w (clock w) eq_refl).
  apply Z.leb_gt in Hearly. rewrite Hearly.
  destruct (get_order_details_returns exchange order_id w) as (d' & Hd).
  rewrite Hd in Hdetails. cbn in Hdetails. injection Hdetails as ->.
  unfold check_status. rewrite bind_assoc, (bind_step _ _ _ _ _ Hd).
  rewrite Hf, Ht, Hdone. cbn [eval String.eqb].
  rewrite bind_assoc, (bind_step (ret filled) _ _ _ filled eq_refl).
  rewrite bind_assoc, (bind_step (ret total) _ _ _ total eq_refl).
  change ("done" =? "done")%string with true. cbv iota.
  destruct (trade_info action limit_price) as [[a p]|] eqn:Hinfo;
    [|reflexivity].
  assert (Htruthy : truthy p = true).
  { unfold trade_info in Hinfo.
    destruct action; [|discriminate]. destruct limit_price; [|discriminate].
    destruct (truthy f) eqn:Htr; [|discriminate].
    injection Hinfo as _ <-. exact Htr. }
  unfold bind, log_trade, TradeLogger.log_trade, append_row, ret.
  rewrite Htruthy.
  destruct (trade_logging_enabled self); reflexivity.
Qed.



(** *** Live orders at the exchange *)





(** *** The monitor never uses up its pass budget *)

Lemma no_diverge_ret {A} (a : A) : no_diverge (F := F) (ret a).
Proof. intros w. discriminate. Qed.

Lemma no_diverge_eval {A} (e : Exn) (v : option A) : no_diverge (F := F) (eval e v).
Proof. intros w. destruct v; discriminate. Qed.

Lemma no_diverge_bind {A B} (m : M F A) (k : A -> M F B) :
  no_diverge m -> (forall a, no_diverge (k a)) -> no_diverge (bind m k).
Proof.
  intros Hm Hk w. unfold bind.
  destruct (m w) as [[a | e | ] w'] eqn:Hmw.
  - apply Hk.
  - discriminate.
  - exfalso. apply (Hm w). rewrite Hmw. reflexivity.
Qed.

Lemma no_diverge_returns {A} (m : M F A) :
  (forall w, exists a w', m w = (Ret a, w')) -> no_diverge m.
Proof. intros Hm w. destruct (Hm w) as (a & w' & ->). discriminate. Qed.

Lemma no_diverge_log_trade a symbol contracts limit_price order_id slippage
      status error :
  no_diverge (log_trade self a symbol contracts limit_price order_id slippage
                        status error).
Proof.
  intros w. unfold log_trade, TradeLogger.log_trade.
  destruct (negb (trade_logging_enabled self)); discriminate.
Qed.

Lemma no_diverge_get_order_details (order_id : string) :
  no_diverge (get_order_details exchange order_id).
Proof.
  apply no_diverge_returns. intros w.
  destruct (get_order_details_returns exchange order_id w) as (d & ->). eauto.
Qed.

Lemma no_diverge_cancel_order (order_id : string) :
  no_diverge (cancel_order exchange order_id).
Proof.
  apply no_diverge_returns. intros w.
  destruct (cancel_order_returns exchange order_id w) as (b & ->). eauto.
Qed.

Ltac no_diverge_tac :=
  repeat first
         [ apply no_diverge_ret
         | apply no_diverge_eval
         | apply no_diverge_log_trade
         | apply no_diverge_get_order_details
         | apply no_diverge_cancel_order
         | apply no_diverge_bind; [|intros]
         | match goal with
           | |- no_diverge (if ?b then _ else _) => destruct b
           | |- no_diverge (match ?x with Some _ => _ | None => _ end) =>
               destruct x
           | |- no_diverge (let '(_, _) := ?x in _) => destruct x
           | H : forall s sd u l r, no_diverge _ |- _ => apply H
           end ].

Lemma on_timeout_no_diverge
      (place_order : PlaceOrder) (order_id symbol : string) (side : Side)
      (contracts leverage : Z) (reduce_only : bool) (action : option Action)
      (limit_price : option F) :
  (forall s sd u l r, no_diverge (place_order s sd u l r)) ->
  no_diverge (on_timeout exchange self place_order order_id symbol side
                         contracts leverage reduce_only action limit_price).
Proof. intros Hplace. unfold on_timeout. no_diverge_tac. Qed.

Lemma check_status_no_diverge
      (order_id symbol : string) (contracts : Z) (action : option Action)
      (limit_price : option F) :
  no_diverge (check_status exchange self order_id symbol contracts action
                           limit_price).
Proof. unfold check_status. no_diverge_tac. Qed.

(** Time does not run backwards across a status check. *)
Lemma check_status_clock
      (order_id symbol : string) (contracts : Z) (action : option Action)
      (limit_price : option F) (w : World F) :
  (clock w
   <= clock (snd (check_status exchange self order_id symbol contracts action
                               limit_price w)))%Z.
Proof.
  unfold check_status.
  destruct (get_order_details_returns exchange order_id w) as (d & Hd).
  rewrite (bind_step _ _ _ _ _ Hd).
  assert (Hafter : (clock w <= clock (after exchange w
                      (FallbackSpec.get ("/api/v1/orders/" ++ order_id))))%Z)
    by (cbn; lia).
  destruct d as [d|]; [|exact Hafter].
  unfold bind, eval, ret, raise, log_trade, TradeLogger.log_trade, append_row.
  destruct (filled_size_of d); [|exact Hafter].
  destruct (total_size_of d contracts); [|exact Hafter].
  destruct (status d =? "done")%string; [|exact Hafter].
  destruct (trade_info action limit_price) as [[a p]|]; [|exact Hafter].
  destruct (negb (trade_logging_enabled self)); exact Hafter.
Qed.

Lemma monitor_loop_within_budget
      (place_order : PlaceOrder) (passes : nat) (start_time : Z)
      (order_id symbol : string) (side : Side) (contracts leverage : Z)
      (reduce_only : bool) (action : option Action) (limit_price : option F) :
  (forall s sd u l r, no_diverge (place_order s sd u l r)) ->
  forall w,
    (Z.max 0 (gtc_timeout_seconds self - (clock w - start_time))
     < Z.of_nat passes)%Z ->
    fst (monitor_loop exchange self place_order passes start_time order_id
                      symbol side contracts leverage reduce_only action
                      limit_price w) <> Diverge.
Proof.
  intros Hplace. induction passes as [|passes IH]; intros w Hbudget.
  - lia.
  - cbn [monitor_loop].
    rewrite (bind_step time _ w w (clock w) eq_refl).
    destruct (gtc_timeout_seconds self <=? clock w - start_time)%Z eqn:Hdue.
    + apply on_timeout_no_diverge. exact Hplace.
    + apply Z.leb_gt in Hdue.
      pose proof (check_status_clock order_id symbol contracts action
                                     limit_price w) as Hclock.
      pose proof (check_status_no_diverge order_id symbol contracts action
                                          limit_price w) as Hcheck.
      unfold bind at 1.
      destruct (check_status exchange self order_id symbol contracts action
                             limit_price w) as [[[r|] | e | ] w1];
        try discriminate; [|exfalso; apply Hcheck; reflexivity].
      unfold bind, sleep, check_interval. cbn [fst snd] in *.
      apply IH. cbn [clock]. lia.
Qed.

(** With a callback that always comes back, [monitor_gtc_order] comes back:
    it returns by the time [gtc_timeout_seconds] have passed. *)
Lemma monitor_gtc_order_no_diverge
      (place_order : PlaceOrder) (order_id symbol : string) (side : Side)
      (contracts leverage : Z) (reduce_only : bool) (action : option Action)
      (limit_price : option F) :
  (forall s sd u l r, no_diverge (place_order s sd u l r)) ->
  no_diverge (monitor_gtc_order exchange self place_order order_id symbol side
                                contracts leverage reduce_only action
                                limit_price).
Proof.
  intros Hplace w. unfold monitor_gtc_order.
  rewrite (bind_step time _ w w (clock w) eq_refl).
  apply monitor_loop_within_budget; [exact Hplace|].
  unfold passes_budget. lia.
Qed.

Lemma no_diverge_try {A} (body : M F A) (handler : Exn -> M F A) :
  no_diverge body -> (forall e, no_diverge (handler e)) ->
  no_diverge (try_except body handler).
Proof.
  intros Hb Hh w. unfold try_except.
  destruct (body w) as [[a | e | ] w'] eqn:Hbw; try discriminate.
  - apply Hh.
  - exfalso. apply (Hb w). rewrite Hbw. reflexivity.
Qed.

Lemma no_diverge_send (m : Method) (path : string) (b : Body F) :
  no_diverge (send exchange m path b).
Proof. intros w. unfold send. destruct (snd (exchange _ _)); discriminate. Qed.

Lemma no_diverge_raise_for_status (status_code : Z) :
  no_diverge (raise_for_status (F := F) status_code).
Proof.
  intros w. unfold raise_for_status.
  destruct ((400 <=? status_code) && (status_code <? 600))%Z; discriminate.
Qed.

Lemma no_diverge_uuid4 : no_diverge (F := F) uuid4.
Proof. intros w. discriminate. Qed.

Lemma no_diverge_verify_position_mode (symbol : string) :
  no_diverge (verify_position_mode exchange self symbol).
Proof.
  apply no_diverge_returns. intros w.
  destruct (verify_position_mode_returns symbol w) as (b & w' & Hv & _).
  eauto.
Qed.

Lemma no_diverge_calculate_limit_price (symbol : string) (side : Side) :
  no_diverge (calculate_limit_price exchange self symbol side).
Proof.
  apply no_diverge_returns. intros w.
  destruct (calculate_limit_price_returns symbol side w) as (p & Hp). eauto.
Qed.

(** Running out of [fuel] is the only way [place_order] fails to come back:
    if every resubmission at depth [fuel] comes back, so does every order at
    depth [S fuel]. *)
Lemma place_order_no_diverge_step (fuel : nat) :
  (forall s sd u l r, no_diverge (place_order exchange self fuel s sd u l r)) ->
  forall s sd u l r,
    no_diverge (place_order exchange self (S fuel) s sd u l r).
Proof.
  intros Hfuel symbol side contracts leverage reduce_only.
  cbn [place_order].
  repeat first
         [ apply no_diverge_ret
         | apply no_diverge_uuid4
         | apply no_diverge_verify_position_mode
         | apply no_diverge_calculate_limit_price
         | apply no_diverge_send
         | apply no_diverge_raise_for_status
         | apply no_diverge_log_trade
         | apply no_diverge_eval
         | apply (monitor_gtc_order_no_diverge _ _ _ _ _ _ _ _ _ Hfuel)
         | apply no_diverge_try; [|intros]
         | apply no_diverge_bind; [|intros]
         | match goal with
           | |- no_diverge (if ?b then _ else _) => destruct b
           end ].
Qed.

End ExecutorProperties.

(* ================================================================== *)
(** * Further properties *)

(** ** More on calculate_metrics *)

Section CalculatorAdjustments.
Context {F : Type} `{Number F}.
Import Observations.
Local Open Scope num_scope.

(** How the adjustment fields of the returned metrics are computed. *)
Lemma calculate_metrics_adjustments
      (cold : F) (account : Account F) (ps : list (Position F))
      (price target threshold : F) (m : Metrics F) :
  calculate_metrics cold account ps price target threshold = Some m ->
  required_usd_adjustment m
  = (allocation_deviation m / lit 100) * total_portfolio_usd m
  /\ short_position_adjustment m = target_usd_exposure m - current_short_usd m
  /\ target_usd_exposure m
     = total_portfolio_usd m * ((lit 100 - target) / lit 100)
  /\ current_short_usd m = usd_exposure m
  /\ to_int (absF (short_position_adjustment m)) = Some (contracts_to_adjust m)
  /\ position_count m = List.length (positions m)
  /\ scan_positions price ps (lit 0) [] = Some (usd_exposure m, positions m).
Proof.
  unfold calculate_metrics.
  destruct (get_float (accountEquity account) (lit 0)) as [fut|]; [|discriminate].
  destruct (scan_positions price ps (lit 0) []) as [[short details]|];
    [|discriminate].
  destruct (((cold + fut) * price) >? lit 0);
    match goal with
    | |- context [to_int ?x] => destruct (to_int x) as [c|] eqn:Hc; [|discriminate]
    end;
    intro Hm; injection Hm as <-; cbn; repeat split; exact Hc.
Qed.

Lemma scan_positions_ignores_uncounted
      (price : F) (ps : list (Position F)) :
  forall (total : F) (details : list (PositionDetail F)) r,
    scan_positions price ps total details = Some r ->
    scan_positions price (List.filter counted ps) total details = Some r.
Proof.
  induction ps as [|pos rest IH]; intros total details r Hscan; [exact Hscan|].
  cbn [scan_positions] in Hscan. cbn [List.filter]. unfold counted at 1.
  destruct (get_float (currentQty pos) (lit 0)) as [qty|] eqn:Hqty;
    [|discriminate].
  destruct (get_float (markPrice pos) price) as [mark|] eqn:Hmark;
    [|discriminate].
  destruct (isInverse pos && (qty <? lit 0)) eqn:Hcounted.
  - cbn [scan_positions]. rewrite Hqty, Hmark, Hcounted.
    destruct (get_float (avgEntryPrice pos) (lit 0)); [|discriminate].
    destruct (get_float (unrealisedPnl pos) (lit 0)); [|discriminate].
    apply IH. exact Hscan.
  - apply IH. exact Hscan.
Qed.

(** X1.  Positions that are long or not inverse do not influence the metrics:
    whenever [calculate_metrics] returns, it returns the same metrics on the
    list with those positions removed. *)
Theorem metrics_ignore_long_and_linear_positions
        (cold : F) (account : Account F) (ps : list (Position F))
        (price target threshold : F) (m : Metrics F) :
  calculate_metrics cold account ps price target threshold = Some m ->
  calculate_metrics cold account (List.filter counted ps) price target threshold
  = Some m.
Proof.
  unfold calculate_metrics.
  destruct (get_float (accountEquity account) (lit 0)) as [fut|]; [|discriminate].
  destruct (scan_positions price ps (lit 0) []) as [r|] eqn:Hscan;
    [|discriminate].
  rewrite (scan_positions_ignores_uncounted _ _ _ _ _ Hscan).
  intro Hm. exact Hm.
Qed.

End CalculatorAdjustments.

(** *** Binary64 facts *)

Lemma SFcompare_eq_sym (a b : spec_float) :
  SFcompare a b = Some Eq -> SFcompare b a = Some Eq.
Proof.
  destruct a as [sa | sa | | sa ma ea], b as [sb | sb | | sb mb eb]; cbn;
    try discriminate; try reflexivity;
    try (destruct sa; discriminate); try (destruct sb; discriminate).
  - destruct sa, sb; try discriminate; reflexivity.
  - destruct sa, sb; try discriminate;
      (destruct (ea ?= eb)%Z eqn:He; try discriminate;
       apply Z.compare_eq in He; subst eb; rewrite Z.compare_refl;
       destruct (Pos.compare_cont Eq ma mb) eqn:Hm; try discriminate;
       apply Pos.compare_eq in Hm; subst mb;
       change (Pos.compare_cont Eq ma ma) with (ma ?= ma)%positive;
       rewrite Pos.compare_refl; reflexivity).
Qed.

Lemma binary64_eqb_not_ltb (x y : float) :
  PrimFloat.eqb x y = true -> PrimFloat.ltb y x = false.
Proof.
  rewrite FloatAxioms.eqb_spec, FloatAxioms.ltb_spec.
  unfold SFeqb, SFltb. intro Heq.
  destruct (SFcompare (Prim2SF x) (Prim2SF y)) as [[| |]|] eqn:Hc;
    try discriminate.
  rewrite (SFcompare_eq_sym _ _ Hc). reflexivity.
Qed.

Lemma binary64_to_int_abs_nonneg (x : float) (c : Z) :
  Binary64.to_int (PrimFloat.abs x) = Some c -> 0 <= c.
Proof.
  unfold Binary64.to_int. rewrite FloatAxioms.abs_spec.
  destruct (Prim2SF x) as [s | s | | s m e]; cbn; try discriminate.
  - intro Hc. injection Hc as <-. lia.
  - intro Hc. injection Hc as <-. unfold Binary64.magnitude.
    destruct (0 <=? e) eqn:He.
    + apply Z.shiftl_nonneg. lia.
    + apply Z.shiftr_nonneg. lia.
Qed.

(** X2.  In binary64 the contract count that [calculate_metrics] returns is
    never negative. *)
Theorem contracts_to_adjust_is_nonnegative
        (cold : float) (account : Account float) (ps : list (Position float))
        (price target threshold : float) (m : Metrics float) :
  calculate_metrics cold account ps price target threshold = Some m ->
  0 <= contracts_to_adjust m.
Proof.
  intros Hm.
  destruct (calculate_metrics_adjustments _ _ _ _ _ _ _ Hm)
    as (_ & _ & _ & _ & Hc & _).
  exact (binary64_to_int_abs_nonneg _ _ Hc).
Qed.

(** X3.  In binary64, a deviation whose absolute value equals the threshold
    does not trigger rebalancing: the comparison is strict. *)
Theorem deviation_equal_to_threshold_is_balanced
        (cold : float) (account : Account float) (ps : list (Position float))
        (price target threshold : float) (m : Metrics float) :
  calculate_metrics cold account ps price target threshold = Some m ->
  PrimFloat.eqb (PrimFloat.abs (allocation_deviation m)) threshold = true ->
  needs_rebalancing m = false.
Proof.
  intros Hm Heq.
  destruct (calculate_metrics_allocations _ _ _ _ _ _ _ Hm)
    as (_ & _ & Hneeds & _).
  rewrite Hneeds. unfold gtb. cbn.
  apply binary64_eqb_not_ltb. exact Heq.
Qed.

(* ================================================================== *)
(** * Rounding in binary64

    The error of one binary64 operation, from the Standard Library's
    specification of primitive floats ([SpecFloat]): a result that stays
    within range is a finite number [near] the exact one. *)

(** ** Mantissas *)

Lemma fexp_fexp64 (e : Z) : fexp prec emax e = fexp64 e.
Proof. reflexivity. Qed.

Lemma digits2_pos_bounds (p : positive) :
  2 ^ (Zpos (digits2_pos p) - 1) <= Zpos p < 2 ^ Zpos (digits2_pos p).
Proof.
  induction p as [p IH | p IH |]; cbn [digits2_pos].
  - rewrite Pos2Z.inj_succ.
    replace (Z.succ (Zpos (digits2_pos p)) - 1) with (Z.succ (Zpos (digits2_pos p) - 1)) by lia.
    rewrite !Z.pow_succ_r by lia. lia.
  - rewrite Pos2Z.inj_succ.
    replace (Z.succ (Zpos (digits2_pos p)) - 1) with (Z.succ (Zpos (digits2_pos p) - 1)) by lia.
    rewrite !Z.pow_succ_r by lia. lia.
  - cbn. lia.
Qed.

Lemma Zdigits2_bounds (m : Z) :
  0 < m -> 2 ^ (Zdigits2 m - 1) <= m < 2 ^ Zdigits2 m.
Proof.
  destruct m as [|p|p]; try lia. intros _. apply digits2_pos_bounds.
Qed.

Lemma Zdigits2_nonneg (m : Z) : 0 <= Zdigits2 m.
Proof. destruct m; cbn; lia. Qed.

Lemma Zdigits2_pos (m : Z) : 0 < m -> 0 < Zdigits2 m.
Proof. destruct m; cbn; lia. Qed.

(** One step of [shr] halves the mantissa. *)
Lemma shr_1_m (mrs : shr_record) :
  0 <= shr_m mrs -> shr_m (shr_1 mrs) = shr_m mrs / 2.
Proof.
  destruct mrs as [m r s]. cbn [shr_m shr_1]. intros Hm.
  destruct m as [|[p|p|]|p]; cbn [shr_m]; try lia; try reflexivity.
  - rewrite Pos2Z.inj_xI.
    apply Z.div_unique with (r := 1); lia.
  - rewrite Pos2Z.inj_xO.
    apply Z.div_unique with (r := 0); lia.
Qed.

Lemma iter_pos_shr_1_m (n : positive) :
  forall mrs,
    0 <= shr_m mrs ->
    shr_m (iter_pos shr_1 n mrs) = shr_m mrs / 2 ^ Zpos n.
Proof.
  assert (Hpow : forall k, 0 < 2 ^ Zpos k) by (intros; apply Z.pow_pos_nonneg; lia).
  induction n as [n IH | n IH |]; intros mrs Hm; cbn [iter_pos].
  - assert (H1 : 0 <= shr_m (shr_1 mrs))
      by (rewrite shr_1_m by assumption; apply Z.div_pos; lia).
    assert (H2 : 0 <= shr_m (iter_pos shr_1 n (shr_1 mrs)))
      by (rewrite IH by assumption; apply Z.div_pos; [assumption | apply Hpow]).
    rewrite (IH _ H2), (IH _ H1), shr_1_m by assumption.
    rewrite !Z.div_div by (try apply Hpow; lia).
    f_equal. rewrite (Pos2Z.inj_xI n).
    replace (2 * Zpos n + 1) with (1 + Zpos n + Zpos n) by lia.
    rewrite !Z.pow_add_r by lia. rewrite Z.pow_1_r. lia.
  - assert (H2 : 0 <= shr_m (iter_pos shr_1 n mrs))
      by (rewrite IH by assumption; apply Z.div_pos; [assumption | apply Hpow]).
    rewrite (IH _ H2), (IH _ Hm).
    rewrite !Z.div_div by (try apply Hpow; lia).
    f_equal. rewrite (Pos2Z.inj_xO n).
    replace (2 * Zpos n) with (Zpos n + Zpos n) by lia.
    rewrite !Z.pow_add_r by lia. reflexivity.
  - rewrite shr_1_m by assumption. reflexivity.
Qed.

Lemma shr_record_of_loc_m (m : Z) (l : location) :
  shr_m (shr_record_of_loc m l) = m.
Proof. destruct l as [|[| |]]; reflexivity. Qed.

(** [shr_fexp] truncates: the mantissa it returns is the quotient by a power
    of two and the exponent grows by as much. *)
Lemma shr_fexp_spec (m e : Z) (l : location) :
  0 <= m ->
  let n := fexp64 (Zdigits2 m + e) - e in
  let r := shr_fexp prec emax m e l in
  (n <= 0 -> r = (shr_record_of_loc m l, e))
  /\ (0 < n -> shr_m (fst r) = m / 2 ^ n /\ snd r = e + n).
Proof.
  intros Hm n r. subst n r. unfold shr_fexp.
  change (fexp prec emax (Zdigits2 m + e)) with (fexp64 (Zdigits2 m + e)).
  destruct (fexp64 (Zdigits2 m + e) - e) as [|p|p] eqn:Hn; cbn [shr].
  - split; [reflexivity | lia].
  - split; [lia|]. intros _. cbn [fst snd].
    rewrite iter_pos_shr_1_m by (rewrite shr_record_of_loc_m; exact Hm).
    rewrite shr_record_of_loc_m. split; reflexivity.
  - split; [reflexivity | lia].
Qed.

Lemma round_nearest_even_cases (m : Z) (l : location) :
  round_nearest_even m l = m \/ round_nearest_even m l = m + 1.
Proof.
  destruct l as [|[| |]]; cbn; auto. destruct (Z.even m); auto.
Qed.

Lemma loc_of_shr_record_of_loc (m : Z) (l : location) :
  loc_of_shr_record (shr_record_of_loc m l) = l.
Proof. destruct l as [|[| |]]; reflexivity. Qed.

Section RoundingError.
Local Open Scope Q_scope.

(** ** Values *)

Lemma pow2_pos (e : Z) : 0 < pow2 e.
Proof. apply Qpower_0_lt. reflexivity. Qed.

Lemma pow2_add (a b : Z) : pow2 (a + b) == pow2 a * pow2 b.
Proof. apply Qpower_plus. discriminate. Qed.

Lemma pow2_mono (a b : Z) : (a <= b)%Z -> pow2 a <= pow2 b.
Proof. intros Hab. apply Qpower_le_compat_l; [exact Hab | discriminate]. Qed.

Lemma pow2_Z (n : Z) : (0 <= n)%Z -> pow2 n == inject_Z (2 ^ n).
Proof. intros Hn. unfold pow2. rewrite Zpower_Qpower by exact Hn. reflexivity. Qed.

Lemma scaled_succ (m e : Z) : scaled (m + 1) e == scaled m e + pow2 e.
Proof. unfold scaled. rewrite inject_Z_plus. ring. Qed.

Lemma scaled_nonneg (m e : Z) : (0 <= m)%Z -> 0 <= scaled m e.
Proof.
  intros Hm. unfold scaled. apply Qmult_le_0_compat.
  - change 0 with (inject_Z 0). rewrite <- Zle_Qle. exact Hm.
  - apply Qlt_le_weak, pow2_pos.
Qed.

Lemma scaled_mono (m m' e : Z) : (m <= m')%Z -> scaled m e <= scaled m' e.
Proof.
  intros Hm. unfold scaled. apply Qmult_le_compat_r.
  - rewrite <- Zle_Qle. exact Hm.
  - apply Qlt_le_weak, pow2_pos.
Qed.

Lemma scaled_shift (m e n : Z) :
  (0 <= n)%Z -> scaled (m * 2 ^ n) e == scaled m (e + n).
Proof.
  intros Hn. unfold scaled. rewrite inject_Z_mult, pow2_add, <- pow2_Z by exact Hn.
  ring.
Qed.

Lemma bracket_shift (m e n : Z) (x : Q) :
  (0 <= m)%Z -> (0 < n)%Z -> Bracket m e x -> Bracket (m / 2 ^ n) (e + n) x.
Proof.
  intros Hm Hn [Hlo Hhi].
  assert (Hpow : (0 < 2 ^ n)%Z) by (apply Z.pow_pos_nonneg; lia).
  pose proof (Z.mul_div_le m (2 ^ n) Hpow) as Hq1.
  pose proof (Z.mul_succ_div_gt m (2 ^ n) Hpow) as Hq2.
  split.
  - rewrite <- scaled_shift by lia.
    eapply Qle_trans; [|exact Hlo]. apply scaled_mono. lia.
  - rewrite <- scaled_shift by lia.
    eapply Qlt_le_trans; [exact Hhi|]. apply scaled_mono. lia.
Qed.

(** After a shift to the exponent [fexp] asks for, one unit in the last place
    is small against the number. *)
Lemma ulp_after_shift (m e : Z) :
  (0 <= m)%Z ->
  (e < fexp64 (Zdigits2 m + e))%Z ->
  pow2 (fexp64 (Zdigits2 m + e)) <= eps0 * scaled m e + eta0.
Proof.
  intros Hm Hshift.
  pose proof (scaled_nonneg m e Hm) as Hs.
  pose proof (pow2_pos (-52)) as He. pose proof (pow2_pos (-1074)) as Hn.
  unfold eps0, eta0.
  assert (Hprod : 0 <= pow2 (-52) * scaled m e)
    by (apply Qmult_le_0_compat; [apply Qlt_le_weak; exact He | exact Hs]).
  unfold fexp64 in *.
  destruct (Z.max_spec (Zdigits2 m + e - 53) (-1074)) as [[Hlt ->] | [Hge ->]].
  - lra.
  - destruct (Z.eq_dec m 0) as [-> | Hne]; [cbn in *; lia|].
    assert (Hpos : (0 < m)%Z) by lia.
    pose proof (Zdigits2_bounds m Hpos) as [Hlow _].
    pose proof (Zdigits2_pos m Hpos) as Hd.
    replace (Zdigits2 m + e - 53)%Z with (-52 + ((Zdigits2 m - 1) + e))%Z by lia.
    rewrite pow2_add, pow2_add.
    rewrite (pow2_Z (Zdigits2 m - 1)) by lia.
    assert (Hle : inject_Z (2 ^ (Zdigits2 m - 1)) * pow2 e <= scaled m e).
    { unfold scaled. apply Qmult_le_compat_r.
      - rewrite <- Zle_Qle. exact Hlow.
      - apply Qlt_le_weak, pow2_pos. }
    assert (Hmul : pow2 (-52) * (inject_Z (2 ^ (Zdigits2 m - 1)) * pow2 e)
                   <= pow2 (-52) * scaled m e).
    { rewrite !(Qmult_comm (pow2 (-52))).
      apply Qmult_le_compat_r; [exact Hle | apply Qlt_le_weak; exact He]. }
    lra.
Qed.

(** ** The rounding step of every operation *)

Lemma bracket_self (m e : Z) : Bracket m e (scaled m e).
Proof.
  split; [apply Qle_refl|]. rewrite scaled_succ.
  pose proof (pow2_pos e). lra.
Qed.

Lemma shr_fexp_step (m e : Z) (l : location) (x : Q) :
  (0 <= m)%Z -> Bracket m e x ->
  exists rec e1,
    shr_fexp prec emax m e l = (rec, e1)
    /\ (0 <= shr_m rec)%Z
    /\ Bracket (shr_m rec) e1 x
    /\ ((fexp64 (Zdigits2 m + e) <= e)%Z
        /\ rec = shr_record_of_loc m l /\ e1 = e
        \/ (e < fexp64 (Zdigits2 m + e))%Z
           /\ e1 = fexp64 (Zdigits2 m + e)).
Proof.
  intros Hm Hx.
  destruct (shr_fexp_spec m e l Hm) as [Hstay Hshift].
  destruct (shr_fexp prec emax m e l) as [rec e1] eqn:Hr.
  exists rec, e1. split; [reflexivity|].
  destruct (Z_le_gt_dec (fexp64 (Zdigits2 m + e) - e) 0) as [Hle | Hgt].
  - specialize (Hstay Hle). injection Hstay as -> ->.
    rewrite shr_record_of_loc_m.
    split; [exact Hm|]. split; [exact Hx|]. left. split; [lia | auto].
  - assert (Hpos : (0 < fexp64 (Zdigits2 m + e) - e)%Z) by lia.
    destruct (Hshift Hpos) as [Hmant Hexp]. cbn [fst snd] in *.
    rewrite Hmant. split; [|split].
    + apply Z.div_pos; [exact Hm | apply Z.pow_pos_nonneg; lia].
    + replace e1 with (e + (fexp64 (Zdigits2 m + e) - e))%Z by lia.
      apply bracket_shift; assumption.
    + right. split; lia.
Qed.

Lemma bracket_endpoint (m e mr : Z) (x : Q) :
  Bracket m e x -> mr = m \/ mr = (m + 1)%Z ->
  Qabs (scaled mr e - x) <= pow2 e.
Proof.
  intros [Hlo Hhi] Hmr. rewrite scaled_succ in Hhi.
  pose proof (pow2_pos e) as Hp.
  apply Qabs_Qle_condition.
  destruct Hmr as [-> | ->]; [|rewrite scaled_succ]; split; lra.
Qed.

Lemma tiny_facts :
  0 < eps0 /\ eps0 <= 1 /\ 0 < eta0
  /\ 4 * eps0 == pow2 (-50) /\ 4 * eta0 == pow2 (-1072)
  /\ eps0 * eps0 <= eps0 /\ eps0 * eta0 <= eta0
  /\ pow2 (-1072) <= pow2 970 /\ pow2 (-50) <= 1
  /\ pow2 972 == 4 * pow2 970.
Proof.
  assert (H4 : forall e, 4 * pow2 e == pow2 (e + 2)).
  { intros e. rewrite pow2_add. change (pow2 2) with (4 # 1). ring. }
  assert (H1 : forall e, (e <= 0)%Z -> pow2 e <= 1).
  { intros e He. change 1 with (pow2 0). apply pow2_mono. exact He. }
  pose proof (pow2_pos (-52)) as Heps. pose proof (pow2_pos (-1074)) as Heta.
  pose proof (H1 (-52)%Z ltac:(lia)) as Hle.
  unfold eps0, eta0.
  assert (G1 : 4 * pow2 (-52) == pow2 (-50)) by (rewrite H4; reflexivity).
  assert (G2 : 4 * pow2 (-1074) == pow2 (-1072)) by (rewrite H4; reflexivity).
  assert (G3 : pow2 (-52) * pow2 (-52) <= pow2 (-52)).
  { rewrite <- (Qmult_1_l (pow2 (-52))) at 3.
    apply Qmult_le_compat_r; [exact Hle | lra]. }
  assert (G4 : pow2 (-52) * pow2 (-1074) <= pow2 (-1074)).
  { rewrite <- (Qmult_1_l (pow2 (-1074))) at 2.
    apply Qmult_le_compat_r; [exact Hle | lra]. }
  assert (G5 : pow2 (-1072) <= pow2 970) by (apply pow2_mono; lia).
  assert (G6 : pow2 (-50) <= 1) by (apply H1; lia).
  assert (G7 : pow2 972 == 4 * pow2 970) by (rewrite H4; reflexivity).
  repeat split; assumption.
Qed.

(** What [binary_round_aux] returns for a number [x >= 0] that lies in the
    cell of [mx] at [ex]: a zero or a finite value whose magnitude is [x] up
    to the relative error [2^-50] and the absolute error [2^-1072].  The cell
    has to be fine enough, or the location exact and no shift needed. *)
Lemma round_aux_error (sx : bool) (mx ex : Z) (lx : location) (x : Q) :
  (0 <= mx)%Z ->
  Bracket mx ex x ->
  (lx = loc_Exact /\ x == scaled mx ex) \/ pow2 ex <= eps0 * x + eta0 ->
  x <= pow2 970 ->
  exists R,
    magnitude_of sx (binary_round_aux prec emax sx mx ex lx) R
    /\ Qabs (R - x) <= pow2 (-50) * x + pow2 (-1072).
Proof.
  intros Hmx Hx Hfine Hbig.
  destruct tiny_facts as (Heps & Heps1 & Heta & H4eps & H4eta & Hee & Hen
                          & Hsmall & Hp50 & H972).
  assert (Hx0 : 0 <= x).
  { destruct Hx as [Hlo _]. pose proof (scaled_nonneg mx ex Hmx). lra. }
  assert (Hex : 0 <= eps0 * x) by (apply Qmult_le_0_compat; lra).
  (* first truncation *)
  destruct (shr_fexp_step mx ex lx x Hmx Hx)
    as (rec1 & e1 & Hstep1 & Hm1 & Hx1 & Hcase1).
  set (mr := round_nearest_even (shr_m rec1) (loc_of_shr_record rec1)).
  assert (Hmr : mr = shr_m rec1 \/ mr = (shr_m rec1 + 1)%Z)
    by apply round_nearest_even_cases.
  assert (Hmr0 : (0 <= mr)%Z) by lia.
  assert (Herr1 : Qabs (scaled mr e1 - x) <= eps0 * x + eta0).
  { destruct Hcase1 as [(Hstay & -> & ->) | (Hshift & ->)].
    - destruct Hfine as [(-> & Hexact) | Hfine].
      + subst mr. cbn [shr_record_of_loc shr_m loc_of_shr_record
                       round_nearest_even].
        setoid_replace (scaled mx ex - x) with 0 by (rewrite Hexact; ring).
        change (Qabs 0) with 0. lra.
      + eapply Qle_trans; [apply (bracket_endpoint _ _ _ _ Hx1 Hmr)|].
        exact Hfine.
    - eapply Qle_trans; [apply (bracket_endpoint _ _ _ _ Hx1 Hmr)|].
      eapply Qle_trans; [apply (ulp_after_shift mx ex Hmx Hshift)|].
      destruct Hx as [Hlo _].
      assert (eps0 * scaled mx ex <= eps0 * x).
      { rewrite !(Qmult_comm eps0). apply Qmult_le_compat_r; lra. }
      lra. }
  (* second truncation *)
  destruct (shr_fexp_step mr e1 loc_Exact (scaled mr e1) Hmr0
                          (bracket_self mr e1))
    as (rec2 & e2 & Hstep2 & Hm2 & Hx2 & Hcase2).
  assert (Herr2 : 0 <= scaled mr e1 - scaled (shr_m rec2) e2
                  /\ scaled mr e1 - scaled (shr_m rec2) e2
                     <= eps0 * scaled mr e1 + eta0).
  { pose proof (scaled_nonneg mr e1 Hmr0) as Hs.
    assert (0 <= eps0 * scaled mr e1) by (apply Qmult_le_0_compat; lra).
    destruct Hcase2 as [(Hstay & -> & ->) | (Hshift & ->)].
    - cbn [shr_record_of_loc shr_m]. split; lra.
    - destruct Hx2 as [Hlo Hhi]. rewrite scaled_succ in Hhi.
      pose proof (ulp_after_shift mr e1 Hmr0 Hshift). split; lra. }
  assert (Hs1 : scaled mr e1 <= x + (eps0 * x + eta0)).
  { apply Qabs_Qle_condition in Herr1. lra. }
  assert (Hprod : eps0 * scaled mr e1 <= eps0 * (x + (eps0 * x + eta0))).
  { rewrite !(Qmult_comm eps0). apply Qmult_le_compat_r; lra. }
  assert (Hee' : eps0 * (eps0 * x) <= eps0 * x).
  { rewrite Qmult_assoc.
    apply Qmult_le_compat_r; [exact Hee | exact Hx0]. }
  assert (Htotal : Qabs (scaled (shr_m rec2) e2 - x)
                   <= pow2 (-50) * x + pow2 (-1072)).
  { apply Qabs_Qle_condition in Herr1. apply Qabs_Qle_condition.
    rewrite <- H4eps, <- H4eta.
    assert (eps0 * (x + (eps0 * x + eta0))
            == eps0 * x + eps0 * (eps0 * x) + eps0 * eta0) by ring.
    split; lra. }
  (* the result *)
  exists (scaled (shr_m rec2) e2). split; [|exact Htotal].
  unfold binary_round_aux. rewrite Hstep1. fold mr. rewrite Hstep2.
  destruct (shr_m rec2) as [|m2|m2] eqn:Hm2eq; [| |lia].
  - left. split; [reflexivity|]. unfold scaled. ring.
  - right. destruct (Z.leb_spec e2 (emax - prec)) as [Hfits | Hover].
    + exists m2, e2. split; reflexivity.
    + exfalso.
      assert (Hlarge : pow2 972 <= scaled (Zpos m2) e2).
      { eapply Qle_trans; [apply (pow2_mono 972 e2)|].
        - change (emax - prec)%Z with 971%Z in Hover. lia.
        - unfold scaled. rewrite <- (Qmult_1_l (pow2 e2)) at 1.
          apply Qmult_le_compat_r; [|apply Qlt_le_weak, pow2_pos].
          change 1 with (inject_Z 1). rewrite <- Zle_Qle. lia. }
      apply Qabs_Qle_condition in Htotal.
      assert (pow2 (-50) * x <= x).
      { rewrite <- (Qmult_1_l x) at 2.
        apply Qmult_le_compat_r; [exact Hp50 | exact Hx0]. }
      pose proof (pow2_pos 970). lra.
Qed.

(** ** The value of a binary64 number *)

#[global] Instance signed_proper (s : bool) : Proper (Qeq ==> Qeq) (signed s).
Proof. intros a b Hab. destruct s; cbn; rewrite Hab; reflexivity. Qed.

#[global] Instance near_proper : Proper (Qeq ==> Qeq ==> iff) near.
Proof. intros a b Hab c d Hcd. unfold near. rewrite Hab, Hcd. reflexivity. Qed.

Lemma Qabs_signed (s : bool) (q : Q) : Qabs (signed s q) == Qabs q.
Proof. destruct s; cbn; [apply Qabs_opp | reflexivity]. Qed.

Lemma signed_minus (s : bool) (a b : Q) :
  signed s a - signed s b == signed s (a - b).
Proof. destruct s; cbn; ring. Qed.

Lemma signed_mult (s t : bool) (a b : Q) :
  signed s a * signed t b == signed (xorb s t) (a * b).
Proof. destruct s, t; cbn; ring. Qed.

Lemma near_exact (x : Q) : near x x.
Proof.
  unfold near. setoid_replace (x - x) with 0 by ring. change (Qabs 0) with 0.
  pose proof (pow2_pos (-50)). pose proof (pow2_pos (-1072)).
  pose proof (Qabs_nonneg x).
  assert (0 <= pow2 (-50) * Qabs x) by (apply Qmult_le_0_compat; lra).
  lra.
Qed.

(** From the magnitude to the value. *)
Lemma rounded_value (sx : bool) (r : spec_float) (R X exact : Q) :
  magnitude_of sx r R ->
  Qabs (R - X) <= pow2 (-50) * X + pow2 (-1072) ->
  0 <= X ->
  exact == signed sx X ->
  exists v, value_of r = Some v /\ near exact v.
Proof.
  intros Hr Herr HX Hexact. unfold near.
  assert (Habs : Qabs exact == X)
    by (rewrite Hexact, Qabs_signed; apply Qabs_pos; exact HX).
  destruct Hr as [(-> & HR) | (m & e & -> & HR)]; cbn [value_of].
  - eexists. split; [reflexivity|]. rewrite Habs.
    rewrite HR in Herr.
    setoid_replace (0 - exact) with (- exact) by ring.
    rewrite Qabs_opp, Habs.
    setoid_replace (0 - X) with (- X) in Herr by ring.
    rewrite Qabs_opp, (Qabs_pos X HX) in Herr. exact Herr.
  - eexists. split; [reflexivity|]. rewrite Habs.
    rewrite Hexact, signed_minus, Qabs_signed, <- HR. exact Herr.
Qed.

(** *** Multiplication *)

Lemma scaled_mult (m1 e1 m2 e2 : Z) :
  scaled m1 e1 * scaled m2 e2 == scaled (m1 * m2) (e1 + e2).
Proof. unfold scaled. rewrite inject_Z_mult, pow2_add. ring. Qed.

(** A product within range is finite and near the exact product. *)
Lemma SFmul_error (x y : spec_float) (vx vy : Q) :
  value_of x = Some vx -> value_of y = Some vy ->
  Qabs (vx * vy) <= pow2 970 ->
  exists v, value_of (SFmul prec emax x y) = Some v /\ near (vx * vy) v.
Proof.
  intros Hx Hy Hbig.
  destruct x as [sx | sx | | sx mx ex]; try discriminate Hx;
    destruct y as [sy | sy | | sy my ey]; try discriminate Hy;
    cbn in Hx, Hy; injection Hx as <-; injection Hy as <-; cbn [SFmul].
  - exists 0. split; [reflexivity|].
    setoid_replace (0 * 0) with 0 by ring. apply near_exact.
  - exists 0. split; [reflexivity|].
    setoid_replace (0 * signed sy (scaled (Zpos my) ey)) with 0 by ring.
    apply near_exact.
  - exists 0. split; [reflexivity|].
    setoid_replace (signed sx (scaled (Zpos mx) ex) * 0) with 0 by ring.
    apply near_exact.
  - rewrite signed_mult, scaled_mult in Hbig.
    rewrite Qabs_signed in Hbig.
    assert (HX : 0 <= scaled (Zpos mx * Zpos my) (ex + ey))
      by (apply scaled_nonneg; lia).
    rewrite (Qabs_pos _ HX) in Hbig.
    destruct (round_aux_error (xorb sx sy) (Zpos (mx * my)) (ex + ey)
                loc_Exact (scaled (Zpos mx * Zpos my) (ex + ey)))
      as (R & HR & Herr).
    + lia.
    + rewrite Pos2Z.inj_mul. apply bracket_self.
    + left. split; [reflexivity|]. rewrite Pos2Z.inj_mul. reflexivity.
    + exact Hbig.
    + apply (rounded_value _ _ R _ _ HR Herr HX).
      rewrite signed_mult, scaled_mult. reflexivity.
Qed.

(** *** Addition and subtraction *)

Lemma iter_xO_value (m d : positive) :
  Zpos (Pos.iter xO m d) = (Zpos m * 2 ^ Zpos d)%Z.
Proof.
  induction d as [|d IH] using Pos.peano_ind.
  - cbn. lia.
  - rewrite Pos.iter_succ, Pos2Z.inj_xO, IH, Pos2Z.inj_succ, Z.pow_succ_r by lia.
    lia.
Qed.

Lemma shl_align_fst (mx : positive) (ex ez : Z) :
  (ez <= ex)%Z ->
  Zpos (fst (shl_align mx ex ez)) = (Zpos mx * 2 ^ (ex - ez))%Z.
Proof.
  intros Hle. unfold shl_align.
  destruct (ez - ex)%Z as [|d|d] eqn:Hd; cbn [fst].
  - replace (ex - ez)%Z with 0%Z by lia. cbn. lia.
  - lia.
  - rewrite iter_xO_value. f_equal. f_equal. lia.
Qed.

Lemma shl_align_value (mx : positive) (ex ex' : Z) :
  scaled (Zpos (fst (shl_align mx ex ex'))) (snd (shl_align mx ex ex'))
  == scaled (Zpos mx) ex.
Proof.
  unfold shl_align.
  destruct (ex' - ex)%Z as [|d|d] eqn:Hd; cbn [fst snd]; try reflexivity.
  rewrite iter_xO_value, scaled_shift by lia.
  replace (ex' + Zpos d)%Z with ex by lia. reflexivity.
Qed.

Lemma binary_round_error (sx : bool) (mx : positive) (ex : Z) :
  scaled (Zpos mx) ex <= pow2 970 ->
  exists R,
    magnitude_of sx (binary_round prec emax sx mx ex) R
    /\ Qabs (R - scaled (Zpos mx) ex)
       <= pow2 (-50) * scaled (Zpos mx) ex + pow2 (-1072).
Proof.
  intros Hbig. unfold binary_round.
  pose proof (shl_align_value mx ex
                (fexp prec emax (Zpos (digits2_pos mx) + ex))) as Hv.
  destruct (shl_align mx ex (fexp prec emax (Zpos (digits2_pos mx) + ex)))
    as [mz ez]. cbn [fst snd] in Hv.
  destruct (round_aux_error sx (Zpos mz) ez loc_Exact (scaled (Zpos mz) ez))
    as (R & HR & Herr).
  - lia.
  - apply bracket_self.
  - left. split; reflexivity.
  - rewrite Hv. exact Hbig.
  - exists R. split; [exact HR|]. rewrite Hv in Herr. exact Herr.
Qed.

Lemma scaled_opp (m e : Z) : scaled (- m) e == - scaled m e.
Proof. unfold scaled. rewrite inject_Z_opp. ring. Qed.

Lemma binary_normalize_error (m e : Z) :
  Qabs (scaled m e) <= pow2 970 ->
  exists v,
    value_of (binary_normalize prec emax m e false) = Some v
    /\ near (scaled m e) v.
Proof.
  intros Hbig. destruct m as [|p|p]; cbn [binary_normalize].
  - exists 0. split; [reflexivity|].
    setoid_replace (scaled 0 e) with 0 by (unfold scaled; ring).
    apply near_exact.
  - assert (HX : 0 <= scaled (Zpos p) e) by (apply scaled_nonneg; lia).
    rewrite (Qabs_pos _ HX) in Hbig.
    destruct (binary_round_error false p e Hbig) as (R & HR & Herr).
    apply (rounded_value _ _ R _ _ HR Herr HX). reflexivity.
  - assert (HX : 0 <= scaled (Zpos p) e) by (apply scaled_nonneg; lia).
    assert (Hneg : scaled (Zneg p) e == - scaled (Zpos p) e)
      by (change (Zneg p) with (- Zpos p)%Z; apply scaled_opp).
    rewrite Hneg, Qabs_opp, (Qabs_pos _ HX) in Hbig.
    destruct (binary_round_error true p e Hbig) as (R & HR & Herr).
    apply (rounded_value _ _ R _ _ HR Herr HX). exact Hneg.
Qed.

Lemma aligned_value (s : bool) (m : positive) (e ez : Z) :
  (ez <= e)%Z ->
  scaled (cond_Zopp s (Zpos (fst (shl_align m e ez)))) ez
  == signed s (scaled (Zpos m) e).
Proof.
  intros Hle. rewrite shl_align_fst by exact Hle.
  assert (Hs : scaled (Zpos m * 2 ^ (e - ez)) ez == scaled (Zpos m) e).
  { rewrite scaled_shift by lia. replace (ez + (e - ez))%Z with e by lia.
    reflexivity. }
  destruct s; cbn [cond_Zopp signed].
  - rewrite scaled_opp, Hs. reflexivity.
  - exact Hs.
Qed.

Lemma scaled_plus (a b e : Z) : scaled (a + b) e == scaled a e + scaled b e.
Proof. unfold scaled. rewrite inject_Z_plus. ring. Qed.

Lemma scaled_minus (a b e : Z) : scaled (a - b) e == scaled a e - scaled b e.
Proof. unfold scaled, Z.sub. rewrite inject_Z_plus, inject_Z_opp. ring. Qed.

Lemma near_of_eq (x y v : Q) : x == y -> near y v -> near x v.
Proof. intros ->. auto. Qed.

(** A sum within range is finite and near the exact sum. *)
Lemma SFadd_error (x y : spec_float) (vx vy : Q) :
  value_of x = Some vx -> value_of y = Some vy ->
  Qabs (vx + vy) <= pow2 970 ->
  exists v, value_of (SFadd prec emax x y) = Some v /\ near (vx + vy) v.
Proof.
  intros Hx Hy Hbig.
  destruct x as [sx | sx | | sx mx ex]; try discriminate Hx;
    destruct y as [sy | sy | | sy my ey]; try discriminate Hy;
    cbn in Hx, Hy; injection Hx as <-; injection Hy as <-; cbn [SFadd].
  - exists 0. split; [destruct sx, sy; reflexivity|].
    apply (near_of_eq _ 0); [ring | apply near_exact].
  - eexists. split; [reflexivity|].
    apply (near_of_eq _ (signed sy (scaled (Zpos my) ey)));
      [ring | apply near_exact].
  - eexists. split; [reflexivity|].
    apply (near_of_eq _ (signed sx (scaled (Zpos mx) ex)));
      [ring | apply near_exact].
  - assert (Hsum :
      scaled (cond_Zopp sx (Zpos (fst (shl_align mx ex (Z.min ex ey))))
              + cond_Zopp sy (Zpos (fst (shl_align my ey (Z.min ex ey)))))
             (Z.min ex ey)
      == signed sx (scaled (Zpos mx) ex) + signed sy (scaled (Zpos my) ey)).
    { rewrite scaled_plus, !aligned_value by lia. reflexivity. }
    rewrite <- Hsum in Hbig.
    destruct (binary_normalize_error _ _ Hbig) as (v & Hv & Hnear).
    exists v. split; [exact Hv|].
    apply (near_of_eq _ _ _ (Qeq_sym _ _ Hsum)). exact Hnear.
Qed.

(** A difference within range is finite and near the exact difference. *)
Lemma SFsub_error (x y : spec_float) (vx vy : Q) :
  value_of x = Some vx -> value_of y = Some vy ->
  Qabs (vx - vy) <= pow2 970 ->
  exists v, value_of (SFsub prec emax x y) = Some v /\ near (vx - vy) v.
Proof.
  intros Hx Hy Hbig.
  destruct x as [sx | sx | | sx mx ex]; try discriminate Hx;
    destruct y as [sy | sy | | sy my ey]; try discriminate Hy;
    cbn in Hx, Hy; injection Hx as <-; injection Hy as <-; cbn [SFsub].
  - exists 0. split; [destruct sx, sy; reflexivity|].
    apply (near_of_eq _ 0); [ring | apply near_exact].
  - eexists. split; [reflexivity|].
    apply (near_of_eq _ (signed (negb sy) (scaled (Zpos my) ey)));
      [destruct sy; cbn; ring | apply near_exact].
  - eexists. split; [reflexivity|].
    apply (near_of_eq _ (signed sx (scaled (Zpos mx) ex)));
      [ring | apply near_exact].
  - assert (Hdiff :
      scaled (cond_Zopp sx (Zpos (fst (shl_align mx ex (Z.min ex ey))))
              - cond_Zopp sy (Zpos (fst (shl_align my ey (Z.min ex ey)))))
             (Z.min ex ey)
      == signed sx (scaled (Zpos mx) ex) - signed sy (scaled (Zpos my) ey)).
    { rewrite scaled_minus, !aligned_value by lia. reflexivity. }
    rewrite <- Hdiff in Hbig.
    destruct (binary_normalize_error _ _ Hbig) as (v & Hv & Hnear).
    exists v. split; [exact Hv|].
    apply (near_of_eq _ _ _ (Qeq_sym _ _ Hdiff)). exact Hnear.
Qed.

(** *** Division *)

Lemma scaled_lt (m m' e : Z) : (m < m')%Z -> scaled m e < scaled m' e.
Proof.
  intros Hlt.
  apply Qlt_le_trans with (scaled (m + 1) e).
  - rewrite scaled_succ. pose proof (pow2_pos e). lra.
  - apply scaled_mono. lia.
Qed.

Lemma scaled_pow2 (n e : Z) : (0 <= n)%Z -> scaled (2 ^ n) e == pow2 (n + e).
Proof.
  intros Hn. unfold scaled. rewrite <- (pow2_Z n Hn), pow2_add. reflexivity.
Qed.

Lemma scaled_pos (m e : Z) : (0 < m)%Z -> 0 < scaled m e.
Proof.
  intros Hm. apply Qlt_le_trans with (scaled 1 e).
  - unfold scaled. change (inject_Z 1) with 1. pose proof (pow2_pos e). lra.
  - apply scaled_mono. lia.
Qed.

Lemma quotient_magnitude (m1 m2 : positive) (e1 e2 : Z) :
  pow2 (Zdigits2 (Zpos m1) + e1 - (Zdigits2 (Zpos m2) + e2) - 1)
  <= scaled (Zpos m1) e1 / scaled (Zpos m2) e2.
Proof.
  pose proof (Zdigits2_bounds (Zpos m1) eq_refl) as [H1 _].
  pose proof (Zdigits2_bounds (Zpos m2) eq_refl) as [_ H2].
  pose proof (Zdigits2_pos (Zpos m1) eq_refl) as Hd1.
  pose proof (Zdigits2_pos (Zpos m2) eq_refl) as Hd2.
  set (d1 := Zdigits2 (Zpos m1)) in *. set (d2 := Zdigits2 (Zpos m2)) in *.
  apply Qle_shift_div_l; [apply scaled_pos; lia|].
  apply Qle_trans with (pow2 (d1 + e1 - (d2 + e2) - 1) * pow2 (d2 + e2)).
  - apply Qmult_le_l; [apply pow2_pos|].
    rewrite <- scaled_pow2 by lia. apply scaled_mono. lia.
  - rewrite <- pow2_add.
    replace (d1 + e1 - (d2 + e2) - 1 + (d2 + e2))%Z with (d1 - 1 + e1)%Z by lia.
    rewrite <- scaled_pow2 by lia. apply scaled_mono. exact H1.
Qed.

(** The integer quotient that [SFdiv] rounds brackets the exact quotient, in
    a cell that is fine enough. *)
Lemma SFdiv_core_bracket (m1 m2 : positive) (e1 e2 : Z) :
  let r := SFdiv_core_binary prec emax (Zpos m1) e1 (Zpos m2) e2 in
  let X := scaled (Zpos m1) e1 / scaled (Zpos m2) e2 in
  (0 <= fst (fst r))%Z
  /\ Bracket (fst (fst r)) (snd (fst r)) X
  /\ pow2 (snd (fst r)) <= eps0 * X + eta0.
Proof.
  cbv zeta. unfold SFdiv_core_binary.
  change (fexp prec emax ?e) with (fexp64 e).
  set (D := (Zdigits2 (Zpos m1) + e1 - (Zdigits2 (Zpos m2) + e2))%Z).
  set (e' := Z.min (fexp64 D) (e1 - e2)).
  set (s := (e1 - e2 - e')%Z).
  assert (Hs : (0 <= s)%Z) by (unfold s, e'; lia).
  set (m' := match s with
             | Zpos _ => Z.shiftl (Zpos m1) s
             | Z0 => Zpos m1
             | Zneg _ => 0%Z
             end).
  assert (Hm' : m' = (Zpos m1 * 2 ^ s)%Z).
  { unfold m'. destruct s as [|p|p] eqn:Es.
    - cbn. lia.
    - rewrite Z.shiftl_mul_pow2 by lia. reflexivity.
    - lia. }
  pose proof (Z_div_mod m' (Zpos m2) eq_refl) as Hdiv.
  destruct (Z.div_eucl m' (Zpos m2)) as [q r]. cbn [fst snd].
  destruct Hdiv as [Heq Hr].
  assert (Hpow : (0 < 2 ^ s)%Z) by (apply Z.pow_pos_nonneg; lia).
  assert (Hm'pos : (0 < m')%Z) by (rewrite Hm'; lia).
  assert (Hq : (0 <= q)%Z) by nia.
  assert (Hden : 0 < scaled (Zpos m2) e2) by (apply scaled_pos; lia).
  assert (Hnum : scaled (Zpos m1) e1 == scaled m' (e' + e2)).
  { rewrite Hm', scaled_shift by exact Hs.
    replace (e' + e2 + s)%Z with e1 by (unfold s; lia). reflexivity. }
  pose proof (quotient_magnitude m1 m2 e1 e2) as Hmag. fold D in Hmag.
  split; [exact Hq|]. split; [split|].
  - apply Qle_shift_div_l; [exact Hden|].
    rewrite scaled_mult, Hnum. apply scaled_mono. nia.
  - apply Qlt_shift_div_r; [exact Hden|].
    rewrite scaled_mult, Hnum. apply scaled_lt. nia.
  - apply Qle_trans with (pow2 (fexp64 D)); [apply pow2_mono; unfold e'; lia|].
    pose proof (pow2_pos (D - 1)) as HposD.
    unfold fexp64. destruct (Z.max_spec (D - 53) (-1074)) as [[_ ->] | [_ ->]].
    + unfold eta0, eps0.
      assert (0 <= pow2 (-52) * (scaled (Zpos m1) e1 / scaled (Zpos m2) e2)).
      { apply Qmult_le_0_compat; [apply Qlt_le_weak, pow2_pos | lra]. }
      lra.
    + replace (D - 53)%Z with (-52 + (D - 1))%Z by lia.
      rewrite pow2_add. unfold eps0.
      assert (pow2 (-52) * pow2 (D - 1)
              <= pow2 (-52) * (scaled (Zpos m1) e1 / scaled (Zpos m2) e2)).
      { apply Qmult_le_l; [apply pow2_pos | exact Hmag]. }
      pose proof (pow2_pos (-1074)). unfold eta0. lra.
Qed.

Lemma signed_div (s t : bool) (a b : Q) :
  signed s a / signed t b == signed (xorb s t) (a / b).
Proof.
  destruct (Qeq_dec b 0) as [Hb | Hb].
  - destruct s, t; cbn; rewrite ?Hb; unfold Qdiv;
      repeat (setoid_replace (/ - 0) with 0 by reflexivity);
      repeat (setoid_replace (/ 0) with 0 by reflexivity); ring.
  - destruct s, t; cbn; field; exact Hb.
Qed.

(** A quotient within range by a number that is not zero is finite and near
    the exact quotient. *)
Lemma SFdiv_error (x y : spec_float) (vx vy : Q) :
  value_of x = Some vx -> value_of y = Some vy ->
  ~ vy == 0 ->
  Qabs (vx / vy) <= pow2 970 ->
  exists v, value_of (SFdiv prec emax x y) = Some v /\ near (vx / vy) v.
Proof.
  intros Hx Hy Hnz Hbig.
  destruct x as [sx | sx | | sx mx ex]; try discriminate Hx;
    destruct y as [sy | sy | | sy my ey]; try discriminate Hy;
    cbn in Hx, Hy; injection Hx as <-; injection Hy as <-; cbn [SFdiv].
  - exfalso. apply Hnz. reflexivity.
  - exists 0. split; [reflexivity|].
    apply (near_of_eq _ 0); [unfold Qdiv; ring | apply near_exact].
  - exfalso. apply Hnz. reflexivity.
  - pose proof (SFdiv_core_bracket mx my ex ey) as Hcore. cbv zeta in Hcore.
    destruct (SFdiv_core_binary prec emax (Zpos mx) ex (Zpos my) ey)
      as [[mz ez] lz]. cbn [fst snd] in Hcore.
    destruct Hcore as (Hmz & Hbr & Hfine).
    rewrite signed_div, Qabs_signed in Hbig.
    assert (HX : 0 <= scaled (Zpos mx) ex / scaled (Zpos my) ey).
    { apply Qle_shift_div_l; [apply scaled_pos; lia|].
      rewrite Qmult_0_l. apply scaled_nonneg. lia. }
    rewrite (Qabs_pos _ HX) in Hbig.
    destruct (round_aux_error (xorb sx sy) mz ez lz _ Hmz Hbr (or_intror Hfine) Hbig)
      as (R & HR & Herr).
    apply (rounded_value _ _ R _ _ HR Herr HX).
    apply signed_div.
Qed.

(** *** Primitive floats *)

Lemma mul_value (x y : float) (vx vy : Q) :
  value x = Some vx -> value y = Some vy ->
  Qabs (vx * vy) <= pow2 970 ->
  exists v, value (x * y)%float = Some v /\ near (vx * vy) v.
Proof. unfold value. rewrite FloatAxioms.mul_spec. apply SFmul_error. Qed.

Lemma add_value (x y : float) (vx vy : Q) :
  value x = Some vx -> value y = Some vy ->
  Qabs (vx + vy) <= pow2 970 ->
  exists v, value (x + y)%float = Some v /\ near (vx + vy) v.
Proof. unfold value. rewrite FloatAxioms.add_spec. apply SFadd_error. Qed.

Lemma sub_value (x y : float) (vx vy : Q) :
  value x = Some vx -> value y = Some vy ->
  Qabs (vx - vy) <= pow2 970 ->
  exists v, value (x - y)%float = Some v /\ near (vx - vy) v.
Proof. unfold value. rewrite FloatAxioms.sub_spec. apply SFsub_error. Qed.

Lemma div_value (x y : float) (vx vy : Q) :
  value x = Some vx -> value y = Some vy ->
  ~ vy == 0 ->
  Qabs (vx / vy) <= pow2 970 ->
  exists v, value (x / y)%float = Some v /\ near (vx / vy) v.
Proof. unfold value. rewrite FloatAxioms.div_spec. apply SFdiv_error. Qed.

(** A number whose value is positive passes the test [0 < x]. *)
Lemma positive_value (x : float) (v : Q) :
  value x = Some v -> 0 < v -> PrimFloat.ltb 0%float x = true.
Proof.
  unfold value. rewrite FloatAxioms.ltb_spec.
  change (Prim2SF 0%float) with (S754_zero false).
  destruct (Prim2SF x) as [s | s | | s m e]; cbn [value_of];
    try discriminate; intros [= <-] Hpos.
  - exfalso. exact (Qlt_irrefl _ Hpos).
  - destruct s; [|reflexivity]. exfalso. cbn [signed] in Hpos.
    pose proof (scaled_pos (Zpos m) e eq_refl). lra.
Qed.

(** ** The allocation identity in binary64 *)

(** The error of a result, with [M] bounding the exact one. *)
Lemma near_within (x v M : Q) :
  near x v -> Qabs x <= M ->
  v - x <= roundoff * M + underflow /\ x - v <= roundoff * M + underflow.
Proof.
  unfold near, roundoff, underflow. intros Hnear HM.
  assert (Hu : pow2 (-50) <= 1 # 1000000000000000)
    by (apply Qle_bool_iff; vm_compute; reflexivity).
  assert (H0 : 0 <= Qabs x) by apply Qabs_nonneg.
  assert (Hprod : pow2 (-50) * Qabs x <= (1 # 1000000000000000) * M).
  { apply Qle_trans with ((1 # 1000000000000000) * Qabs x).
    - apply Qmult_le_compat_r; assumption.
    - apply Qmult_le_l; [reflexivity | exact HM]. }
  apply Qabs_Qle_condition in Hnear. destruct Hnear as [Hlo Hhi].
  split; lra.
Qed.

Lemma absolute_bound (x M : Q) : - M <= x -> x <= M -> Qabs x <= M.
Proof. intros Hlo Hhi. apply Qabs_Qle_condition. split; assumption. Qed.

Lemma magnitude_of_nonneg (x : Q) : 0 <= x -> Qabs x <= x.
Proof. intros Hx. rewrite Qabs_pos by exact Hx. apply Qle_refl. Qed.

Lemma quotient_within (x y r : Q) :
  0 < y -> - (r * y) <= x -> x <= r * y -> - r <= x / y /\ x / y <= r.
Proof.
  intros Hy Hlo Hhi. split.
  - apply Qle_shift_div_l; [exact Hy | lra].
  - apply Qle_shift_div_r; [exact Hy | lra].
Qed.

Lemma value_100 : exists v, value (Binary64.lit 100) = Some v /\ v == 100.
Proof. eexists. split; [vm_compute; reflexivity | reflexivity]. Qed.

Section Allocations.

Variables (c f p s : Q).
Hypotheses (Hc : 0 <= c) (Hf : 0 <= f) (Hcf : c + f <= 10 ^ 100)
           (Hp0 : 0 < p) (Hp : p <= 10 ^ 100)
           (Ht : 10 ^ (-100) <= (c + f) * p)
           (Hs : s <= 1000 * ((c + f) * p)).

(** What the ranges of the inputs give: no product or sum leaves the range
    of binary64, and the absolute errors are small against the portfolio
    value. *)
Lemma ordinary_figures :
  let t := c * p + f * p in
  0 <= c * p /\ 0 <= f * p /\ 0 < t
  /\ 4000 * t <= pow2 970 /\ c + f <= pow2 970 /\ 1000000 <= pow2 970
  /\ 0 <= underflow
  /\ underflow <= (1 # 100000000000000000000) * t
  /\ underflow * p <= (1 # 100000000000000000000) * t
  /\ underflow <= 1 # 100000000000000000000
  /\ s <= 1000 * t.
Proof.
  cbv zeta.
  assert (Et : (c + f) * p == c * p + f * p) by ring.
  rewrite Et in Ht, Hs.
  assert (N0 : 0 < 10 ^ (-100)) by reflexivity.
  assert (N1 : 4000 * (10 ^ 100 * 10 ^ 100) <= pow2 970)
    by (apply Qle_bool_iff; vm_compute; reflexivity).
  assert (N2 : 10 ^ 100 <= pow2 970)
    by (apply Qle_bool_iff; vm_compute; reflexivity).
  assert (N3 : 1000000 <= pow2 970)
    by (apply Qle_bool_iff; vm_compute; reflexivity).
  assert (N4 : underflow <= (1 # 100000000000000000000) * 10 ^ (-100))
    by (apply Qle_bool_iff; vm_compute; reflexivity).
  assert (N5 : underflow * 10 ^ 100
               <= (1 # 100000000000000000000) * 10 ^ (-100))
    by (apply Qle_bool_iff; vm_compute; reflexivity).
  assert (N6 : underflow <= 1 # 100000000000000000000)
    by (apply Qle_bool_iff; vm_compute; reflexivity).
  assert (N7 : 0 <= underflow) by (apply Qlt_le_weak, pow2_pos).
  assert (A0 : 0 <= c * p) by (apply Qmult_le_0_compat; lra).
  assert (B0 : 0 <= f * p) by (apply Qmult_le_0_compat; lra).
  assert (T1 : c * p + f * p <= 10 ^ 100 * 10 ^ 100).
  { rewrite <- Et. apply Qle_trans with (10 ^ 100 * p).
    - apply Qmult_le_compat_r; lra.
    - apply Qmult_le_l; [reflexivity | exact Hp]. }
  assert (U1 : underflow * p <= underflow * 10 ^ 100).
  { destruct (Qle_lt_or_eq _ _ N7) as [Hpos | Hz].
    - apply Qmult_le_l; assumption.
    - rewrite <- Hz. lra. }
  assert (S1 : (1 # 100000000000000000000) * 10 ^ (-100)
               <= (1 # 100000000000000000000) * (c * p + f * p)).
  { apply Qmult_le_l; [reflexivity | exact Ht]. }
  generalize dependent (10 ^ (-100)). generalize dependent (10 ^ 100).
  generalize dependent (pow2 970). generalize dependent underflow.
  intros. repeat split; try assumption; lra.
Qed.

End Allocations.

Ltac bound_error H M Hlo Hhi :=
  let Hm := fresh "Hm" in
  match type of H with
  | near ?x _ =>
      assert (Hm : Qabs x <= M) by (apply absolute_bound; unfold roundoff in *; lra)
  end;
  destruct (near_within _ _ M H Hm) as [Hlo Hhi];
  unfold roundoff in Hlo, Hhi; clear Hm.

Ltac in_range := apply absolute_bound; unfold roundoff in *; lra.

(** The figures of [calculate_metrics] in binary64, against the exact ones:
    with [t] the exact portfolio value [(c + f) * p] and [r] the ratio of the
    short exposure to the computed total, the total is within four parts in
    [10^15] of [t], and the two allocations are within [3.02e-10] and
    [2.01e-10] of
    [100 - 100 r] and of [100 r]. *)
Lemma allocation_figures
      (cold : float) (account : Account float) (ps : list (Position float))
      (price target threshold : float) (m : Metrics float) (c f p s : Q) :
  calculate_metrics cold account ps price target threshold = Some m ->
  value cold = Some c -> value (futures_btc m) = Some f ->
  value price = Some p -> value (usd_exposure m) = Some s ->
  0 <= c -> 0 <= f -> c + f <= 10 ^ 100 ->
  0 < p -> p <= 10 ^ 100 ->
  10 ^ (-100) <= (c + f) * p ->
  0 <= s -> s <= 1000 * ((c + f) * p) ->
  exists T A B : Q,
    value (total_portfolio_usd m) = Some T
    /\ value (current_btc_allocation m) = Some A
    /\ value (current_usd_allocation m) = Some B
    /\ 0 < T
    /\ Qabs (T - (c * p + f * p))
       <= (4 # 1000000000000000) * (c * p + f * p)
    /\ Qabs (A - (100 - 100 * (s / T))) <= 302000 # 1000000000000000
    /\ Qabs (B - 100 * (s / T)) <= 201000 # 1000000000000000
    /\ s / T <= 1001.
Proof.
  intros Hm Vc Vf Vp Vs Hc Hf Hcf Hp0 Hp Ht Hs0 Hs.
  destruct (ordinary_figures c f p s Hc Hf Hcf Hp0 Hp Ht Hs)
    as (A0 & B0 & T0 & Big & Bigcf & Big1 & U0 & Ut & Up & U1 & St).
  destruct (calculate_metrics_allocations _ _ _ _ _ _ _ Hm)
    as (Halloc & _ & _ & Hnet & Hgross & Htotal).
  clear Hm Hcf Hp Ht Hs.
  (* cold_storage_usd and futures_btc_usd *)
  destruct (mul_value cold price c p Vc Vp) as (cp & Vcp & Ncp); [in_range|].
  bound_error Ncp (c * p) Ecp1 Ecp2.
  destruct (mul_value (futures_btc m) price f p Vf Vp) as (fp & Vfp & Nfp);
    [in_range|].
  bound_error Nfp (f * p) Efp1 Efp2.
  (* gross_btc_exposure_usd *)
  destruct (add_value _ _ cp fp Vcp Vfp) as (G & VG & NG); [in_range|].
  bound_error NG (2 * (c * p + f * p)) EG1 EG2.
  (* total_btc and total_portfolio_usd *)
  destruct (add_value cold (futures_btc m) c f Vc Vf) as (tb & Vtb & Ntb);
    [in_range|].
  bound_error Ntb (c + f) Etb1 Etb2.
  assert (Etp1 : (tb - (c + f)) * p
                 <= ((1 # 1000000000000000) * (c + f) + underflow) * p)
    by (apply Qmult_le_compat_r; lra).
  assert (Etp2 : (c + f - tb) * p
                 <= ((1 # 1000000000000000) * (c + f) + underflow) * p)
    by (apply Qmult_le_compat_r; lra).
  destruct (mul_value _ price tb p Vtb Vp) as (T & VT & NT); [in_range|].
  bound_error NT (2 * (c * p + f * p)) ET1 ET2.
  assert (HT : 0 < T) by lra.
  assert (Hgt : PrimFloat.ltb 0%float (total_portfolio_usd m) = true).
  { rewrite Htotal. exact (positive_value _ T VT HT). }
  change (gtb (total_portfolio_usd m) (lit 0))
    with (PrimFloat.ltb 0%float (total_portfolio_usd m)) in Halloc.
  rewrite Hgt in Halloc. injection Halloc as -> ->.
  rewrite Hnet, Hgross, Htotal.
  (* net_btc_exposure_usd *)
  destruct (sub_value _ _ G s VG Vs) as (N & VN & NN); [in_range|].
  bound_error NN (2 * (c * p + f * p) + s) EN1 EN2.
  assert (HTnz : ~ T == 0) by (intro E; lra).
  (* the two quotients *)
  destruct (quotient_within N T 1002 HT) as [R1lo R1hi]; [lra | lra |].
  destruct (quotient_within s T 1001 HT) as [R2lo R2hi]; [lra | lra |].
  assert (R2pos : 0 <= s / T).
  { apply Qle_shift_div_l; [exact HT | lra]. }
  assert (Esum : N / T + s / T - 1 == (N + s - T) / T) by (field; exact HTnz).
  destruct (quotient_within (N + s - T) T (1010 # 1000000000000000) HT)
    as [R3lo R3hi]; [lra | lra |].
  rewrite <- Esum in R3lo, R3hi. clear Esum.
  destruct (div_value _ _ N T VN VT HTnz) as (q1 & Vq1 & Nq1); [in_range|].
  destruct (div_value _ _ s T Vs VT HTnz) as (q2 & Vq2 & Nq2); [in_range|].
  remember (N / T) as r1 eqn:Er1. remember (s / T) as r2 eqn:Er2.
  bound_error Nq1 1002 Eq1a Eq1b.
  bound_error Nq2 1001 Eq2a Eq2b.
  (* the two percentages *)
  destruct value_100 as (v100 & V100 & E100).
  destruct (mul_value _ _ q1 v100 Vq1 V100) as (A & VA & NA);
    [rewrite E100; in_range|].
  rewrite E100 in NA.
  bound_error NA 100300 EA1 EA2.
  destruct (mul_value _ _ q2 v100 Vq2 V100) as (B & VB & NB);
    [rewrite E100; in_range|].
  rewrite E100 in NB.
  bound_error NB 100200 EB1 EB2.
  exists T, A, B. rewrite <- Er2.
  split; [exact VT|]. split; [exact VA|]. split; [exact VB|].
  split; [exact HT|].
  split; [apply absolute_bound; lra|]. split; [apply absolute_bound; lra|].
  split; [apply absolute_bound; lra | exact R2hi].
Qed.

(** C6 (as amended).  In binary64, for holdings that are not negative, a
    price and holdings of at most [10^100], a portfolio value of at least
    [10^-100] and a short exposure of at most 1000 times the portfolio value,
    the two current allocations are finite numbers whose floating-point sum
    is within [1e-9] of 100. *)
Theorem binary64_allocations_sum_to_100
        (cold : float) (account : Account float) (ps : list (Position float))
        (price target threshold : float) (m : Metrics float) (c f p s : Q) :
  calculate_metrics cold account ps price target threshold = Some m ->
  value cold = Some c -> value (futures_btc m) = Some f ->
  value price = Some p -> value (usd_exposure m) = Some s ->
  0 <= c -> 0 <= f -> c + f <= 10 ^ 100 ->
  0 < p -> p <= 10 ^ 100 ->
  10 ^ (-100) <= (c + f) * p ->
  0 <= s -> s <= 1000 * ((c + f) * p) ->
  exists q,
    value (current_btc_allocation m + current_usd_allocation m)%float = Some q
    /\ Qabs (q - 100) <= 1 # 1000000000.
Proof.
  intros Hm Vc Vf Vp Vs Hc Hf Hcf Hp0 Hp Ht Hs0 Hs.
  destruct (allocation_figures _ _ _ _ _ _ _ c f p s
              Hm Vc Vf Vp Vs Hc Hf Hcf Hp0 Hp Ht Hs0 Hs)
    as (T & A & B & VT & VA & VB & HT & ET & EA & EB & Hr).
  destruct (ordinary_figures c f p s Hc Hf Hcf Hp0 Hp Ht Hs)
    as (_ & _ & _ & _ & _ & Big1 & U0 & _ & _ & U1 & _).
  clear Hm Hcf Hp Ht Hs ET.
  assert (Hr0 : 0 <= s / T) by (apply Qle_shift_div_l; [exact HT | lra]).
  apply Qabs_Qle_condition in EA, EB. destruct EA as [EA1 EA2], EB as [EB1 EB2].
  remember (s / T) as r eqn:Er.
  destruct (add_value _ _ A B VA VB) as (Z & VZ & NZ); [in_range|].
  bound_error NZ 101 EZ1 EZ2.
  exists Z. split; [exact VZ|].
  apply absolute_bound; lra.
Qed.

Lemma scaled_within (e r y : Q) :
  0 <= y -> - r <= e -> e <= r -> - (r * y) <= e * y /\ e * y <= r * y.
Proof.
  intros Hy Hlo Hhi. split.
  - setoid_replace (- (r * y)) with ((- r) * y) by ring.
    apply Qmult_le_compat_r; assumption.
  - apply Qmult_le_compat_r; assumption.
Qed.

Lemma hundredth (x v : Q) : v == 100 -> x / v == (1 # 100) * x.
Proof. intros ->. field. Qed.

(** X4.  In binary64 and under the conditions of the allocation identity,
    with a target between 0 and 100, the two adjustment figures are finite
    and agree to within [1e-11] of the portfolio value: the required USD
    adjustment derived from the deviation, and the short-position adjustment
    derived from the target exposure. *)
Theorem binary64_adjustments_agree
        (cold : float) (account : Account float) (ps : list (Position float))
        (price target threshold : float) (m : Metrics float)
        (c f p s g : Q) :
  calculate_metrics cold account ps price target threshold = Some m ->
  value cold = Some c -> value (futures_btc m) = Some f ->
  value price = Some p -> value (usd_exposure m) = Some s ->
  value target = Some g ->
  0 <= c -> 0 <= f -> c + f <= 10 ^ 100 ->
  0 < p -> p <= 10 ^ 100 ->
  10 ^ (-100) <= (c + f) * p ->
  0 <= s -> s <= 1000 * ((c + f) * p) ->
  0 <= g -> g <= 100 ->
  exists r a,
    value (required_usd_adjustment m) = Some r
    /\ value (short_position_adjustment m) = Some a
    /\ Qabs (r - a) <= (1 # 100000000000) * ((c + f) * p).
Proof.
  intros Hm Vc Vf Vp Vs Vg Hc Hf Hcf Hp0 Hp Ht Hs0 Hs Hg0 Hg.
  destruct (allocation_figures _ _ _ _ _ _ _ c f p s
              Hm Vc Vf Vp Vs Hc Hf Hcf Hp0 Hp Ht Hs0 Hs)
    as (T & A & B & VT & VA & _ & HT & ET & EA & _ & Hr).
  destruct (ordinary_figures c f p s Hc Hf Hcf Hp0 Hp Ht Hs)
    as (A0 & B0 & T0 & Big & _ & Big1 & U0 & Ut & _ & U1 & St).
  destruct (calculate_metrics_allocations _ _ _ _ _ _ _ Hm)
    as (_ & Hdev & _).
  destruct (calculate_metrics_adjustments _ _ _ _ _ _ _ Hm)
    as (Hreq & Hadj & Htarget & Hshort & _).
  rewrite Hreq, Hadj, Htarget, Hshort, Hdev.
  clear Hm Hcf Hp Ht Hs Hreq Hadj Htarget Hshort Hdev.
  assert (HTnz : ~ T == 0) by (intro E; lra).
  assert (Hr0 : 0 <= s / T) by (apply Qle_shift_div_l; [exact HT | lra]).
  assert (HrT : s / T * T == s) by (field; exact HTnz).
  apply Qabs_Qle_condition in EA, ET.
  destruct EA as [EA1 EA2], ET as [ET1 ET2].
  remember (s / T) as r eqn:Er.
  destruct value_100 as (v100 & V100 & E100).
  (* allocation_deviation and required_usd_adjustment *)
  destruct (sub_value _ _ A g VA Vg) as (D & VD & ND); [in_range|].
  bound_error ND 100400 ED1 ED2.
  destruct (div_value _ _ D v100 VD V100) as (d & Vd & Nd);
    [rewrite E100; discriminate | rewrite (hundredth _ _ E100); in_range |].
  rewrite (hundredth _ _ E100) in Nd.
  bound_error Nd 1005 Ed1 Ed2.
  destruct (scaled_within d 1006 T) as [Hd1 Hd2]; [lra | lra | lra |].
  destruct (scaled_within (d - (1 - r - (1 # 100) * g))
                          (5100 # 1000000000000000) T)
    as [He1 He2]; [lra | lra | lra |].
  destruct (mul_value _ _ d T Vd VT) as (R & VR & NR); [in_range|].
  bound_error NR (1006 * T) ER1 ER2.
  (* target_usd_exposure and short_position_adjustment *)
  destruct (sub_value _ _ v100 g V100 Vg) as (w1 & Vw1 & Nw1);
    [rewrite E100; in_range|].
  rewrite E100 in Nw1.
  bound_error Nw1 100 Ew1a Ew1b.
  destruct (div_value _ _ w1 v100 Vw1 V100) as (w2 & Vw2 & Nw2);
    [rewrite E100; discriminate | rewrite (hundredth _ _ E100); in_range |].
  rewrite (hundredth _ _ E100) in Nw2.
  bound_error Nw2 2 Ew2a Ew2b.
  destruct (scaled_within w2 2 T) as [Hw1 Hw2]; [lra | lra | lra |].
  destruct (scaled_within (w2 - (1 - (1 # 100) * g)) (4 # 1000000000000000) T)
    as [He3 He4]; [lra | lra | lra |].
  destruct (mul_value _ _ T w2 VT Vw2) as (X & VX & NX); [in_range|].
  bound_error NX (2 * T) EX1 EX2.
  destruct (sub_value _ _ X s VX Vs) as (Y & VY & NY); [in_range|].
  bound_error NY (3 * T + s) EY1 EY2.
  exists R, Y. split; [exact VR|]. split; [exact VY|].
  apply absolute_bound; lra.
Qed.

End RoundingError.

(** ** What every run of place_order keeps *)

Section RunProperties.
Context {F : Type} `{Number F}.
Variable exchange : Exchange F.
Variable self : Config F.
Variable symbol : string.
Variable side : Side.
Variable leverage : Z.
Variable reduce_only : bool.
Import Observations.
Local Open Scope monad_scope.

Local Abbreviation Run := (Run self symbol side leverage reduce_only).

Lemma Run_quiet (w w' : World F) :
  orders w' = orders w -> ledger w' = ledger w ->
  (uuid_draws w <= uuid_draws w')%nat -> Run w w'.
Proof.
  intros Ho Hl Hu. split.
  - exists []. rewrite app_nil_r. repeat split; [exact Ho | constructor | constructor].
  - exists []. rewrite app_nil_r. repeat split; [exact Hl | constructor].
  - exact Hu.
Qed.

Lemma Run_refl (w : World F) : Run w w.
Proof. apply Run_quiet; auto. Qed.

Lemma Run_trans (w1 w2 w3 : World F) : Run w1 w2 -> Run w2 w3 -> Run w1 w3.
Proof.
  intros [(os1 & Ho1 & Hf1 & Hn1) (rows1 & Hl1 & Hr1 & He1) Hu1]
         [(os2 & Ho2 & Hf2 & Hn2) (rows2 & Hl2 & Hr2 & He2) Hu2].
  split.
  - exists (os1 ++ os2)%list. rewrite Ho2, Ho1, <- app_assoc.
    split; [reflexivity|]. split.
    + apply Forall_app. split.
      * eapply Forall_impl; [|exact Hf1]. cbn. intros o (Ht & Hs & Hp & Hr).
        split; [exact Ht|]. split; [exact Hs|]. split; [exact Hp|]. lia.
      * eapply Forall_impl; [|exact Hf2]. cbn. intros o (Ht & Hs & Hp & Hr).
        split; [exact Ht|]. split; [exact Hs|]. split; [exact Hp|]. lia.
    + rewrite map_app. apply NoDup_app; [exact Hn1 | exact Hn2 |].
      intros n Hin1 Hin2.
      apply in_map_iff in Hin1 as (o1 & <- & Hin1).
      apply in_map_iff in Hin2 as (o2 & Heq & Hin2).
      rewrite Forall_forall in Hf1, Hf2.
      destruct (Hf1 _ Hin1) as (_ & _ & _ & Hrange1).
      destruct (Hf2 _ Hin2) as (_ & _ & _ & Hrange2). lia.
  - exists (rows1 ++ rows2)%list. rewrite Hl2, Hl1, <- app_assoc.
    split; [reflexivity|]. split.
    + apply Forall_app. split; assumption.
    + intros Hoff. rewrite (He1 Hoff), (He2 Hoff). reflexivity.
  - lia.
Qed.

Local Abbreviation keeps :=
  (Observations.keeps self symbol side leverage reduce_only).

Lemma keeps_ret {A} (a : A) : keeps (ret a).
Proof. intros w. apply Run_refl. Qed.

Lemma keeps_raise {A} (e : Exn) : keeps (raise (A := A) e).
Proof. intros w. apply Run_refl. Qed.

Lemma keeps_diverge {A} : keeps (diverge (A := A)).
Proof. intros w. apply Run_refl. Qed.

Lemma keeps_eval {A} (e : Exn) (v : option A) : keeps (eval e v).
Proof. intros w. destruct v; apply Run_refl. Qed.

Lemma keeps_time : keeps time.
Proof. intros w. apply Run_refl. Qed.

Lemma keeps_sleep (seconds : Z) : keeps (sleep seconds).
Proof. intros w. apply Run_quiet; reflexivity. Qed.

Lemma keeps_bind {A B} (m : M F A) (k : A -> M F B) :
  keeps m -> (forall a, keeps (k a)) -> keeps (bind m k).
Proof.
  intros Hm Hk w. unfold bind. specialize (Hm w).
  destruct (m w) as [[a | e | ] w1]; cbn [snd] in *; try exact Hm.
  eapply Run_trans; [exact Hm | apply Hk].
Qed.

Lemma keeps_try {A} (body : M F A) (handler : Exn -> M F A) :
  keeps body -> (forall e, keeps (handler e)) -> keeps (try_except body handler).
Proof.
  intros Hb Hh w. unfold try_except. specialize (Hb w).
  destruct (body w) as [[a | e | ] w1]; cbn [snd] in *; try exact Hb.
  eapply Run_trans; [exact Hb | apply Hh].
Qed.

Lemma orders_after_other (w : World F) (r : Request F) :
  (forall o, body r <> OrderBody o) ->
  orders (after exchange w r) = orders w.
Proof.
  intros Hbody. unfold orders, after. cbn [requests].
  rewrite flat_map_app. cbn.
  destruct (body r) as [ | o | ]; [| exfalso; apply (Hbody o); reflexivity |];
    rewrite !app_nil_r; reflexivity.
Qed.

Lemma keeps_send (m : Method) (path : string) (b : Body F) :
  (forall o, b <> OrderBody o) -> keeps (send exchange m path b).
Proof.
  intros Hb w. unfold send.
  destruct (snd (exchange _ _)); cbn [snd];
    (apply Run_quiet; [apply orders_after_other; exact Hb | reflexivity
                      | reflexivity]).
Qed.

Lemma keeps_log_trade (a : Action) (contracts : Z) (limit_price : option F)
      (order_id : string) (slippage : option F) (status : Status)
      (error : TradeLog.Detail F) :
  a = action_of side reduce_only ->
  keeps (log_trade self a symbol contracts limit_price order_id slippage
                   status error).
Proof.
  intros Ha w. unfold log_trade, TradeLogger.log_trade.
  destruct (trade_logging_enabled self) eqn:Hon; cbn [negb];
    [|apply Run_refl].
  unfold append_row. cbn [snd]. split.
  - exists []. rewrite app_nil_r. repeat split; constructor.
  - eexists [_]. split; [reflexivity|]. split.
    + constructor; [|constructor]. split; [reflexivity | exact Ha].
    + intro Hoff. rewrite Hon in Hoff. discriminate.
  - cbn. lia.
Qed.

Lemma trade_info_action (action : option Action) (limit_price : option F)
      (a : Action) (p : F) :
  trade_info action limit_price = Some (a, p) -> action = Some a.
Proof.
  unfold trade_info. destruct action; [|discriminate].
  destruct limit_price; [|discriminate].
  destruct (truthy f); [|discriminate].
  intro Hi. injection Hi as -> _. reflexivity.
Qed.

Lemma keeps_by_side {A} (s : Side) (x y : M F A) :
  keeps x -> keeps y -> keeps (match s with Buy => x | Sell => y end).
Proof. destruct s; auto. Qed.

(** *** The client and the monitor *)

Ltac keeps_step :=
  first
    [ apply keeps_ret | apply keeps_raise | apply keeps_diverge
    | apply keeps_eval | apply keeps_time | apply keeps_sleep
    | apply keeps_send; intros; discriminate
    | apply keeps_log_trade; reflexivity
    | apply keeps_try; [|intros]
    | apply keeps_bind; [|intros]
    | apply keeps_by_side
    | match goal with
      | |- keeps (match trade_info ?a ?lp with _ => _ end) =>
          let E := fresh "Hinfo" in
          destruct (trade_info a lp) as [[? ?]|] eqn:E;
          [apply trade_info_action in E; injection E as <- |]
      | |- keeps (match (if ?c then _ else _) with _ => _ end) => destruct c
      | |- keeps (if ?b then _ else _) => destruct b
      | |- keeps (match ?x with Some _ => _ | None => _ end) => destruct x
      end ].

Ltac keeps_tac := unfold raise_for_status, json; repeat keeps_step.

Lemma keeps_get_order_details (order_id : string) :
  keeps (get_order_details exchange order_id).
Proof. unfold get_order_details. keeps_tac. Qed.

Lemma keeps_cancel_order (order_id : string) :
  keeps (cancel_order exchange order_id).
Proof. unfold cancel_order. keeps_tac. Qed.

Lemma keeps_get_position_mode : keeps (get_position_mode exchange symbol).
Proof. unfold get_position_mode. keeps_tac. Qed.

Lemma keeps_set_position_mode (mode : string) :
  keeps (set_position_mode exchange symbol mode).
Proof. unfold set_position_mode. keeps_tac. Qed.

Lemma keeps_get_best_bid_ask : keeps (get_best_bid_ask exchange symbol).
Proof. unfold get_best_bid_ask. keeps_tac. Qed.

Lemma keeps_verify_position_mode :
  keeps (verify_position_mode exchange self symbol).
Proof.
  unfold verify_position_mode.
  apply keeps_bind; [apply keeps_get_position_mode | intros mode].
  repeat first [ apply keeps_set_position_mode | keeps_step ].
Qed.

Lemma keeps_calculate_limit_price :
  keeps (calculate_limit_price exchange self symbol side).
Proof.
  unfold calculate_limit_price.
  apply keeps_bind; [apply keeps_get_best_bid_ask | intros q].
  keeps_tac.
Qed.

Section Monitor.
Variable place_order : PlaceOrder (F := F).
Hypothesis keeps_place_order :
  forall unfilled, keeps (place_order symbol side unfilled leverage reduce_only).

Lemma keeps_on_timeout (order_id : string) (contracts : Z)
      (limit_price : option F) :
  keeps (on_timeout exchange self place_order order_id symbol side contracts
                    leverage reduce_only (Some (action_of side reduce_only))
                    limit_price).
Proof.
  unfold on_timeout.
  repeat first [ apply keeps_get_order_details | apply keeps_cancel_order
               | apply keeps_place_order | keeps_step ].
Qed.

Lemma keeps_check_status (order_id : string) (contracts : Z)
      (limit_price : option F) :
  keeps (check_status exchange self order_id symbol contracts
                      (Some (action_of side reduce_only)) limit_price).
Proof.
  unfold check_status.
  repeat first [ apply keeps_get_order_details | keeps_step ].
Qed.

Lemma keeps_monitor_loop (passes : nat) (start_time : Z) (order_id : string)
      (contracts : Z) (limit_price : option F) :
  keeps (monitor_loop exchange self place_order passes start_time order_id
                      symbol side contracts leverage reduce_only
                      (Some (action_of side reduce_only)) limit_price).
Proof.
  induction passes as [|passes IH]; cbn [monitor_loop];
    [apply keeps_diverge|].
  apply keeps_bind; [apply keeps_time | intros now].
  destruct (gtc_timeout_seconds self <=? now - start_time)%Z;
    [apply keeps_on_timeout|].
  apply keeps_bind; [apply keeps_check_status | intros [result|]];
    [apply keeps_ret|].
  apply keeps_bind; [apply keeps_sleep | intros _; exact IH].
Qed.

Lemma keeps_monitor_gtc_order (order_id : string) (contracts : Z)
      (limit_price : option F) :
  keeps (monitor_gtc_order exchange self place_order order_id symbol side
                           contracts leverage reduce_only
                           (Some (action_of side reduce_only)) limit_price).
Proof.
  unfold monitor_gtc_order.
  apply keeps_bind; [apply keeps_time | intros start_time].
  apply keeps_monitor_loop.
Qed.

End Monitor.

(** *** place_order *)

Lemma orders_after_order (w : World F) (m : Method) (path : string)
      (o : OrderData F) :
  orders (after exchange w {| method := m; endpoint_path := path;
                              body := OrderBody o |})
  = (orders w ++ [o])%list.
Proof.
  unfold orders, after. cbn [requests]. rewrite flat_map_app. reflexivity.
Qed.

(** The submission itself: the request is on record whether or not it is
    answered. *)
Lemma try_post_run {A} (w1 w2 : World F) (o : OrderData F)
      (k : Z * option (Json F) -> M F A) (handler : Exn -> M F A) :
  orders w2 = orders w1 -> ledger w2 = ledger w1 ->
  uuid_draws w2 = S (uuid_draws w1) ->
  clientOid o = uuid_draws w1 ->
  order_terms self symbol side leverage reduce_only o ->
  order_sized self o -> order_priced self o ->
  (forall x, keeps (k x)) -> (forall e, keeps (handler e)) ->
  Run w1 (snd (try_except
                 (bind (send exchange POST "/api/v1/orders" (OrderBody o)) k)
                 handler w2)).
Proof.
  intros Ho Hl Hu Hoid Hterms Hsized Hpriced Hk Hh.
  assert (Hposted :
    Run w1 (after exchange w2 {| method := POST;
                                 endpoint_path := "/api/v1/orders";
                                 body := OrderBody o |})).
  { split.
    - exists [o]. rewrite orders_after_order, Ho. split; [reflexivity|].
      split.
      + constructor; [|constructor].
        split; [exact Hterms|]. split; [exact Hsized|].
        split; [exact Hpriced|]. cbn [uuid_draws after]. lia.
      + cbn. constructor; [intros []|constructor].
    - exists []. rewrite app_nil_r. cbn [ledger after].
      repeat split; [exact Hl | constructor].
    - cbn [uuid_draws after]. lia. }
  unfold try_except, bind at 1, send.
  destruct (snd (exchange _ _)) as [reason | status_code body].
  - eapply Run_trans; [exact Hposted | apply Hh].
  - pose proof (Hk (status_code, body)
                   (after exchange w2
                      {| method := POST; endpoint_path := "/api/v1/orders";
                         body := OrderBody o |})) as Hrest.
    destruct (k (status_code, body) _) as [[a | e | ] w3]; cbn [snd] in *.
    + eapply Run_trans; eassumption.
    + eapply Run_trans; [exact Hposted|].
      eapply Run_trans; [exact Hrest | apply Hh].
    + eapply Run_trans; eassumption.
Qed.

Lemma place_order_keeps (fuel : nat) :
  forall contracts,
    keeps (OrderExecutor.place_order exchange self fuel symbol side contracts
                                     leverage reduce_only).
Proof.
  induction fuel as [|fuel IH]; intros contracts w; cbn [place_order].
  all: destruct (is_gt (cmp_int (Z.abs contracts) (max_order_usd self)))
         eqn:Hgt; [apply Run_refl|].
  all: destruct (is_lt (cmp_int (Z.abs contracts) (min_order_usd self)))
         eqn:Hlt; [apply Run_refl|].
  all: match goal with
       | |- Run ?w0 (snd (bind ?V ?K ?w0)) =>
           assert (HV : keeps V)
             by (destruct (negb (dry_run self));
                 [apply keeps_verify_position_mode | apply keeps_ret]);
           specialize (HV w0); unfold bind at 1;
           destruct (V w0) as [[ok | e | ] w1]; cbn [snd] in HV;
           [| exact HV | exact HV]
       end.
  all: destruct (negb ok); [exact HV|].
  all: apply (Run_trans _ _ _ HV); clear HV.
  all: rewrite (bind_step uuid4 _ w1 (drawn w1) (uuid_draws w1) eq_refl).
  all: assert (Hprice :
         exists lp w2,
           (if (order_type self =? "limit")%string
            then bind (calculate_limit_price exchange self symbol side)
                      (fun p => ret (Some p))
            else ret None) (drawn w1) = (Ret lp, w2)
           /\ orders w2 = orders w1 /\ ledger w2 = ledger w1
           /\ uuid_draws w2 = S (uuid_draws w1)
           /\ ((order_type self =? "limit")%string = false -> lp = None)
           /\ ((order_type self =? "limit")%string = true ->
               exists p, lp = Some p)).
  1, 3: destruct (order_type self =? "limit")%string;
    [ destruct (calculate_limit_price_returns exchange self symbol side
                  (drawn w1)) as (p & Hp);
      exists (Some p); eexists;
      split; [rewrite (bind_step _ _ _ _ _ Hp); reflexivity|];
      split; [rewrite orders_after_other;
              [reflexivity | intros o; discriminate]|];
      repeat split; [discriminate | intros _; eauto]
    | exists None, (drawn w1); repeat split; [discriminate] ].
  all: destruct Hprice as (lp & w2 & Hprice & Ho & Hl & Hu & Hmarket & Hlimit).
  all: rewrite (bind_step _ _ _ _ _ Hprice).
  all: destruct (dry_run self);
    [unfold ret; cbn [snd];
     apply Run_quiet; [exact Ho | exact Hl | rewrite Hu; lia]|].
  all: apply try_post_run; try assumption; try reflexivity.
  all: try (repeat split; reflexivity).
  all: try (split; assumption).
  all: try (intros e; apply keeps_ret).
  all: try (intros x; unfold raise_for_status, json;
            repeat first [ apply keeps_monitor_gtc_order; intros unfilled;
                           first [apply keeps_diverge | apply IH]
                         | keeps_step ]).
  all: unfold order_priced; cbn [type price timeInForce];
    destruct (order_type self =? "limit")%string eqn:Hot;
    [ destruct (Hlimit eq_refl) as (p & ->); unfold truthy;
      destruct (eqb p (lit 0)) eqn:Hzero; cbn [negb andb];
      [ right; repeat split
      | left; rewrite Hot; cbn [andb]; repeat split;
        exists p; rewrite Hzero; split; reflexivity ]
    | rewrite (Hmarket eq_refl), Hot; right; repeat split ].
Qed.

(** X5.  No order above the configured maximum or below the configured
    minimum is ever submitted: every order that a call of [place_order] sends,
    resubmissions of an unfilled remainder included, has a size that passes
    the size check. *)
Theorem every_submitted_order_is_within_limits
        (fuel : nat) (contracts : Z) (w : World F) :
  exists os,
    orders (snd (OrderExecutor.place_order exchange self fuel symbol side
                   contracts leverage reduce_only w))
    = (orders w ++ os)%list
    /\ Forall (order_sized self) os.
Proof.
  destruct (place_order_keeps fuel contracts w) as [(os & Ho & Hf & _) _ _].
  exists os. split; [exact Ho|].
  eapply Forall_impl; [|exact Hf]. cbn. intros o (_ & Hs & _). exact Hs.
Qed.

(** X6.  Resubmission changes nothing but the size: every order that a call
    of [place_order] sends carries the symbol, side, leverage and reduce-only
    flag of the call and the configured margin mode. *)
Theorem resubmissions_keep_the_terms_of_the_call
        (fuel : nat) (contracts : Z) (w : World F) :
  exists os,
    orders (snd (OrderExecutor.place_order exchange self fuel symbol side
                   contracts leverage reduce_only w))
    = (orders w ++ os)%list
    /\ Forall (order_terms self symbol side leverage reduce_only) os.
Proof.
  destruct (place_order_keeps fuel contracts w) as [(os & Ho & Hf & _) _ _].
  exists os. split; [exact Ho|].
  eapply Forall_impl; [|exact Hf]. cbn. intros o (Ht & _). exact Ht.
Qed.

(** X7.  Client order identifiers are never reused: if the identifiers of
    the orders on record are distinct and all come from earlier uuid draws,
    the same holds after any call of [place_order], however many orders it
    submitted. *)
Theorem client_order_ids_are_never_reused
        (fuel : nat) (contracts : Z) (w : World F) :
  let w' := snd (OrderExecutor.place_order exchange self fuel symbol side
                   contracts leverage reduce_only w) in
  NoDup (map clientOid (orders w)) ->
  Forall (fun o => (clientOid o < uuid_draws w)%nat) (orders w) ->
  NoDup (map clientOid (orders w'))
  /\ Forall (fun o => (clientOid o < uuid_draws w')%nat) (orders w').
Proof.
  intros w' Hnodup Hdrawn. subst w'.
  destruct (place_order_keeps fuel contracts w)
    as [(os & Ho & Hf & Hn) _ Hu].
  rewrite Ho. split.
  - rewrite map_app. apply NoDup_app; [exact Hnodup | exact Hn |].
    intros n Hin1 Hin2.
    apply in_map_iff in Hin1 as (o1 & <- & Hin1).
    apply in_map_iff in Hin2 as (o2 & Heq & Hin2).
    rewrite Forall_forall in Hdrawn, Hf.
    specialize (Hdrawn _ Hin1).
    destruct (Hf _ Hin2) as (_ & _ & _ & Hrange). lia.
  - apply Forall_app. split.
    + eapply Forall_impl; [|exact Hdrawn]. cbn. intros o Ho1. lia.
    + eapply Forall_impl; [|exact Hf]. cbn. intros o (_ & _ & _ & Hr). lia.
Qed.

(** X8.  Every order sent as a limit order carries a price, formed from a
    limit price that is not zero, and a time in force, and that time in force
    is GTC whenever the configured slippage is negative; every other order
    carries neither field. *)
Theorem limit_orders_are_priced_and_passive_ones_rest
        (fuel : nat) (contracts : Z) (w : World F) :
  exists os,
    orders (snd (OrderExecutor.place_order exchange self fuel symbol side
                   contracts leverage reduce_only w))
    = (orders w ++ os)%list
    /\ Forall (order_priced self) os.
Proof.
  destruct (place_order_keeps fuel contracts w) as [(os & Ho & Hf & _) _ _].
  exists os. split; [exact Ho|].
  eapply Forall_impl; [|exact Hf]. cbn. intros o (_ & _ & Hp & _). exact Hp.
Qed.

(** X9.  The ledger only grows: a call of [place_order] appends rows to it
    and changes none; every row it appends names the symbol and the action of
    the call; and with trade logging disabled it appends nothing. *)
Theorem ledger_is_append_only
        (fuel : nat) (contracts : Z) (w : World F) :
  exists rows,
    ledger (snd (OrderExecutor.place_order exchange self fuel symbol side
                   contracts leverage reduce_only w))
    = (ledger w ++ rows)%list
    /\ Forall (row_of_call symbol side reduce_only) rows
    /\ (trade_logging_enabled self = false -> rows = []).
Proof.
  destruct (place_order_keeps fuel contracts w) as [_ Hrows _].
  exact Hrows.
Qed.

End RunProperties.

(** ** Gates, pricing fallback and the monitor's other exits *)

Section MoreExecutor.
Context {F : Type} `{Number F}.
Variable exchange : Exchange F.
Variable self : Config F.
Import Observations.
Local Open Scope monad_scope.

Lemma set_position_mode_effect (symbol mode : string) (w : World F) :
  exists b w',
    set_position_mode exchange symbol mode w = (Ret b, w')
    /\ (w' = w /\ b = false
        \/ exists k,
            (mode = "ONE_WAY" /\ k = 0 \/ mode = "HEDGE_MODE" /\ k = 1)
            /\ w' = after exchange w
                      {| method := POST;
                         endpoint_path := "/api/v2/position/changePositionMode";
                         body := PositionModeBody symbol k |}).
Proof.
  unfold set_position_mode.
  destruct (mode =? "ONE_WAY")%string eqn:Hone;
    [|destruct (mode =? "HEDGE_MODE")%string eqn:Hhedge].
  - apply String.eqb_eq in Hone.
    unfold try_except, bind, send, raise_for_status, json, eval, ret, raise.
    destruct (snd (exchange _ _)) as [reason | status_code [j|]]; cbn;
      try destruct ((400 <=? status_code) && (status_code <? 600))%Z; cbn;
      do 2 eexists; (split; [reflexivity|]); right; exists 0; auto.
  - apply String.eqb_eq in Hhedge.
    unfold try_except, bind, send, raise_for_status, json, eval, ret, raise.
    destruct (snd (exchange _ _)) as [reason | status_code [j|]]; cbn;
      try destruct ((400 <=? status_code) && (status_code <? 600))%Z; cbn;
      do 2 eexists; (split; [reflexivity|]); right; exists 1; auto.
  - do 2 eexists. split; [reflexivity|]. left. auto.
Qed.

Lemma verify_position_mode_effect
        (symbol : string) (w : World F) :
  let read := FallbackSpec.get
                ("/api/v2/position/getPositionMode?symbol=" ++ symbol) in
  exists b w',
    verify_position_mode exchange self symbol w = (Ret b, w')
    /\ (w' = after exchange w read
        \/ auto_set_position_mode self = true
           /\ exists k,
               w' = after exchange (after exchange w read)
                      {| method := POST;
                         endpoint_path := "/api/v2/position/changePositionMode";
                         body := PositionModeBody symbol k |})
    /\ (auto_set_position_mode self = false -> b = true ->
        fst (get_position_mode exchange symbol w) = Ret (position_mode self)).
Proof.
  intros read. subst read. unfold verify_position_mode, bind at 1.
  destruct (get_position_mode_returns exchange symbol w) as (mode & Hmode).
  rewrite Hmode. cbn [fst].
  destruct (mode =? "")%string;
    [do 2 eexists; split; [reflexivity|]; split; [auto | discriminate]|].
  destruct (mode =? position_mode self)%string eqn:Hsame.
  { apply String.eqb_eq in Hsame. subst mode.
    do 2 eexists; split; [reflexivity|]; split; [auto | reflexivity]. }
  destruct (auto_set_position_mode self) eqn:Hauto.
  - destruct (set_position_mode_effect symbol (position_mode self)
                (after exchange w
                   (FallbackSpec.get
                      ("/api/v2/position/getPositionMode?symbol=" ++ symbol))))
      as (b & w' & -> & [(-> & ->) | (k & _ & ->)]);
      do 2 eexists; (split; [reflexivity|]); (split; [|discriminate]); eauto.
  - do 2 eexists; split; [reflexivity|]; split; [auto | discriminate].
Qed.

(** X10.  [verify_position_mode] always comes back with a verdict.  It reads
    the mode once; it sends a change request only when automatic correction
    is enabled (and then at most one); and with correction disabled a positive
    verdict means that the mode read is the configured one. *)
Theorem verify_position_mode_changes_mode_only_on_request
        (symbol : string) (w : World F) :
  let read := FallbackSpec.get
                ("/api/v2/position/getPositionMode?symbol=" ++ symbol) in
  exists b w',
    verify_position_mode exchange self symbol w = (Ret b, w')
    /\ (w' = after exchange w read
        \/ auto_set_position_mode self = true
           /\ exists k,
               w' = after exchange (after exchange w read)
                      {| method := POST;
                         endpoint_path := "/api/v2/position/changePositionMode";
                         body := PositionModeBody symbol k |})
    /\ (auto_set_position_mode self = false -> b = true ->
        fst (get_position_mode exchange symbol w) = Ret (position_mode self)).
Proof. apply verify_position_mode_effect. Qed.

Lemma verify_position_mode_quiet (symbol : string) (w : World F) :
  exists b w',
    verify_position_mode exchange self symbol w = (Ret b, w')
    /\ orders w' = orders w /\ ledger w' = ledger w
    /\ uuid_draws w' = uuid_draws w.
Proof.
  destruct (verify_position_mode_effect symbol w)
    as (b & w' & Hv & Hw & _).
  exists b, w'. split; [exact Hv|].
  destruct Hw as [-> | (_ & k & ->)].
  - rewrite orders_after_other by (intros o; discriminate). auto.
  - rewrite !orders_after_other by (intros o; discriminate). auto.
Qed.

(** X11.  A live order is not submitted when position-mode verification
    fails: [place_order] returns the mode-mismatch failure, no order request
    is sent, no order identifier is drawn and the ledger is untouched. *)
Theorem mode_mismatch_submits_nothing
        (fuel : nat) (symbol : string) (side : Side) (contracts leverage : Z)
        (reduce_only : bool) (w : World F) :
  dry_run self = false ->
  is_gt (cmp_int (Z.abs contracts) (max_order_usd self)) = false ->
  is_lt (cmp_int (Z.abs contracts) (min_order_usd self)) = false ->
  fst (verify_position_mode exchange self symbol w) = Ret false ->
  exists w',
    place_order exchange self fuel symbol side contracts leverage reduce_only w
    = (Ret (Failure (Text "Position mode mismatch")), w')
    /\ orders w' = orders w
    /\ ledger w' = ledger w
    /\ uuid_draws w' = uuid_draws w.
Proof.
  intros Hdry Hgt Hlt Hfalse.
  destruct (verify_position_mode_quiet symbol w)
    as (b & w' & Hv & Ho & Hl & Hu).
  rewrite Hv in Hfalse. cbn in Hfalse. injection Hfalse as ->.
  exists w'. split; [|auto].
  destruct fuel; cbn [place_order]; rewrite Hgt, Hlt, Hdry; cbn [negb];
    rewrite (bind_step _ _ _ _ _ Hv); reflexivity.
Qed.

(** *** The monitor's other exits *)

(** X12.  At the timeout, when the order detail cannot be read, or shows
    nothing left to fill (filled not below total, as after a fill at the last
    moment), the monitor sends no cancel and no new order: it writes a TIMEOUT
    row (when the trade is known and logging is enabled) and returns the
    failure 'GTC order timeout'. *)
Theorem timeout_without_remainder_is_reported_as_timeout
        (place_order : PlaceOrder) (passes : nat) (start_time : Z)
        (order_id symbol : string) (side : Side) (contracts leverage : Z)
        (reduce_only : bool) (action : option Action) (limit_price : option F)
        (w : World F) (details : option (OrderDetails F)) :
  (gtc_timeout_seconds self <= clock w - start_time)%Z ->
  fst (get_order_details exchange order_id w) = Ret details ->
  (details = None
   \/ exists d filled total,
       details = Some d /\ filled_size_of d = Some filled
       /\ total_size_of d contracts = Some total
       /\ ltb filled total = false) ->
  let w1 := after exchange w
                  (FallbackSpec.get ("/api/v1/orders/" ++ order_id)) in
  monitor_loop exchange self place_order (S passes) start_time order_id symbol
               side contracts leverage reduce_only action limit_price w
  = (Ret (Failure (Text "GTC order timeout")),
     match trade_info action limit_price with
     | Some (a, p) =>
         if trade_logging_enabled self then
           add_row w1 {| TradeLog.action := a;
                         TradeLog.symbol := symbol;
                         TradeLog.contracts := Z.abs contracts;
                         TradeLog.limit_price := Some p;
                         TradeLog.order_id := order_id;
                         TradeLog.slippage := Some (slippage_pct self);
                         TradeLog.status := TIMEOUT;
                         TradeLog.error := TradeLog.GtcNoStatus |}
         else w1
     | None => w1
     end).
Proof. apply monitor_timeout_without_remainder. Qed.

(** X13.  Before the timeout, a status check that finds the order 'done'
    ends the monitoring with a success that reports the filled size; the row
    written is FILLED for the requested contract count at the requested limit
    price. *)
Theorem done_order_is_logged_filled
        (place_order : PlaceOrder) (passes : nat) (start_time : Z)
        (order_id symbol : string) (side : Side) (contracts leverage : Z)
        (reduce_only : bool) (action : option Action) (limit_price : option F)
        (w : World F) (d : OrderDetails F) (filled total : F) :
  (clock w - start_time < gtc_timeout_seconds self)%Z ->
  fst (get_order_details exchange order_id w) = Ret (Some d) ->
  status d = "done" ->
  filled_size_of d = Some filled ->
  total_size_of d contracts = Some total ->
  let w1 := after exchange w
                  (FallbackSpec.get ("/api/v1/orders/" ++ order_id)) in
  monitor_loop exchange self place_order (S passes) start_time order_id symbol
               side contracts leverage reduce_only action limit_price w
  = (Ret (GtcFilled order_id filled),
     match trade_info action limit_price with
     | Some (a, p) =>
         if trade_logging_enabled self then
           add_row w1 {| TradeLog.action := a;
                         TradeLog.symbol := symbol;
                         TradeLog.contracts := Z.abs contracts;
                         TradeLog.limit_price := Some p;
                         TradeLog.order_id := order_id;
                         TradeLog.slippage := Some (slippage_pct self);
                         TradeLog.status := FILLED;
                         TradeLog.error := TradeLog.NoDetail |}
         else w1
     | None => w1
     end).
Proof. apply monitor_done. Qed.

End MoreExecutor.

(** ** More on the request client *)

Section MoreClient.
Context {F : Type} `{Number F}.
Variable exchange : Exchange F.
Local Open Scope monad_scope.

(** X14.  [get_ticker_price] never raises and sends exactly one request.  It
    returns the price of a reply that has a success status, the success code
    and a readable price, and 0 in every other case: transport failure, HTTP
    error status, undecodable body, error code, unreadable price. *)
Theorem get_ticker_price_is_zero_on_every_failure
        (symbol : string) (w : World F) :
  let r := FallbackSpec.get ("/api/v1/ticker?symbol=" ++ symbol) in
  get_ticker_price exchange symbol w
  = (Ret match snd (exchange (requests w) r) with
         | Response status_code (Some j) =>
             if ((400 <=? status_code) && (status_code <? 600))%Z then lit 0
             else if (code j =? "200000")%string then
                    match get_float (last (as_ticker (data j))) (lit 0) with
                    | Some price => price
                    | None => lit 0
                    end
                  else lit 0
         | _ => lit 0
         end,
     after exchange w r).
Proof.
  intros r. subst r.
  unfold get_ticker_price, FallbackSpec.get, try_except, bind, send,
    raise_for_status, json, eval, ret, raise.
  destruct (snd (exchange _ _)) as [reason | status_code [j|]]; cbn;
    try reflexivity;
    destruct ((400 <=? status_code) && (status_code <? 600))%Z; cbn;
    try reflexivity.
  destruct (code j =? "200000")%string; [|reflexivity].
  destruct (get_float (last (as_ticker (data j))) (lit 0)); reflexivity.
Qed.

Lemma try_attempts_result {A} (P : A -> Prop)
      (extract : Payload F -> option A)
      (what : string) (failure : A) (attempts : list (string * string)) :
  (forall p a, extract p = Some a -> P a) -> P failure ->
  forall last_error w,
    exists a,
      fst (try_attempts exchange extract what failure attempts last_error w)
      = Ret a /\ P a.
Proof.
  intros Hextract Hfailure.
  induction attempts as [|[attempt_name endpoint_path] rest IH];
    intros last_error w; cbn [try_attempts].
  - exists failure. split; [reflexivity | exact Hfailure].
  - unfold bind at 1.
    destruct (reply_fetched_or_failed extract attempt_name
                (snd (exchange (requests w) (FallbackSpec.get endpoint_path))))
      as [(a & Hfetched) | (e & Hfailed)].
    + rewrite (attempt_fetched exchange _ _ _ _ _ Hfetched).
      exists a. split; [reflexivity|].
      destruct Hfetched as (p & _ & Hp). exact (Hextract _ _ Hp).
    + rewrite (attempt_failed exchange _ _ _ _ _ Hfailed). apply IH.
Qed.

(** X15.  [get_positions] always comes back with a list, and every position
    in it is open. *)
Theorem get_positions_returns_only_open_positions
        (currency : string) (w : World F) :
  exists ps,
    fst (get_positions exchange currency w) = Ret ps
    /\ Forall (fun pos => isOpen pos = true) ps.
Proof.
  unfold get_positions. apply try_attempts_result; [|constructor].
  intros p ps Hp. apply Forall_forall. intros pos Hin.
  destruct p; try discriminate Hp; injection Hp as <-;
    [destruct Hin | apply filter_In in Hin; apply Hin].
Qed.

(** *** Position mode on the wire *)



End MoreClient.

(** ** Rebalancing entry points *)

Section Rebalancing.
Context {F : Type} `{Number F}.
Variable exchange : Exchange F.
Import Observations.
Local Open Scope monad_scope.

Lemma bind_ret_world {A B} (m : M F A) (f : A -> B) (w : World F) :
  snd (bind m (fun a => ret (f a)) w) = snd (m w).
Proof. unfold bind, ret. destruct (m w) as [[a | e | ] w']; reflexivity. Qed.

(** X18.  [OrderExecutor.execute_rebalance] reports 'none' and sends no
    request, draws no identifier and writes no trade row when the metrics do
    not call for rebalancing.  When they do, the sign of the
    deviation alone picks the direction: with a positive deviation every order
    it sends is a sell that is not reduce-only at the given leverage, and
    otherwise every order is a reduce-only buy at leverage 1. *)
Theorem execute_rebalance_direction
        (self : Config F) (fuel : nat) (metrics : Metrics F) (symbol : string)
        (leverage : Z) (w : World F) :
  (needs_rebalancing metrics = false ->
   OrderExecutor.execute_rebalance exchange self fuel metrics symbol leverage w
   = (Ret (@NoAction F), w))
  /\ (needs_rebalancing metrics = true ->
      exists os,
        orders (snd (OrderExecutor.execute_rebalance exchange self fuel metrics
                       symbol leverage w))
        = (orders w ++ os)%list
        /\ Forall (fun o =>
                     Wire.symbol o = symbol
                     /\ if gtb (allocation_deviation metrics) (lit 0)
                        then Wire.side o = Sell /\ reduceOnly o = false
                             /\ Wire.leverage o = leverage
                        else Wire.side o = Buy /\ reduceOnly o = true
                             /\ Wire.leverage o = 1)
                  os).
Proof.
  unfold OrderExecutor.execute_rebalance, open_short, close_short. split.
  - intros ->. reflexivity.
  - intros ->. cbn [negb].
    destruct (gtb (allocation_deviation metrics) (lit 0));
      rewrite bind_ret_world;
      match goal with
      | |- context [place_order _ _ ?f ?s ?sd ?c ?l ?r ?w0] =>
          destruct (place_order_keeps exchange self s sd l r f c w0)
            as [(os & Ho & Hf & _) _ _]
      end;
      exists os; (split; [exact Ho|]);
      (eapply Forall_impl; [|exact Hf]); cbn;
      intros o ((Hs & Hsd & Hl & Hr & _) & _); auto.
Qed.

(** X19.  [TradingBot.execute_rebalance] never raises.  It returns False
    without a request or a trade row when the metrics do not call for
    rebalancing, when automatic rebalancing is off, or when the adjustment is
    above the maximum or below the minimum order size; and it returns True
    only when the order it placed came back as a success. *)
Theorem bot_rebalance_is_gated
        (self : TradingBot.Bot F) (fuel : nat) (metrics : Metrics F)
        (w : World F) :
  let adjustment_usd := absF (short_position_adjustment metrics) in
  let order :=
    if gtb (allocation_deviation metrics) (lit 0)
    then open_short exchange (TradingBot.executor self) fuel
                    (TradingBot.futures_symbol self)
                    (contracts_to_adjust metrics) (TradingBot.leverage self)
    else close_short exchange (TradingBot.executor self) fuel
                     (TradingBot.futures_symbol self)
                     (contracts_to_adjust metrics) in
  (needs_rebalancing metrics = false
   \/ TradingBot.auto_rebalance self = false
   \/ gtb adjustment_usd (max_order_usd (TradingBot.executor self)) = true
   \/ ltb adjustment_usd (min_order_usd (TradingBot.executor self)) = true ->
   TradingBot.execute_rebalance exchange self fuel metrics w = (Ret false, w))
  /\ (forall e,
        fst (TradingBot.execute_rebalance exchange self fuel metrics w)
        <> Raise e)
  /\ (fst (TradingBot.execute_rebalance exchange self fuel metrics w)
      = Ret true ->
      exists r, fst (order w) = Ret r /\ success r = true).
Proof.
  intros adjustment_usd order. subst adjustment_usd order.
  unfold TradingBot.execute_rebalance.
  destruct (needs_rebalancing metrics); cbn [negb];
    [|repeat split; [discriminate | discriminate]].
  destruct (TradingBot.auto_rebalance self); cbn [negb];
    [|repeat split; [discriminate | discriminate]].
  destruct (gtb (absF (short_position_adjustment metrics))
                (max_order_usd (TradingBot.executor self)));
    [repeat split; [discriminate | discriminate]|].
  destruct (ltb (absF (short_position_adjustment metrics))
                (min_order_usd (TradingBot.executor self)));
    [repeat split; [discriminate | discriminate]|].
  split; [intros [Hc | [Hc | [Hc | Hc]]]; discriminate|].
  assert (Hnr : no_raise
            (if gtb (allocation_deviation metrics) (lit 0)
             then open_short exchange (TradingBot.executor self) fuel
                    (TradingBot.futures_symbol self)
                    (contracts_to_adjust metrics) (TradingBot.leverage self)
             else close_short exchange (TradingBot.executor self) fuel
                    (TradingBot.futures_symbol self)
                    (contracts_to_adjust metrics)))
    by (destruct (gtb _ _); apply place_order_no_raise).
  specialize (Hnr w). unfold bind, ret.
  match type of Hnr with
  | forall e, fst ?run <> _ =>
      destruct run as [[r | e | ] w'] eqn:Horder; cbn [fst] in *
  end.
  - split; [discriminate|]. intros Htrue. injection Htrue as Htrue.
    exists r. auto.
  - exfalso. apply (Hnr e). reflexivity.
  - split; [discriminate | discriminate].
Qed.

End Rebalancing.

(** ** LogLevelFilter *)

(** X20.  The four file log levels are nested: a record that passes the
    filter at ERROR passes at WARNING, one that passes at WARNING passes at
    TRADE, one that passes at TRADE passes at INFO, and at INFO every record
    passes. *)
Theorem log_levels_are_nested (levelno : Z) (msg : string) :
  (LogLevelFilter.filter "ERROR" levelno msg = true ->
   LogLevelFilter.filter "WARNING" levelno msg = true)
  /\ (LogLevelFilter.filter "WARNING" levelno msg = true ->
      LogLevelFilter.filter "TRADE" levelno msg = true)
  /\ (LogLevelFilter.filter "TRADE" levelno msg = true ->
      LogLevelFilter.filter "INFO" levelno msg = true)
  /\ LogLevelFilter.filter "INFO" levelno msg = true.
Proof.
  unfold LogLevelFilter.filter.
  repeat match goal with
         | |- context [if ?c then _ else _] => destruct c
         end;
    cbn; repeat split; auto.
Qed.

(** X21.  Under a level name that is not one of ERROR, WARNING, TRADE and
    INFO, the filter passes exactly the records logged at level ERROR or
    above, whatever their message. *)
Theorem unknown_log_level_passes_only_errors
        (log_level : string) (levelno : Z) (msg : string) :
  log_level <> "ERROR" -> log_level <> "WARNING" ->
  log_level <> "TRADE" -> log_level <> "INFO" ->
  LogLevelFilter.filter log_level levelno msg
  = (LogLevelFilter.ERROR <=? levelno)%Z.
Proof.
  intros He Hw Ht Hi.
  assert (Hallows : forall name, LogLevelFilter.allows log_level name = false).
  { intros name. unfold LogLevelFilter.allows, LogLevelFilter.level_hierarchy.
    cbn [LogLevelFilter.lookup].
    apply not_eq_sym in He, Hw, Ht, Hi.
    apply String.eqb_neq in He, Hw, Ht, Hi.
    rewrite He, Hw, Ht, Hi. reflexivity. }
  unfold LogLevelFilter.filter. rewrite !Hallows.
  apply String.eqb_neq in Hi. rewrite Hi.
  repeat match goal with
         | |- context [if ?c then _ else _] => destruct c
         end; reflexivity.
Qed.

(** ** Pricing fallback, exceptions and the end of monitoring *)

Section OrderPath.
Context {F : Type} `{Number F}.
Variable exchange : Exchange F.
Variable self : Config F.
Import Observations.
Local Open Scope monad_scope.

Lemma orders_drawn (w : World F) : orders (drawn w) = orders w.
Proof. reflexivity. Qed.

(** X22.  A live limit order whose price comes out as 0 (no quote, or a zero
    bid or ask) is not dropped: once the size check and the position-mode
    check have passed, exactly one order is submitted, of type 'market', with
    neither a price nor a time in force, and for the full size. *)
Theorem unpriced_limit_order_goes_out_as_market
        (fuel : nat) (symbol : string) (side : Side) (contracts leverage : Z)
        (reduce_only : bool) (w : World F) :
  let checked := verify_position_mode exchange self symbol w in
  let quoted := calculate_limit_price exchange self symbol side
                                      (drawn (snd checked)) in
  dry_run self = false ->
  order_type self = "limit" ->
  is_gt (cmp_int (Z.abs contracts) (max_order_usd self)) = false ->
  is_lt (cmp_int (Z.abs contracts) (min_order_usd self)) = false ->
  fst checked = Ret true ->
  (exists p, fst quoted = Ret p /\ eqb p (lit 0) = true) ->
  orders (snd (place_order exchange self fuel symbol side contracts leverage
                           reduce_only w))
  = (orders w
     ++ [ {| clientOid := uuid_draws w;
             Wire.side := side;
             Wire.symbol := symbol;
             type := "market";
             Wire.leverage := leverage;
             size := Z.abs contracts;
             reduceOnly := reduce_only;
             marginMode := margin_mode self;
             price := None;
             timeInForce := None |} ])%list.
Proof.
  intros checked quoted Hdry Htype Hmax Hmin Hchecked (p & Hquoted & Hzero).
  subst checked quoted.
  destruct (verify_position_mode_effect exchange self symbol w)
    as (b & w1 & Hverify & Hw1 & _).
  rewrite Hverify in *. cbn [fst snd] in *. injection Hchecked as ->.
  assert (Horders1 : orders w1 = orders w).
  { destruct Hw1 as [-> | (_ & k & ->)];
      rewrite ?orders_after_other; try reflexivity;
      intros o; discriminate. }
  assert (Huuid1 : uuid_draws w1 = uuid_draws w).
  { destruct Hw1 as [-> | (_ & k & ->)]; reflexivity. }
  destruct (calculate_limit_price_returns exchange self symbol side (drawn w1))
    as (p' & Hprice).
  rewrite Hprice in Hquoted. cbn [fst] in Hquoted. injection Hquoted as ->.
  destruct fuel; cbn [place_order];
    rewrite Hmax, Hmin, Hdry, Htype;
    cbn [negb String.eqb Ascii.eqb Bool.eqb andb];
    rewrite (bind_step _ _ _ _ _ Hverify); cbn [negb];
    rewrite (bind_step uuid4 _ w1 (drawn w1) (uuid_draws w1) eq_refl);
    rewrite bind_assoc, (bind_step _ _ _ _ _ Hprice);
    rewrite (bind_step (ret (Some p)) _ _ _ (Some p) eq_refl);
    cbv beta zeta; rewrite Hzero;
    cbn [String.eqb Ascii.eqb Bool.eqb andb];
    rewrite Huuid1, <- Horders1, <- (orders_drawn w1);
    rewrite <- (orders_after_other exchange (drawn w1)
                  (FallbackSpec.get ("/api/v1/ticker?symbol=" ++ symbol)))
      by (intros o; discriminate);
    rewrite <- (orders_after_order exchange _ POST "/api/v1/orders");
    unfold try_except, bind, send, raise_for_status, json, eval, ret, raise,
      log_trade, TradeLogger.log_trade, append_row;
    (destruct (snd (exchange _ _)) as [reason | status_code [j|]]; cbn;
     try destruct ((400 <=? status_code) && (status_code <? 600))%Z; cbn;
     try destruct (code j =? "200000")%string; cbn;
     try destruct (as_order_id (data j)); cbn;
     try destruct (negb (trade_logging_enabled self)); reflexivity).
Qed.

(** X23.  No exception leaves [place_order], although the position-mode
    check, the identifier draw and the price calculation run outside its
    [try] block: every failure on the way comes back as a result. *)
Theorem place_order_never_raises
        (fuel : nat) (symbol : string) (side : Side) (contracts leverage : Z)
        (reduce_only : bool) (w : World F) (e : Exn) :
  fst (place_order exchange self fuel symbol side contracts leverage
                   reduce_only w)
  <> Raise e.
Proof.
  apply (place_order_no_raise exchange self fuel symbol side contracts
                              leverage reduce_only).
Qed.

(** X24.  Monitoring ends.  Every pass that does not return sleeps five
    seconds, so the loop of [monitor_gtc_order] reaches its timeout branch
    within [gtc_timeout_seconds + 1] passes: whenever the resubmission it may
    make comes back, [monitor_gtc_order] comes back too. *)
Theorem monitoring_ends_by_the_timeout
        (place_order : PlaceOrder (F := F)) (order_id symbol : string)
        (side : Side) (contracts leverage : Z) (reduce_only : bool)
        (action : option Action) (limit_price : option F) (w : World F) :
  (forall s sd u l r w', fst (place_order s sd u l r w') <> Diverge) ->
  fst (monitor_gtc_order exchange self place_order order_id symbol side
                         contracts leverage reduce_only action limit_price w)
  <> Diverge.
Proof.
  intros Hplace.
  apply (monitor_gtc_order_no_diverge exchange self place_order order_id
           symbol side contracts leverage reduce_only action limit_price).
  intros s sd u l r w'. apply Hplace.
Qed.

End OrderPath.

(* ------------------------------------------------------------------ *)
(** ** Concrete runs in binary64 *)

Import Scenario Cases.

(** *** Calculator *)

(** Scenario A of the specification: one coin in cold storage at 50000 and no
    short: allocation 100, deviation +50, 25000 contracts to short. *)
Example scenario_excess_exposure :
  exists m,
    calculate_metrics 1%float {| accountEquity := Num 0%float |} []
                      50000%float 50%float 1%float = Some m
    /\ current_btc_allocation m = 100%float
    /\ allocation_deviation m = 50%float
    /\ contracts_to_adjust m = 25000
    /\ needs_rebalancing m = true.
Proof. eexists. split; [vm_compute; reflexivity|]. repeat split. Qed.

(** C3, counterexample.  An empty portfolio (total value 0) with target 50 and
    threshold 1: the allocations are 0 but [needs_rebalancing] is true. *)
Lemma zero_portfolio_still_needs_rebalancing :
  exists m,
    calculate_metrics 0%float {| accountEquity := Num 0%float |} []
                      50000%float 50%float 1%float = Some m
    /\ PrimFloat.eqb (total_portfolio_usd m) 0%float = true
    /\ current_btc_allocation m = 0%float
    /\ current_usd_allocation m = 0%float
    /\ needs_rebalancing m = true.
Proof. eexists. split; [vm_compute; reflexivity|]. repeat split. Qed.

Lemma zero_portfolio_allocations_witness :
  exists m,
    calculate_metrics 0%float {| accountEquity := Num 0%float |} []
                      50000%float 50%float 1%float = Some m
    /\ (current_btc_allocation m = lit 0
        /\ current_usd_allocation m = lit 0
        /\ allocation_deviation m = sub (lit 0) 50%float
        /\ needs_rebalancing m = gtb (absF (sub (lit 0) 50%float)) 1%float).
Proof.
  eexists. split; [vm_compute; reflexivity|].
  eapply (zero_portfolio_allocations 0%float {| accountEquity := Num 0%float |}
            [] 50000%float 50%float 1%float);
    vm_compute; reflexivity.
Defined.

(** C6, counterexample.  Holdings worth 1 against a short of 1e18 contracts:
    the total is positive, [1 - 1e18] rounds to [-1e18], the allocations are
    [-1e20] and [1e20], and their sum is 0, not 100. *)
Lemma allocations_can_miss_100_in_binary64 :
  exists m,
    calculate_metrics 1%float {| accountEquity := Num 0%float |}
                      [short 1e18%float] 1%float 50%float 1%float = Some m
    /\ PrimFloat.ltb 0%float (total_portfolio_usd m) = true
    /\ current_btc_allocation m = (-1e20)%float
    /\ current_usd_allocation m = 1e20%float
    /\ (current_btc_allocation m + current_usd_allocation m)%float = 0%float
    /\ within_tolerance
         (current_btc_allocation m + current_usd_allocation m)%float 100%float
       = false.
Proof. eexists. split; [vm_compute; reflexivity|]. repeat split. Qed.

(** The same with moderate figures: holdings worth 3 against 503317
    contracts put the two allocations on either side of [2^24], and the sum
    is off by [2^-29], more than 1e-9. *)
Example allocations_miss_100_across_binades :
  exists m,
    calculate_metrics 3%float {| accountEquity := Num 0%float |}
                      [short 503317%float] 1%float 50%float 1%float = Some m
    /\ within_tolerance
         (current_btc_allocation m + current_usd_allocation m)%float 100%float
       = false.
Proof. eexists. split; [vm_compute; reflexivity|]. reflexivity. Qed.


(** *** Quotes and endpoint fallback *)

(** C4, counterexample.  Bid 0, ask 50000, last 48000: the bid becomes the
    last price but the ask stays 50000. *)
Lemma one_sided_book_keeps_its_ask :
  exists q,
    fst (get_best_bid_ask one_sided_book "XBTUSDM" start) = Ret (Some q)
    /\ best_bid q = 48000%float
    /\ best_ask q = 50000%float
    /\ last_price q = 48000%float
    /\ PrimFloat.eqb (best_ask q) (last_price q) = false.
Proof. eexists. split; [vm_compute; reflexivity|]. repeat split. Qed.

Lemma quote_fallback_witness :
  exists q,
    get_best_bid_ask one_sided_book "XBTUSDM" start
    = (Ret (Some q),
       after one_sided_book start
             (FallbackSpec.get ("/api/v1/ticker?symbol=" ++ "XBTUSDM")))
    /\ best_bid q = (if gtb 0%float (lit 0) then 0%float else 48000%float)
    /\ best_ask q = (if gtb 50000%float (lit 0) then 50000%float
                     else 48000%float)
    /\ last_price q = 48000%float
    /\ (eqb 0%float (lit 0) = true -> eqb 50000%float (lit 0) = true ->
        best_bid q = 48000%float /\ best_ask q = 48000%float).
Proof.
  apply (quote_fallback_replaces_only_missing_sides
           one_sided_book "XBTUSDM" start 200
           {| code := "200000"; msg := None;
              data := TickerData {| bestBidPrice := Num 0%float;
                                    bestAskPrice := Num 50000%float;
                                    last := Num 48000%float; ts := 0 |} |}
           {| bestBidPrice := Num 0%float; bestAskPrice := Num 50000%float;
              last := Num 48000%float; ts := 0 |}
           0%float 50000%float 48000%float);
    vm_compute; reflexivity.
Defined.

(** Both account paths fail, the first with HTTP 400 and the second with an
    error code: the empty account comes back after two requests, and the
    report carries the second reply's message as sent. *)
Example account_fallback_reports_last_message :
  let run := get_futures_account no_account "XBT" start in
  fst run = Ret {| accountEquity := Absent |}
  /\ wire (snd run)
     = [ (GET, "/api/v1/account-overview", None);
         (GET, "/api/v1/account-overview?currency=XBT", None) ]
  /\ log (snd run) = [AllMethodsFailed "ACCOUNT" (Some (Text "Invalid currency"))].
Proof. vm_compute. repeat split. Qed.



(** *** Orders *)

(** C1, counterexample.  A limit order of 1000 contracts rests unfilled until
    the timeout.  It is cancelled and logged as CANCELLED, and then a second
    order of 1000 contracts is submitted, which fills. *)
Lemma unfilled_order_is_resubmitted :
  let run := place_order (resting_order 0 true) live 1 "XBTUSDM" Sell 1000 1
                         false start in
  fst run = Ret (GtcFilled "B" 1000%float)
  /\ wire (snd run)
     = [ (GET, "/api/v2/position/getPositionMode?symbol=XBTUSDM", None);
         (GET, "/api/v1/ticker?symbol=XBTUSDM", None);
         (POST, "/api/v1/orders", Some (0%nat, 1000));
         (GET, "/api/v1/orders/A", None);
         (GET, "/api/v1/orders/A", None);
         (GET, "/api/v1/orders/A", None);
         (DELETE, "/api/v1/orders/A", None);
         (GET, "/api/v2/position/getPositionMode?symbol=XBTUSDM", None);
         (GET, "/api/v1/ticker?symbol=XBTUSDM", None);
         (POST, "/api/v1/orders", Some (1%nat, 1000));
         (GET, "/api/v1/orders/B", None) ]
  /\ rows (snd run) = [ (CANCELLED, 1000, "A"); (FILLED, 1000, "B") ]
  /\ List.length (filter is_submission (requests (snd run))) = 2%nat.
Proof. vm_compute. repeat split. Qed.

(** The world in which order "A" has been resting for twelve seconds. *)
Lemma timeout_without_fill_witness :
  let w := {| clock := 15; requests := []; ledger := []; log := [];
              uuid_draws := 1 |} in
  exists w',
    monitor_loop (resting_order 0 true) live
                 (place_order (resting_order 0 true) live 0) 1 3 "A" "XBTUSDM"
                 Sell 1000 1 false (Some OPEN_SHORT) (Some 50250%float) w
    = place_order (resting_order 0 true) live 0 "XBTUSDM" Sell 1000 1 false w'
    /\ requests w'
       = (requests w
            ++ [ FallbackSpec.get ("/api/v1/orders/" ++ "A");
                 {| method := DELETE;
                    endpoint_path := "/api/v1/orders/" ++ "A";
                    body := NoBody |} ])%list
    /\ ledger w'
       = (ledger w
            ++ [ {| TradeLog.action := OPEN_SHORT;
                    TradeLog.symbol := "XBTUSDM";
                    TradeLog.contracts := Z.abs 1000;
                    TradeLog.limit_price := Some 50250%float;
                    TradeLog.order_id := "A";
                    TradeLog.slippage := Some (slippage_pct live);
                    TradeLog.status := CANCELLED;
                    TradeLog.error := TradeLog.GtcNoFill |} ])%list.
Proof.
  apply (timeout_without_fill_cancels_logs_and_resubmits
           (resting_order 0 true) live
           (place_order (resting_order 0 true) live 0) 0 3 "A" "XBTUSDM" Sell
           1000 1 false OPEN_SHORT 50250%float
           {| clock := 15; requests := []; ledger := []; log := [];
              uuid_draws := 1 |}
           {| status := "open"; dealSize := Num 0%float;
              od_size := Num 1000%float |}
           0%float 1000%float 1000);
    first [vm_compute; reflexivity | vm_compute; discriminate].
Defined.

(** C2, the failing input.  400 of 1000 contracts are filled at the timeout.
    The remainder is cancelled and a new order with a new identifier is
    submitted for exactly 600 contracts, but no PARTIAL row is written for the
    400 that were filled: the only row of the run is the FILLED row of the
    second order. *)
Theorem partial_fill_at_timeout_writes_no_partial_row :
  let run := place_order (resting_order 400 true) live 1 "XBTUSDM" Sell 1000 1
                         false start in
  fst run = Ret (GtcFilled "B" 600%float)
  /\ wire (snd run)
     = [ (GET, "/api/v2/position/getPositionMode?symbol=XBTUSDM", None);
         (GET, "/api/v1/ticker?symbol=XBTUSDM", None);
         (POST, "/api/v1/orders", Some (0%nat, 1000));
         (GET, "/api/v1/orders/A", None);
         (GET, "/api/v1/orders/A", None);
         (GET, "/api/v1/orders/A", None);
         (DELETE, "/api/v1/orders/A", None);
         (GET, "/api/v2/position/getPositionMode?symbol=XBTUSDM", None);
         (GET, "/api/v1/ticker?symbol=XBTUSDM", None);
         (POST, "/api/v1/orders", Some (1%nat, 600));
         (GET, "/api/v1/orders/B", None) ]
  /\ rows (snd run) = [ (FILLED, 600, "B") ]
  /\ existsb (fun r => match TradeLog.status r with
                       | PARTIAL => true
                       | _ => false
                       end) (ledger (snd run)) = false.
Proof. vm_compute. repeat split. Qed.

(** The cancel request times out; the remainder is resubmitted all the same. *)
Lemma resubmission_ignores_cancel_result_witness :
  let w := {| clock := 15; requests := []; ledger := []; log := [];
              uuid_draws := 1 |} in
  fst (cancel_order (resting_order 400 false) "A"
         (after (resting_order 400 false) w
                (FallbackSpec.get ("/api/v1/orders/" ++ "A"))))
  = Ret false
  /\ exists w',
      monitor_loop (resting_order 400 false) live
                   (place_order (resting_order 400 false) live 0) 1 3 "A"
                   "XBTUSDM" Sell 1000 1 false (Some OPEN_SHORT)
                   (Some 50250%float) w
      = place_order (resting_order 400 false) live 0 "XBTUSDM" Sell 600 1
                    false w'
      /\ requests w'
         = (requests w
              ++ [ FallbackSpec.get ("/api/v1/orders/" ++ "A");
                   {| method := DELETE;
                      endpoint_path := "/api/v1/orders/" ++ "A";
                      body := NoBody |} ])%list.
Proof.
  split; [vm_compute; reflexivity|].
  apply (resubmission_ignores_cancel_result
           (resting_order 400 false) live
           (place_order (resting_order 400 false) live 0) 0 3 "A" "XBTUSDM"
           Sell 1000 1 false (Some OPEN_SHORT) (Some 50250%float)
           {| clock := 15; requests := []; ledger := []; log := [];
              uuid_draws := 1 |}
           {| status := "open"; dealSize := Num 400%float;
              od_size := Num 1000%float |}
           400%float 1000%float 600 false);
    first [vm_compute; reflexivity | vm_compute; discriminate].
Defined.

(** End to end with the failing cancel: the second order is still placed. *)
Example failed_cancel_still_resubmits :
  let run := place_order (resting_order 400 false) live 1 "XBTUSDM" Sell 1000
                         1 false start in
  fst run = Ret (GtcFilled "B" 600%float)
  /\ List.length (filter is_submission (requests (snd run))) = 2%nat.
Proof. vm_compute. repeat split. Qed.

Lemma size_gate_witness :
  exists e,
    place_order (resting_order 0 true) live 1 "XBTUSDM" Sell 20000 1 false start
    = (Ret (Failure e), start).
Proof.
  apply (size_gate_rejects_without_network
           (resting_order 0 true) live 1 "XBTUSDM" Sell 20000 1 false start).
  left. vm_compute. reflexivity.
Defined.

Lemma dry_run_witness :
  exists r w',
    place_order (resting_order 0 true) simulated 1 "XBTUSDM" Sell 1000 1 false
                start
    = (Ret r, w')
    /\ success r = true
    /\ partially_filled r = false
    /\ order_id r = Some (DryRunId (uuid_draws start))
    /\ ledger w' = ledger start
    /\ (requests w' = requests start
        \/ requests w'
           = (requests start
                ++ [FallbackSpec.get ("/api/v1/ticker?symbol=" ++ "XBTUSDM")])%list).
Proof.
  apply (dry_run_short_circuits
           (resting_order 0 true) simulated 1 "XBTUSDM" Sell 1000 1 false start);
    vm_compute; reflexivity.
Defined.



(** ** The further properties at concrete inputs *)

Import Cases Observations.

(** X1 at a book with one short and one long position. *)
Lemma metrics_ignore_long_positions_witness :
  exists m : Metrics float,
    calculate_metrics 1%float {| accountEquity := Num 0%float |}
                      [short 25000; long 5000] 50000%float 50%float 1%float
    = Some m
    /\ calculate_metrics 1%float {| accountEquity := Num 0%float |}
                         (List.filter counted [short 25000; long 5000])
                         50000%float 50%float 1%float
       = Some m.
Proof.
  eexists. split; [vm_compute; reflexivity|].
  apply (metrics_ignore_long_and_linear_positions
           1%float {| accountEquity := Num 0%float |}
           [short 25000; long 5000] 50000%float 50%float 1%float).
  vm_compute; reflexivity.
Defined.

(** X2 at one bitcoin in cold storage and no short position. *)
Lemma contracts_to_adjust_witness :
  exists m : Metrics float,
    calculate_metrics 1%float {| accountEquity := Num 0%float |} []
                      50000%float 50%float 1%float
    = Some m
    /\ 0 <= contracts_to_adjust m.
Proof.
  eexists. split; [vm_compute; reflexivity|].
  eapply (contracts_to_adjust_is_nonnegative
            1%float {| accountEquity := Num 0%float |} []
            50000%float 50%float 1%float).
  vm_compute; reflexivity.
Defined.

(** X3 at a deviation of 50 points against a threshold of 50. *)
Lemma deviation_equal_to_threshold_witness :
  exists m : Metrics float,
    calculate_metrics 1%float {| accountEquity := Num 0%float |} []
                      50000%float 50%float 50%float
    = Some m
    /\ allocation_deviation m = 50%float
    /\ needs_rebalancing m = false.
Proof.
  eexists. split; [vm_compute; reflexivity|]. split; [reflexivity|].
  eapply (deviation_equal_to_threshold_is_balanced
            1%float {| accountEquity := Num 0%float |} []
            50000%float 50%float 50%float);
    vm_compute; reflexivity.
Defined.


(** X7 at an order that rests unfilled, is cancelled and is sent again. *)
Lemma client_order_ids_witness :
  let w' := snd (place_order (resting_order 0 true) live 2 "XBTUSDM" Sell 1000
                             1 false start) in
  List.length (orders w') = 2%nat
  /\ NoDup (map clientOid (orders w'))
  /\ Forall (fun o => (clientOid o < uuid_draws w')%nat) (orders w').
Proof.
  split; [vm_compute; reflexivity|].
  apply (client_order_ids_are_never_reused
           (resting_order 0 true) live "XBTUSDM" Sell 1 false 2 1000 start);
    vm_compute; constructor.
Defined.

(** X11 at an account in one-way mode and an executor set for hedge mode. *)
Lemma mode_mismatch_witness :
  exists w',
    place_order (resting_order 0 true) hedged 1 "XBTUSDM" Sell 1000 1 false
                start
    = (Ret (Failure (Text "Position mode mismatch")), w')
    /\ orders w' = orders start
    /\ ledger w' = ledger start
    /\ uuid_draws w' = uuid_draws start.
Proof.
  apply (mode_mismatch_submits_nothing
           (resting_order 0 true) hedged 1 "XBTUSDM" Sell 1000 1 false start);
    vm_compute; reflexivity.
Defined.

(** X12 at an order found fully dealt when the timeout is reached: the row
    says TIMEOUT. *)
Lemma timeout_without_remainder_witness :
  let run := monitor_loop (resting_order 1000 true) live refuse_all 1 (-10)
                          "A" "XBTUSDM" Sell 1000 1 false (Some OPEN_SHORT)
                          (Some 50250%float) start in
  fst run = Ret (Failure (Text "GTC order timeout"))
  /\ rows (snd run) = [(TIMEOUT, 1000, "A")]
  /\ wire (snd run) = [(GET, "/api/v1/orders/A", None)].
Proof.
  cbv zeta.
  rewrite (timeout_without_remainder_is_reported_as_timeout
             (resting_order 1000 true) live refuse_all 0 (-10) "A" "XBTUSDM"
             Sell 1000 1 false (Some OPEN_SHORT) (Some 50250%float) start
             (Some {| status := "open"; dealSize := Num 1000%float;
                      od_size := Num 1000%float |})).
  - vm_compute. repeat split.
  - vm_compute. discriminate.
  - vm_compute. reflexivity.
  - right. exists {| status := "open"; dealSize := Num 1000%float;
                     od_size := Num 1000%float |}, 1000%float, 1000%float.
    repeat split; vm_compute; reflexivity.
Defined.

(** X13 at an order found done at the first check. *)
Lemma done_order_witness :
  let run := monitor_loop (resting_order 0 true) live refuse_all 1 0 "B"
                          "XBTUSDM" Sell 1000 1 false (Some OPEN_SHORT)
                          (Some 50250%float) start in
  fst run = Ret (GtcFilled "B" 1000%float)
  /\ rows (snd run) = [(FILLED, 1000, "B")].
Proof.
  cbv zeta.
  rewrite (done_order_is_logged_filled
             (resting_order 0 true) live refuse_all 0 0 "B" "XBTUSDM" Sell
             1000 1 false (Some OPEN_SHORT) (Some 50250%float) start
             {| status := "done"; dealSize := Num 1000%float;
                od_size := Num 1000%float |} 1000%float 1000%float).
  - vm_compute. repeat split.
  - vm_compute. reflexivity.
  - vm_compute. reflexivity.
  - reflexivity.
  - vm_compute. reflexivity.
  - vm_compute. reflexivity.
Defined.


(** X21 at the level name DEBUG: a trade line logged at INFO is dropped. *)
Lemma unknown_log_level_witness :
  LogLevelFilter.filter "DEBUG" 20 "[TRADE] OPEN SHORT 1000 MARKET [FILLED]"
  = false.
Proof.
  rewrite (unknown_log_level_passes_only_errors
             "DEBUG" 20 "[TRADE] OPEN SHORT 1000 MARKET [FILLED]");
    [reflexivity | discriminate | discriminate | discriminate | discriminate].
Defined.

(** X22 at an exchange without a ticker. *)
Lemma unpriced_limit_order_witness :
  orders (snd (place_order no_quote live 1 "XBTUSDM" Sell 1000 1 false start))
  = [ {| clientOid := 0%nat;
         Wire.side := Sell;
         Wire.symbol := "XBTUSDM";
         type := "market";
         Wire.leverage := 1;
         size := 1000;
         reduceOnly := false;
         marginMode := "ISOLATED";
         price := None;
         timeInForce := None |} ].
Proof.
  apply (unpriced_limit_order_goes_out_as_market
           no_quote live 1 "XBTUSDM" Sell 1000 1 false start);
    try (vm_compute; reflexivity).
  exists 0%float. split; vm_compute; reflexivity.
Defined.

(** X24 at an order that stays open for as long as it is watched. *)
Lemma monitoring_ends_witness :
  fst (monitor_gtc_order (resting_order 0 true) live refuse_all "A" "XBTUSDM"
                         Sell 1000 1 false (Some OPEN_SHORT)
                         (Some 50250%float) start)
  <> Diverge.
Proof.
  apply (monitoring_ends_by_the_timeout
           (resting_order 0 true) live refuse_all "A" "XBTUSDM" Sell 1000 1
           false (Some OPEN_SHORT) (Some 50250%float) start).
  intros s sd u l r w'. discriminate.
Defined.

(** *** The allocation identity *)

Section AllocationRuns.
Import Scenario.
Local Open Scope Q_scope.

(** C6 at 0.1 bitcoin in cold storage, 0.05 of futures equity, a short of
    3000 contracts and a price of 43000.7. *)
Lemma binary64_allocations_sum_to_100_witness :
  exists m,
    calculate_metrics (1 / 10)%float {| accountEquity := Num (1 / 20)%float |}
                      [short 3000%float] (430007 / 10)%float 50%float 1%float
    = Some m
    /\ exists q,
         value (current_btc_allocation m + current_usd_allocation m)%float
         = Some q
         /\ Qabs (q - 100) <= 1 # 1000000000.
Proof.
  eexists. split; [vm_compute; reflexivity|].
  eapply (binary64_allocations_sum_to_100
            (1 / 10)%float {| accountEquity := Num (1 / 20)%float |}
            [short 3000%float] (430007 / 10)%float 50%float 1%float);
    try (vm_compute; reflexivity);
    apply Qle_bool_iff; vm_compute; reflexivity.
Defined.

(** At the same figures the sum is close to 100 and not equal to it. *)
Example allocations_near_100_not_equal :
  exists m,
    calculate_metrics (1 / 10)%float {| accountEquity := Num (1 / 20)%float |}
                      [short 3000%float] (430007 / 10)%float 50%float 1%float
    = Some m
    /\ within_tolerance
         (current_btc_allocation m + current_usd_allocation m)%float 100%float
       = true
    /\ PrimFloat.eqb
         (current_btc_allocation m + current_usd_allocation m)%float 100%float
       = false.
Proof. eexists. split; [vm_compute; reflexivity|]. split; reflexivity. Qed.

(** Outside the ranges of the theorem the sum can be far from 100 with a
    positive total and no short at all: a negative futures equity that nearly
    cancels the cold storage, a gross exposure that overflows beside a finite
    total, and holdings in the subnormal range. *)
Example allocations_miss_100_with_negative_equity :
  exists m,
    calculate_metrics 1%float
                      {| accountEquity := Num (-0x1.fffffffffffffp-1)%float |}
                      [] 3%float 50%float 1%float = Some m
    /\ PrimFloat.ltb 0%float (total_portfolio_usd m) = true
    /\ within_tolerance
         (current_btc_allocation m + current_usd_allocation m)%float 100%float
       = false.
Proof. eexists. split; [vm_compute; reflexivity|]. split; reflexivity. Qed.

Example allocations_miss_100_near_overflow :
  exists m,
    calculate_metrics 0x1.44c3c2f0610d0p-1%float
                      {| accountEquity := Num 0x1.e4761db8b3694p-2%float |}
                      [] 0x1.ce56bf55c0d04p+1023%float 50%float 1%float
    = Some m
    /\ PrimFloat.ltb 0%float (total_portfolio_usd m) = true
    /\ PrimFloat.ltb (total_portfolio_usd m) infinity = true
    /\ within_tolerance
         (current_btc_allocation m + current_usd_allocation m)%float 100%float
       = false.
Proof. eexists. split; [vm_compute; reflexivity|]. repeat split. Qed.

Example allocations_miss_100_on_underflow :
  exists m,
    calculate_metrics 0x3p-1074%float {| accountEquity := Num 0x1p-1074%float |}
                      [] (2 / 5)%float 50%float 1%float = Some m
    /\ PrimFloat.ltb 0%float (total_portfolio_usd m) = true
    /\ within_tolerance
         (current_btc_allocation m + current_usd_allocation m)%float 100%float
       = false.
Proof. eexists. split; [vm_compute; reflexivity|]. split; reflexivity. Qed.

(** X4 at the same figures. *)
Lemma binary64_adjustments_agree_witness :
  exists m c f p,
    calculate_metrics (1 / 10)%float {| accountEquity := Num (1 / 20)%float |}
                      [short 3000%float] (430007 / 10)%float 50%float 1%float
    = Some m
    /\ value (1 / 10)%float = Some c
    /\ value (1 / 20)%float = Some f
    /\ value (430007 / 10)%float = Some p
    /\ exists r a,
         value (required_usd_adjustment m) = Some r
         /\ value (short_position_adjustment m) = Some a
         /\ Qabs (r - a) <= (1 # 100000000000) * ((c + f) * p).
Proof.
  do 4 eexists. do 4 (split; [vm_compute; reflexivity|]).
  eapply (binary64_adjustments_agree
            (1 / 10)%float {| accountEquity := Num (1 / 20)%float |}
            [short 3000%float] (430007 / 10)%float 50%float 1%float);
    try (vm_compute; reflexivity);
    apply Qle_bool_iff; vm_compute; reflexivity.
Defined.

End AllocationRuns.
